(** * Inference-time predictor (train.py): feature encoding, dataset loading,
      network construction and trial scoring

    A shallow embedding of [train.py].  Python objects read from JSON are
    the type [value]; a raised exception is the [Raise] branch of [result];
    statements run in source order through the bind of [result].

    Numbers.  A Python [int] is a [Z].  A Python [float] is an exact
    rational [Q]: rounding to binary64 / float32, infinities and NaN are
    outside this model.  [1.0], [0.0] and small counts are exact in every
    float format, so what is proved about them does not depend on the
    idealisation.  An [int] has no bound, so its conversion to a float can
    fail: the [OverflowError] of an [int] beyond the float range is part
    of the model ([overflows]).

    Tensors.  A 2-D tensor is the list of its rows.

    Tables that live in [hordelib.horde.HordeLib] and the string parser of
    the builtin [float] are taken as parameters ([HordeLib], [str_to_float]). *)

From Stdlib Require Import ZArith QArith Qround Lqa String Ascii DecimalString List Lia.
From stdpp Require Import base gmap strings list sorting pretty.

Local Open Scope string_scope.
Local Open Scope list_scope.

(** ** Python objects and exceptions *)

#[warnings="-register-all"]
Inductive value : Type :=
| VNone
| VBool (b : bool)
| VInt (z : Z)
| VFloat (q : Q)
| VStr (s : string)
| VList (l : list value)
| VDict (m : gmap string value).

Inductive exn : Type :=
| KeyError (key : string)
| TypeError
| ValueError
| AttributeError
| IndexError
| RuntimeError
| ZeroDivisionError
| OverflowError.

Inductive result (A : Type) : Type :=
| Ok (a : A)
| Raise (e : exn).
Arguments Ok {A} a.
Arguments Raise {A} e.

#[global] Instance result_ret : MRet result := fun A a => Ok a.
#[global] Instance result_bind : MBind result := fun A B f m =>
  match m with
  | Ok a => f a
  | Raise e => Raise e
  end.

#[global] Instance result_fmap : FMap result := fun A B f m =>
  match m with
  | Ok a => Ok (f a)
  | Raise e => Raise e
  end.

(** Evaluate a list of computations left to right, as Python evaluates the
    elements of a list display; the first exception wins. *)
Fixpoint sequence {A : Type} (cs : list (result A)) : result (list A) :=
  match cs with
  | [] => Ok []
  | c :: rest => x ← c; xs ← sequence rest; Ok (x :: xs)
  end.

Abbreviation tensor2 := (list (list Q)).

(** ** Python primitives used by the encoder *)

(** [o[k]] for a string key [k]. *)
Definition getitem (o : value) (k : string) : result value :=
  match o with
  | VDict m => match m !! k with
               | Some v => Ok v
               | None => Raise (KeyError k)
               end
  | _ => Raise TypeError
  end.

(** [o.get(k, d)]. *)
Definition dict_get (o : value) (k : string) (d : value) : result value :=
  match o with
  | VDict m => Ok (default d (m !! k))
  | _ => Raise AttributeError
  end.

(** [o is None]. *)
Definition is_None (o : value) : bool :=
  match o with
  | VNone => true
  | _ => false
  end.

(** [o == s] for a string [s]. *)
Definition eq_str (o : value) (s : string) : bool :=
  match o with
  | VStr s' => String.eqb s' s
  | _ => false
  end.

(** Truth value of an object, as tested by [if]. *)
Definition truth (o : value) : bool :=
  match o with
  | VNone => false
  | VBool b => b
  | VInt z => negb (z =? 0)%Z
  | VFloat q => negb (Qnum q =? 0)%Z
  | VStr s => negb (String.eqb s "")
  | VList l => negb (Nat.eqb (length l) 0)
  | VDict m => negb (Nat.eqb (size m) 0)
  end.

(** The float range.  A number whose magnitude reaches
    [2^1024 - 2^970], half a unit in the last place above the largest
    float, rounds to [2^1024] and cannot be a float: the conversion of
    such an [int], or a division of [int]s with such a quotient, raises
    [OverflowError]. *)
Definition FLOAT_LIMIT : Z := 2 ^ 1024 - 2 ^ 970.

Definition overflows (q : Q) : bool :=
  Qle_bool (inject_Z FLOAT_LIMIT) q || Qle_bool q (- inject_Z FLOAT_LIMIT).
Arguments overflows : simpl never.

(** [o / d] for a positive integer [d]; the quotient of two [int]s is
    rounded once, from the exact quotient. *)
Definition truediv (d : Z) (o : value) : result value :=
  match o with
  | VBool b => Ok (VFloat (inject_Z (Z.b2z b) / inject_Z d)%Q)
  | VInt z =>
      if overflows (inject_Z z / inject_Z d)
      then Raise OverflowError
      else Ok (VFloat (inject_Z z / inject_Z d)%Q)
  | VFloat q => Ok (VFloat (q / inject_Z d)%Q)
  | _ => Raise TypeError
  end.

(** [o in l] and [l.index(o)] for a list [l] of strings. *)
Definition in_list (o : value) (l : list string) : bool :=
  existsb (eq_str o) l.

Fixpoint index (o : value) (l : list string) : result nat :=
  match l with
  | [] => Raise ValueError
  | s :: rest => if eq_str o s then Ok O else S <$> index o rest
  end.

(** [o[:]]: a copy of a list; a string is a sequence of one-character
    strings; nothing else can be sliced. *)
Definition slice_all (o : value) : result (list value) :=
  match o with
  | VList l => Ok l
  | VStr s => Ok ((fun c => VStr (String c EmptyString)) <$> list_ascii_of_string s)
  | _ => Raise TypeError
  end.

(** [sorted(l)] on strings (code-point order). *)
Definition str_le (a b : string) : Prop := String.leb a b.
#[global] Instance str_le_dec a b : Decision (str_le a b) := _.
Definition sorted (l : list string) : list string := merge_sort str_le l.

(** ** Tensor operations (torch) *)

(** Conversion of one Python scalar to an element of a float tensor; an
    [int] goes through its conversion to a float.  At its call site the
    scalar stands in a row that starts with floats, where torch refuses a
    string with [TypeError]. *)
Definition to_float (o : value) : result Q :=
  match o with
  | VBool b => Ok (inject_Z (Z.b2z b))
  | VInt z => if overflows (inject_Z z) then Raise OverflowError else Ok (inject_Z z)
  | VFloat q => Ok q
  | VStr _ => Raise TypeError
  | VList _ => Raise ValueError
  | VNone => Raise RuntimeError
  | VDict _ => Raise RuntimeError
  end.

(** [torch.tensor(data).float()] where [data] is a list of rows.  At its
    call site every row holds floats (the flag entries), so an element
    that is not a number makes the nesting ragged and torch raises. *)
Definition torch_tensor_float (data : list (list value)) : result tensor2 :=
  sequence ((fun row => sequence (to_float <$> row)) <$> data).

(** [torch.zeros(r, c)]. *)
Definition zeros (r c : nat) : tensor2 := replicate r (replicate c 0%Q).

(** [t[i, j] = x]; both indices are in range wherever this is used. *)
Definition set_item (t : tensor2) (i j : nat) (x : Q) : tensor2 :=
  alter (fun row => <[j := x]> row) i t.

(** [torch.sum(t, dim=0, keepdim=True)] for a tensor of [c] columns: a
    list of no rows does not carry its column count, so it is passed. *)
Definition sum_dim0 (c : nat) (t : tensor2) : tensor2 :=
  [foldl (zip_with Qplus) (replicate c 0%Q) t].

(** [torch.cat(ts, dim=1)]: the tensors must agree on the number of rows. *)
Definition cat_dim1 (ts : list tensor2) : result tensor2 :=
  match ts with
  | [] => Raise RuntimeError
  | t :: rest =>
      if forallb (fun u => Nat.eqb (length u) (length t)) rest
      then Ok (foldl (zip_with app) t rest)
      else Raise RuntimeError
  end.

(** [t[0]]. *)
Definition row0 (t : tensor2) : result (list Q) :=
  match t with
  | r :: _ => Ok r
  | [] => Raise IndexError
  end.

(** [torch.stack(rows)]: needs at least one tensor, all of one size. *)
Definition torch_stack (rows : list (list Q)) : result tensor2 :=
  match rows with
  | [] => Raise RuntimeError
  | r :: rest =>
      if forallb (fun r' => Nat.eqb (length r') (length r)) rest
      then Ok rows
      else Raise RuntimeError
  end.

(** A tensor of any rank, for [torch.tensor] on the label list. *)
#[warnings="-register-all"]
Inductive tensor : Type :=
| Scalar (x : Q)
| Tensor (xs : list tensor).

Fixpoint shape (t : tensor) : list nat :=
  match t with
  | Scalar _ => []
  | Tensor xs => length xs :: match xs with
                              | [] => []
                              | x :: _ => shape x
                              end
  end.

Definition same_shape (ts : list tensor) : bool :=
  match ts with
  | [] => true
  | t :: rest => forallb (fun u => bool_decide (shape u = shape t)) rest
  end.

(** [torch.tensor(o)]: numbers become elements, lists become dimensions
    and must be regular.  Which exception torch gives for a string depends
    on what stands before it; only the failure is kept here. *)
Fixpoint torch_tensor (o : value) : result tensor :=
  match o with
  | VBool b => Ok (Scalar (inject_Z (Z.b2z b)))
  | VInt z => Ok (Scalar (inject_Z z))
  | VFloat q => Ok (Scalar q)
  | VList l =>
      ts ← (fix go (l : list value) : result (list tensor) :=
              match l with
              | [] => Ok []
              | x :: r => t ← torch_tensor x; ts ← go r; Ok (t :: ts)
              end) l;
      if same_shape ts then Ok (Tensor ts) else Raise ValueError
  | VStr _ => Raise ValueError
  | VNone => Raise RuntimeError
  | VDict _ => Raise RuntimeError
  end.

(** ** Vocabularies *)

(** The tables of [hordelib.horde.HordeLib] read by [train.py]: the keys
    of the two maps and the list of source-processing options. *)
Record HordeLib : Type := {
  SAMPLERS_MAP : list string;
  CONTROLNET_IMAGE_PREPROCESSOR_MAP : list string;
  SOURCE_IMAGE_PROCESSING_OPTIONS : list string
}.

Definition KNOWN_POST_PROCESSORS : list string :=
  [ "RealESRGAN_x4plus"; "RealESRGAN_x2plus"; "RealESRGAN_x4plus_anime_6B";
    "NMKD_Siax"; "4x_AnimeSharp"; "strip_background"; "GFPGAN"; "CodeFormers" ].

Definition KNOWN_SCHEDULERS : list string := sorted [ "simple"; "karras" ].

Definition KNOWN_MODEL_BASELINES : list string :=
  sorted [ "stable_diffusion_1"; "stable_diffusion_2"; "stable_diffusion_xl";
           "stable_cascade"; "flux_1" ].

Definition KNOWN_SAMPLERS (hl : HordeLib) : list string :=
  sorted (remove_dups (SAMPLERS_MAP hl)).

Definition KNOWN_CONTROL_TYPES (hl : HordeLib) : list string :=
  sorted (remove_dups (CONTROLNET_IMAGE_PREPROCESSOR_MAP hl) ++ [ "None" ]).

Definition KNOWN_SOURCE_PROCESSING (hl : HordeLib) : list string :=
  sorted (SOURCE_IMAGE_PROCESSING_OPTIONS hl ++ [ "txt2img" ]).

(** ** The feature encoder, [KudosDataset.payload_to_tensor] *)

Section Encoder.
Context (hl : HordeLib).
(** [float(s)] on a string: the parsed number, or [None] where Python
    raises [ValueError]. *)
Context (str_to_float : string → option Q).

(** The builtin [float(o)]. *)
Definition float_ (o : value) : result value :=
  match o with
  | VBool b => Ok (VFloat (inject_Z (Z.b2z b)))
  | VInt z =>
      if overflows (inject_Z z) then Raise OverflowError else Ok (VFloat (inject_Z z))
  | VFloat q => Ok (VFloat q)
  | VStr s => match str_to_float s with
              | Some q => Ok (VFloat q)
              | None => Raise ValueError
              end
  | _ => Raise TypeError
  end.

(** [p[k] / d] *)
Definition scaled (p : value) (k : string) (d : Z) : result value :=
  v ← getitem p k; truediv d v.

(** [p.get(k, 1.0) if p.get(k, 1.0) is not None else 1.0] *)
Definition strength (p : value) (k : string) : result value :=
  c ← dict_get p k (VFloat 1);
  if negb (is_None c) then dict_get p k (VFloat 1) else Ok (VFloat 1).

(** [float(p.get(k, d))] *)
Definition count (p : value) (k : string) (d : Q) : result value :=
  v ← dict_get p k (VFloat d); float_ v.

(** [1.0 if p.get(k, True) else 0.0] *)
Definition flag (p : value) (k : string) : result value :=
  v ← dict_get p k (VBool true);
  Ok (VFloat (if truth v then 1 else 0)).

(** [1.0 if p.get("post_processing_order", "facefixers_first") == "facefixers_first" else 0.0] *)
Definition order_flag (p : value) : result value :=
  v ← dict_get p "post_processing_order" (VStr "facefixers_first");
  Ok (VFloat (if eq_str v "facefixers_first" then 1 else 0)).

(** The entries of the list display appended to [data], in order. *)
Definition numeric_entries (p : value) : list (result value) :=
  [ scaled p "height" 1024;
    scaled p "width" 1024;
    scaled p "ddim_steps" 100;
    scaled p "cfg_scale" 30;
    strength p "denoising_strength";
    count p "clip_skip" 1;
    strength p "control_strength";
    strength p "facefixer_strength";
    count p "lora_count" 0;
    count p "ti_count" 0;
    count p "extra_source_images_count" 0;
    count p "extra_source_images_combined_size" 0;
    count p "source_image_size" 0;
    count p "source_mask_size" 0;
    flag p "hires_fix";
    flag p "hires_fix_denoising_strength";
    flag p "image_is_control";
    flag p "return_control_map";
    flag p "transparent";
    flag p "source_image";
    flag p "source_mask";
    flag p "tiling";
    order_flag p ].

(** The list display itself: its entries are evaluated left to right. *)
Definition numeric_row (p : value) : result (list value) :=
  sequence (numeric_entries p).

Fixpoint one_hot_loop (i : nat) (strings : list value) (unique_strings : list string)
    (one_hot : tensor2) : result tensor2 :=
  match strings with
  | [] => Ok one_hot
  | string :: rest =>
      j ← index string unique_strings;
      one_hot_loop (S i) rest unique_strings (set_item one_hot i j 1)
  end.

Definition one_hot_encode (strings : list value) (unique_strings : list string)
    : result tensor2 :=
  one_hot_loop 0 strings unique_strings
    (zeros (length strings) (length unique_strings)).

Definition one_hot_encode_combined (strings : list value) (unique_strings : list string)
    : result tensor2 :=
  one_hot ← one_hot_loop 0 strings unique_strings
               (zeros (length strings) (length unique_strings));
  Ok (sum_dim0 (length unique_strings) one_hot).

Definition payload_to_tensor (payload : value) : result tensor2 :=
  payload ← getitem payload "sdk_api_job_info";
  p ← getitem payload "payload";
  row ← numeric_row p;
  let data := [ row ] in
  c ← getitem payload "model_baseline";
  b ← (if in_list c KNOWN_MODEL_BASELINES
       then getitem payload "model_baseline"
       else Ok (VStr "stable_diffusion_xl"));
  let data_model_baseline := [ b ] in
  s ← getitem p "scheduler";
  let data_schedulers := [ s ] in
  c ← getitem p "sampler_name";
  s ← (if in_list c (KNOWN_SAMPLERS hl)
       then getitem p "sampler_name"
       else Ok (VStr "k_euler"));
  let data_samplers := [ s ] in
  c ← dict_get p "control_type" (VStr "None");
  t ← (if negb (is_None c)
       then dict_get p "control_type" (VStr "None")
       else Ok (VStr "None"));
  let data_control_types := [ t ] in
  s ← dict_get payload "source_processing" (VStr "txt2img");
  let data_source_processing_types := [ s ] in
  l ← dict_get p "post_processing" (VList []);
  data_post_processors ← slice_all l;
  _data_floats ← torch_tensor_float data;
  _data_model_baselines ← one_hot_encode data_model_baseline KNOWN_MODEL_BASELINES;
  _data_samplers ← one_hot_encode data_samplers (KNOWN_SAMPLERS hl);
  _data_schedulers ← one_hot_encode data_schedulers KNOWN_SCHEDULERS;
  _data_control_types ← one_hot_encode data_control_types (KNOWN_CONTROL_TYPES hl);
  _data_source_processing_types ←
    one_hot_encode data_source_processing_types (KNOWN_SOURCE_PROCESSING hl);
  _data_post_processors ←
    one_hot_encode_combined data_post_processors KNOWN_POST_PROCESSORS;
  cat_dim1
    [ _data_floats;
      _data_model_baselines;
      _data_samplers;
      _data_schedulers;
      _data_control_types;
      _data_source_processing_types;
      _data_post_processors ].

End Encoder.

(** ** [PAYLOAD_EXAMPLE] *)

Definition PAYLOAD_EXAMPLE_payload : gmap string value :=
  list_to_map
    [ ("sampler_name", VStr "k_euler");
      ("cfg_scale", VFloat 24);
      ("denoising_strength", VNone);
      ("seed", VStr "2066405361");
      ("height", VInt 1024);
      ("width", VInt 768);
      ("seed_variation", VNone);
      ("post_processing", VList []);
      ("post_processing_order", VStr "facefixers_first");
      ("tiling", VBool false);
      ("hires_fix", VBool false);
      ("hires_fix_denoising_strength", VNone);
      ("clip_skip", VInt 1);
      ("control_type", VNone);
      ("image_is_control", VBool false);
      ("return_control_map", VBool false);
      ("facefixer_strength", VNone);
      ("loras", VNone);
      ("tis", VNone);
      ("extra_texts", VNone);
      ("workflow", VNone);
      ("transparent", VBool false);
      ("use_nsfw_censor", VBool false);
      ("ddim_steps", VInt 40);
      ("n_iter", VInt 1);
      ("scheduler", VStr "karras");
      ("lora_count", VInt 0);
      ("ti_count", VInt 0) ].

Definition PAYLOAD_EXAMPLE_job_info : gmap string value :=
  list_to_map
    [ ("id_", VStr "7ba3b75b-6926-4e78-ad42-6763fa15c262");
      ("ids", VList [ VStr "7ba3b75b-6926-4e78-ad42-6763fa15c262" ]);
      ("payload", VDict PAYLOAD_EXAMPLE_payload);
      ("model", VStr "Dreamshaper");
      ("source_processing", VStr "img2img");
      ("model_baseline", VStr "stable_diffusion_1");
      ("extra_source_images_count", VInt 0);
      ("extra_source_images_combined_size", VInt 0);
      ("source_image_size", VInt 0);
      ("source_mask_size", VInt 0) ].

Definition PAYLOAD_EXAMPLE : value :=
  VDict (list_to_map
    [ ("sdk_api_job_info", VDict PAYLOAD_EXAMPLE_job_info);
      ("state", VStr "ok");
      ("censored", VBool false);
      ("time_popped", VFloat (17298378278703332 # 10000000));
      ("time_submitted", VFloat (17298378353562803 # 10000000));
      ("time_to_generate", VFloat (4450331687927246 # 1000000000000000));
      ("time_to_download_aux_models", VNone) ]).

(** ** The dataset adapter, [KudosDataset] *)

(** [for x in o]: the elements of a list, the characters of a string, the
    keys of a dict.  Python walks the keys in insertion order, which a
    [gmap] does not keep; the loop that uses [iter] raises at the first key,
    whichever it is. *)
Definition iter (o : value) : result (list value) :=
  match o with
  | VList l => Ok l
  | VStr s => Ok ((fun c => VStr (String c EmptyString)) <$> list_ascii_of_string s)
  | VDict m => Ok (VStr <$> (map_to_list m).*1)
  | _ => Raise TypeError
  end.

Record KudosDataset : Type := {
  data : list (list Q);
  labels : tensor;
  mixed_data : tensor2
}.

Section Dataset.
Context (hl : HordeLib) (str_to_float : string → option Q).

(** The body of [for payload in payload_list], with [self.data] and
    [self.labels] (still a Python list) as the loop state. *)
Fixpoint load_loop (payload_list : list value) (data : list (list Q))
    (labels : list value) : result (list (list Q) * list value) :=
  match payload_list with
  | [] => Ok (data, labels)
  | payload :: rest =>
      t ← getitem payload "time_to_generate";
      if is_None t then load_loop rest data labels
      else
        x ← payload_to_tensor hl str_to_float payload;
        r ← row0 x;
        t ← getitem payload "time_to_generate";
        load_loop rest (data ++ [ r ]) (labels ++ [ t ])
  end.

(** [KudosDataset.__init__], from the parsed content of the file on. *)
Definition KudosDataset_init (payload_list : value) : result KudosDataset :=
  l ← iter payload_list;
  '(data, labels) ← load_loop l [] [];
  labels ← torch_tensor (VList labels);
  mixed_data ← torch_stack data;
  Ok {| data := data; labels := labels; mixed_data := mixed_data |}.

End Dataset.

(** [KudosDataset.__len__] *)
Definition KudosDataset_len (self : KudosDataset) : nat := length (data self).

(** [t[idx]] on a tensor of rank at least one, for [idx >= 0]. *)
Definition tensor_getitem (t : tensor) (idx : nat) : result tensor :=
  match t with
  | Scalar _ => Raise IndexError
  | Tensor xs => match xs !! idx with
                 | Some x => Ok x
                 | None => Raise IndexError
                 end
  end.

(** [KudosDataset.__getitem__], for [idx >= 0]. *)
Definition KudosDataset_getitem (self : KudosDataset) (idx : nat)
    : result (list Q * tensor) :=
  x ← match mixed_data self !! idx with
      | Some r => Ok r
      | None => Raise IndexError
      end;
  y ← tensor_getitem (labels self) idx;
  Ok (x, y).

(** ** The architecture builder, [create_sequential_model] *)

(** [nn.Linear(in_features, out_features, bias=True)], [nn.ReLU()] and
    [nn.Dropout(p)]. *)
Inductive layer : Type :=
| Linear (in_features out_features : nat) (bias : bool)
| ReLU
| Dropout (p : Q).

(** Within one trial Optuna answers a parameter name with one value, so
    the trial is read as a function of the name and the bounds. *)
Record Trial : Type := {
  suggest_float : string → Q → Q → Q
}.

Definition create_sequential_model (trial : Trial) (layer_sizes : list nat)
    (input_size output_size : nat) : list layer :=
  let layer_sizes := [ input_size ] ++ layer_sizes ++ [ output_size ] in
  foldl
    (fun layers i =>
       let layers :=
         layers ++ [ Linear (nth i layer_sizes O) (nth (i + 1) layer_sizes O) true ] in
       if (i <? length layer_sizes - 2)%nat then
         let layers := layers ++ [ ReLU ] in
         if (0 <? i)%nat then
           let drop := suggest_float trial ("dropout_l" +:+ pretty i) (5 # 100) (2 # 10) in
           layers ++ [ Dropout drop ]
         else layers
       else layers)
    [] (seq 0 (length layer_sizes - 1)).

(** ** Rounding, [round(x, 2)] *)

(** Round to the nearest integer, ties to the even one. *)
Definition round_half_even (q : Q) : Z :=
  let f := Qfloor q in
  match (q - inject_Z f ?= 1 # 2)%Q with
  | Lt => f
  | Gt => (f + 1)%Z
  | Eq => if Z.even f then f else (f + 1)%Z
  end.

Definition round2 (q : Q) : Q := round_half_even (q * 100)%Q # 100.

(** ** The inference helper, [payload_to_time] *)

(** [t.squeeze()] on a tensor of shape (1, N) with N > 1. *)
Definition squeeze (t : tensor2) : list Q := concat t.

(** [t.item()]: the tensor must hold exactly one element. *)
Definition item (t : list Q) : result Q :=
  match t with
  | [ x ] => Ok x
  | _ => Raise RuntimeError
  end.

Section Inference.
Context (hl : HordeLib) (str_to_float : string → option Q).
(** The forward pass of the unpickled network. *)
Context (model : list Q → result (list Q)).

Definition payload_to_time (payload : value) : result Q :=
  t ← payload_to_tensor hl str_to_float payload;
  let inputs := squeeze t in
  output ← model inputs;
  x ← item output;
  Ok (round2 x).

End Inference.

(** ** The search objective, [objective] *)

(** [input_size = len(KudosDataset.payload_to_tensor(PAYLOAD_EXAMPLE)[0])] *)
Definition objective_input_size (hl : HordeLib) (str_to_float : string → option Q)
    : result nat :=
  t ← payload_to_tensor hl str_to_float PAYLOAD_EXAMPLE;
  r ← row0 t;
  Ok (length r).

Section Objective.
(** The state a trial mutates: weights, optimiser state, random generator. *)
Context {State : Type}.
(** One pass over [train_loader] (the inner training loop). *)
Context (train_epoch : State → State).
(** One pass over [validate_loader]: the criterion on each batch in
    turn; the shuffling loader advances the random generator. *)
Context (validate_epoch : State → list Q * State).

(** The epoch loop; [total_loss] is [None] before the first epoch. *)
Fixpoint epoch_loop (num_epochs : nat) (st : State) (total_loss : option Q)
    : result (option Q * State) :=
  match num_epochs with
  | O => Ok (total_loss, st)
  | S n =>
      let st := train_epoch st in
      let '(losses, st) := validate_epoch st in
      let total_loss := foldl Qplus 0%Q losses in
      total_loss ←
        (if Nat.eqb (length losses) 0 then Raise ZeroDivisionError
         else Ok (total_loss / inject_Z (Z.of_nat (length losses)))%Q);
      let total_loss := round2 total_loss in
      epoch_loop n st (Some total_loss)
  end.

(** The value [objective] returns, from the epoch loop on. *)
Definition objective_score (num_epochs : nat) (st : State) : result (option Q) :=
  fst <$> epoch_loop num_epochs st None.

End Objective.

(** ** Vocabulary of the statements *)

(** The job-info object and the payload object of a request record. *)
Definition job_info (payload : value) : option (gmap string value) :=
  match payload with
  | VDict m => match m !! "sdk_api_job_info" with
               | Some (VDict info) => Some info
               | _ => None
               end
  | _ => None
  end.

Definition job_payload (payload : value) : option (gmap string value) :=
  info ← job_info payload;
  match info !! "payload" with
  | Some (VDict p) => Some p
  | _ => None
  end.

(** A number the encoder can turn into a float: a boolean, a float, or an
    integer within the float range. *)
Definition is_number (o : value) : bool :=
  match o with
  | VBool _ | VFloat _ => true
  | VInt z => negb (overflows (inject_Z z))
  | _ => false
  end.

(** A field that must hold a number. *)
Definition number_field (o : option value) : bool :=
  match o with
  | Some v => is_number v
  | None => false
  end.

(** A field that may be absent, and holds a number when present. *)
Definition opt_number_field (o : option value) : bool :=
  match o with
  | Some v => is_number v
  | None => true
  end.

(** A field that may be absent or null, and holds a number otherwise. *)
Definition opt_strength_field (o : option value) : bool :=
  match o with
  | Some VNone | None => true
  | Some v => is_number v
  end.

(** The records on which the encoder is shown to be total: the required
    fields are present, the numeric fields that are present hold numbers,
    and the categorical values that have no fallback are in vocabulary. *)
Definition well_formed (hl : HordeLib) (payload : value) : bool :=
  match job_info payload, job_payload payload with
  | Some info, Some p =>
      number_field (p !! "height")
      && number_field (p !! "width")
      && number_field (p !! "ddim_steps")
      && number_field (p !! "cfg_scale")
      && opt_strength_field (p !! "denoising_strength")
      && opt_number_field (p !! "clip_skip")
      && opt_strength_field (p !! "control_strength")
      && opt_strength_field (p !! "facefixer_strength")
      && opt_number_field (p !! "lora_count")
      && opt_number_field (p !! "ti_count")
      && opt_number_field (p !! "extra_source_images_count")
      && opt_number_field (p !! "extra_source_images_combined_size")
      && opt_number_field (p !! "source_image_size")
      && opt_number_field (p !! "source_mask_size")
      && bool_decide (is_Some (info !! "model_baseline"))
      && match p !! "scheduler" with
         | Some v => in_list v KNOWN_SCHEDULERS
         | None => false
         end
      && bool_decide (is_Some (p !! "sampler_name"))
      && match p !! "control_type" with
         | None | Some VNone => true
         | Some v => in_list v (KNOWN_CONTROL_TYPES hl)
         end
      && match info !! "source_processing" with
         | None => true
         | Some v => in_list v (KNOWN_SOURCE_PROCESSING hl)
         end
      && match p !! "post_processing" with
         | None => true
         | Some (VList l) => forallb (fun v => in_list v KNOWN_POST_PROCESSORS) l
         | Some _ => false
         end
  | _, _ => false
  end.

(** Number of entries of the list display of [payload_to_tensor]. *)
Definition NUMERIC_FIELDS : nat := 23.

Definition feature_length (hl : HordeLib) : nat :=
  NUMERIC_FIELDS
  + length KNOWN_MODEL_BASELINES
  + length (KNOWN_SAMPLERS hl)
  + length KNOWN_SCHEDULERS
  + length (KNOWN_CONTROL_TYPES hl)
  + length (KNOWN_SOURCE_PROCESSING hl)
  + length KNOWN_POST_PROCESSORS.

(** The row with 1.0 at position [j] and 0.0 elsewhere. *)
Definition one_hot_row (j n : nat) : list Q := <[j := 1%Q]> (replicate n 0%Q).

(** The flag entries of the numeric block, from position 14 on. *)
Definition BOOLEAN_FLAGS : list string :=
  [ "hires_fix"; "hires_fix_denoising_strength"; "image_is_control";
    "return_control_map"; "transparent"; "source_image"; "source_mask"; "tiling" ].

(** What a flag field contributes: 1.0 when absent, its truth value when
    present. *)
Definition flag_value (o : option value) : Q :=
  match o with
  | None => 1
  | Some v => if truth v then 1 else 0
  end.

(** The optional numeric fields with their position in the vector and the
    value that stands in for an absent field. *)
Definition OPTIONAL_DEFAULTS : list (nat * string * Q) :=
  [ (4%nat, "denoising_strength", 1%Q); (5%nat, "clip_skip", 1%Q);
    (6%nat, "control_strength", 1%Q); (7%nat, "facefixer_strength", 1%Q);
    (8%nat, "lora_count", 0%Q); (9%nat, "ti_count", 0%Q);
    (10%nat, "extra_source_images_count", 0%Q);
    (11%nat, "extra_source_images_combined_size", 0%Q);
    (12%nat, "source_image_size", 0%Q); (13%nat, "source_mask_size", 0%Q);
    (14%nat, "hires_fix", 1%Q); (15%nat, "hires_fix_denoising_strength", 1%Q);
    (16%nat, "image_is_control", 1%Q); (17%nat, "return_control_map", 1%Q);
    (18%nat, "transparent", 1%Q); (19%nat, "source_image", 1%Q);
    (20%nat, "source_mask", 1%Q); (21%nat, "tiling", 1%Q);
    (22%nat, "post_processing_order", 1%Q) ].

(** The label of a record of a data file, and whether the loader keeps it. *)
Definition label (payload : value) : option value :=
  match payload with
  | VDict m => m !! "time_to_generate"
  | _ => None
  end.

Definition labelled (payload : value) : bool :=
  match label payload with
  | Some v => negb (is_None v)
  | None => false
  end.


(** The records of a data file that the loader keeps. *)
Definition kept (payload_list : list value) : list value :=
  List.filter labelled payload_list.

(** The network the builder is specified to produce, by recursion on the
    hidden widths: a linear layer and a nonlinearity per hidden width, a
    dropout after each hidden layer but the first, and a closing linear
    layer. *)
Fixpoint feed_forward (trial : Trial) (i : nat) (width : nat) (hidden : list nat)
    (output_size : nat) : list layer :=
  match hidden with
  | [] => [ Linear width output_size true ]
  | h :: rest =>
      Linear width h true :: ReLU ::
      (if (0 <? i)%nat
       then [ Dropout (suggest_float trial ("dropout_l" +:+ pretty i) (5 # 100) (2 # 10)) ]
       else []) ++ feed_forward trial (S i) h rest output_size
  end.

Definition is_linear (l : layer) : bool :=
  match l with Linear _ _ _ => true | _ => false end.
Definition is_relu (l : layer) : bool :=
  match l with ReLU => true | _ => false end.
Definition is_dropout (l : layer) : bool :=
  match l with Dropout _ => true | _ => false end.

(** The consecutive pairs of a list of widths. *)
Fixpoint width_pairs (widths : list nat) : list (nat * nat) :=
  match widths with
  | a :: (b :: _) as rest => (a, b) :: width_pairs rest
  | _ => []
  end.

(** The layers the loop body of the builder appends at index [i]. *)
Definition block (trial : Trial) (layer_sizes : list nat) (i : nat) : list layer :=
  Linear (nth i layer_sizes O) (nth (i + 1) layer_sizes O) true ::
  (if (i <? length layer_sizes - 2)%nat
   then ReLU ::
        (if (0 <? i)%nat
         then [ Dropout (suggest_float trial ("dropout_l" +:+ pretty i) (5 # 100) (2 # 10)) ]
         else [])
   else []).

(** Mean of the batch losses of one validation pass. *)
Definition mean_loss (losses : list Q) : Q :=
  (foldl Qplus 0 losses / inject_Z (Z.of_nat (length losses)))%Q.

(** The trial state at the end of [k] epochs. *)
Definition after_epochs {State : Type} (train_epoch : State → State)
    (validate_epoch : State → list Q * State) (k : nat) (st : State) : State :=
  Nat.iter k (fun s => snd (validate_epoch (train_epoch s))) st.

(** Number of entries of [js] equal to [k]. *)
Definition occurrences (k : nat) (js : list nat) : nat :=
  length (filter (λ j, j = k) js).

(** The intermediate results of a successful run of the encoder: the two
    nested objects, the numeric entries and their tensor elements, the
    position of each categorical value in its vocabulary. *)
Inductive encoding (hl : HordeLib) (str_to_float : string → option Q)
    (payload : value) : tensor2 → Prop :=
| encoding_intro (info p : gmap string value) (row : list value) (qs : list Q)
    (baseline scheduler sampler : value) (post : list value)
    (jb js jsch jct jsp : nat) (jpp : list nat) :
    job_info payload = Some info →
    job_payload payload = Some p →
    numeric_row str_to_float (VDict p) = Ok row →
    Forall2 (λ v q, to_float v = Ok q) row qs →
    info !! "model_baseline" = Some baseline →
    index (if in_list baseline KNOWN_MODEL_BASELINES then baseline
           else VStr "stable_diffusion_xl") KNOWN_MODEL_BASELINES = Ok jb →
    p !! "scheduler" = Some scheduler →
    index scheduler KNOWN_SCHEDULERS = Ok jsch →
    p !! "sampler_name" = Some sampler →
    index (if in_list sampler (KNOWN_SAMPLERS hl) then sampler
           else VStr "k_euler") (KNOWN_SAMPLERS hl) = Ok js →
    index (if negb (is_None (default (VStr "None") (p !! "control_type")))
           then default (VStr "None") (p !! "control_type")
           else VStr "None") (KNOWN_CONTROL_TYPES hl) = Ok jct →
    index (default (VStr "txt2img") (info !! "source_processing"))
          (KNOWN_SOURCE_PROCESSING hl) = Ok jsp →
    slice_all (default (VList []) (p !! "post_processing")) = Ok post →
    Forall2 (λ s j, index s KNOWN_POST_PROCESSORS = Ok j) post jpp →
    encoding hl str_to_float payload
      [ qs
        ++ one_hot_row jb (length KNOWN_MODEL_BASELINES)
        ++ one_hot_row js (length (KNOWN_SAMPLERS hl))
        ++ one_hot_row jsch (length KNOWN_SCHEDULERS)
        ++ one_hot_row jct (length (KNOWN_CONTROL_TYPES hl))
        ++ one_hot_row jsp (length (KNOWN_SOURCE_PROCESSING hl))
        ++ concat (sum_dim0 (length KNOWN_POST_PROCESSORS)
             ((λ j, one_hot_row j (length KNOWN_POST_PROCESSORS)) <$> jpp)) ].

(** ** What the encoder reads of a record *)

(** The keys of the payload object and of the job-info object that the
    encoder reads. *)
Definition PAYLOAD_KEYS : list string :=
  [ "height"; "width"; "ddim_steps"; "cfg_scale"; "denoising_strength";
    "clip_skip"; "control_strength"; "facefixer_strength"; "lora_count";
    "ti_count"; "extra_source_images_count"; "extra_source_images_combined_size";
    "source_image_size"; "source_mask_size"; "hires_fix";
    "hires_fix_denoising_strength"; "image_is_control"; "return_control_map";
    "transparent"; "source_image"; "source_mask"; "tiling";
    "post_processing_order"; "scheduler"; "sampler_name"; "control_type";
    "post_processing" ].

Definition INFO_KEYS : list string := [ "model_baseline"; "source_processing" ].

(** The keys whose null value the encoder tests for. *)
Definition NULLABLE_KEYS : list string :=
  [ "denoising_strength"; "control_strength"; "facefixer_strength"; "control_type" ].

(** What the encoder can tell of a field: a null in a nullable field is
    read like the absence of the field. *)
Definition null_view (o : option value) : option value :=
  match o with
  | Some VNone => None
  | _ => o
  end.

Definition field_view (k : string) (o : option value) : option value :=
  if existsb (String.eqb k) NULLABLE_KEYS then null_view o else o.

(** ** The records the encoder accepts *)

(** A field that [float] is applied to: absent, a number within the float
    range, or a string that [float] parses. *)
Definition count_field (str_to_float : string → option Q) (o : option value) : bool :=
  match o with
  | None => true
  | Some (VStr s) => match str_to_float s with Some _ => true | None => false end
  | Some v => is_number v
  end.

(** A field that is divided by [d]: a boolean, a float, or an integer
    whose quotient by [d] is within the float range. *)
Definition scaled_field (d : Z) (o : option value) : bool :=
  match o with
  | Some (VInt z) => negb (overflows (inject_Z z / inject_Z d))
  | Some v => is_number v
  | None => false
  end.

(** The records the encoder returns a vector for. *)
Definition encodable (hl : HordeLib) (str_to_float : string → option Q)
    (payload : value) : bool :=
  match job_info payload, job_payload payload with
  | Some info, Some p =>
      scaled_field 1024 (p !! "height")
      && scaled_field 1024 (p !! "width")
      && scaled_field 100 (p !! "ddim_steps")
      && scaled_field 30 (p !! "cfg_scale")
      && opt_strength_field (p !! "denoising_strength")
      && count_field str_to_float (p !! "clip_skip")
      && opt_strength_field (p !! "control_strength")
      && opt_strength_field (p !! "facefixer_strength")
      && count_field str_to_float (p !! "lora_count")
      && count_field str_to_float (p !! "ti_count")
      && count_field str_to_float (p !! "extra_source_images_count")
      && count_field str_to_float (p !! "extra_source_images_combined_size")
      && count_field str_to_float (p !! "source_image_size")
      && count_field str_to_float (p !! "source_mask_size")
      && bool_decide (is_Some (info !! "model_baseline"))
      && match p !! "scheduler" with
         | Some v => in_list v KNOWN_SCHEDULERS
         | None => false
         end
      && match p !! "sampler_name" with
         | Some v => in_list v (KNOWN_SAMPLERS hl)
                     || in_list (VStr "k_euler") (KNOWN_SAMPLERS hl)
         | None => false
         end
      && match p !! "control_type" with
         | None | Some VNone => true
         | Some v => in_list v (KNOWN_CONTROL_TYPES hl)
         end
      && match info !! "source_processing" with
         | None => true
         | Some v => in_list v (KNOWN_SOURCE_PROCESSING hl)
         end
      && match slice_all (default (VList []) (p !! "post_processing")) with
         | Ok l => forallb (fun v => in_list v KNOWN_POST_PROCESSORS) l
         | Raise _ => false
         end
  | _, _ => false
  end.

(** ** The layout of a feature vector *)

(** The fields read by subscript and divided by a constant, in the order
    of their entries (positions 0 to 3). *)
Definition SCALED_FIELDS : list (string * Z) :=
  [ ("height", 1024%Z); ("width", 1024%Z); ("ddim_steps", 100%Z); ("cfg_scale", 30%Z) ].

(** The category each single-valued categorical field is encoded as. *)
Definition baseline_category (info : gmap string value) : option value :=
  b ← info !! "model_baseline";
  Some (if in_list b KNOWN_MODEL_BASELINES then b else VStr "stable_diffusion_xl").

Definition sampler_category (hl : HordeLib) (p : gmap string value) : option value :=
  s ← p !! "sampler_name";
  Some (if in_list s (KNOWN_SAMPLERS hl) then s else VStr "k_euler").

Definition control_category (p : gmap string value) : value :=
  match null_view (p !! "control_type") with
  | None => VStr "None"
  | Some v => v
  end.

Definition source_category (info : gmap string value) : value :=
  default (VStr "txt2img") (info !! "source_processing").

(** [block] is the one-hot row of category [o] over [vocab]: 1.0 at the
    first position of the category in the vocabulary, 0.0 at every other
    position. *)
Definition one_hot_of (vocab : list string) (o : option value) (block : list Q) : Prop :=
  ∃ j s, o = Some (VStr s) ∧ vocab !! j = Some s
    ∧ (∀ j', (j' < j)%nat → vocab !! j' ≠ Some s)
    ∧ length block = length vocab
    ∧ ∀ k, (k < length vocab)%nat →
           block !! k = Some (if decide (j = k) then 1%Q else 0%Q).

(** ** The network of a trial *)

(** Search bounds of the topology. *)
Definition MAX_HIDDEN_LAYERS : nat := 6.
Definition MIN_NODES_IN_LAYER : nat := 4.
Definition MAX_NODES_IN_LAYER : nat := 128.

Section ObjectiveModel.
Context (hl : HordeLib) (str_to_float : string → option Q) (trial : Trial).
(** [trial.suggest_int(name, low, high, log=True)], read like
    [suggest_float] as a function of the name and the bounds. *)
Context (suggest_int : string → nat → nat → nat).

(** The hidden widths [objective] samples. *)
Definition objective_layers : list nat :=
  let num_hidden_layers := suggest_int "hidden_layers" 1 MAX_HIDDEN_LAYERS in
  foldl
    (fun layers i =>
       layers ++ [ suggest_int ("hidden_layer_" +:+ pretty i +:+ "_size")
                     MIN_NODES_IN_LAYER MAX_NODES_IN_LAYER ])
    [] (seq 0 num_hidden_layers).

(** The network [objective] creates, from [input_size] to the call of
    [create_sequential_model]. *)
Definition objective_model : result (list layer) :=
  input_size ← objective_input_size hl str_to_float;
  let layers := objective_layers in
  let output_size := 1%nat in
  Ok (create_sequential_model trial layers input_size output_size).

End ObjectiveModel.

(** The (input, output) widths of the linear layers of a network, in order. *)
Definition linear_dims (model : list layer) : list (nat * nat) :=
  omap (fun l => match l with
                 | Linear a b _ => Some (a, b)
                 | _ => None
                 end) model.

(** ** The dropout parameters of a network *)

(** The name of the dropout parameter of the layer at index [i], and the
    dropout layer the trial's answer gives. *)
Definition dropout_name (i : nat) : string := "dropout_l" +:+ pretty i.

Definition dropout_layer (trial : Trial) (i : nat) : layer :=
  Dropout (suggest_float trial (dropout_name i) (5 # 100) (2 # 10)).

(** ** The walk through the validation data, [test_one_by_one] *)

(** [round(x, 1)] on a float. *)
Definition round1 (q : Q) : Q := round_half_even (q * 10)%Q # 10.

(** [round(o, 2)]: a float is rounded to two decimals, an integer (a
    boolean is one) is returned as the integer it is; no other JSON value
    has [__round__]. *)
Definition round_ (o : value) : result value :=
  match o with
  | VFloat q => Ok (VFloat (round2 q))
  | VInt z => Ok (VInt z)
  | VBool b => Ok (VInt (Z.b2z b))
  | _ => Raise TypeError
  end.

(** A number as an integer operand, and as a float operand: where an
    integer meets a float in arithmetic it is converted to a float first,
    which fails beyond the float range. *)
Definition as_int (o : value) : option Z :=
  match o with
  | VInt z => Some z
  | VBool b => Some (Z.b2z b)
  | _ => None
  end.

Definition as_float (o : value) : result Q :=
  match o with
  | VFloat q => Ok q
  | VInt z => if overflows (inject_Z z) then Raise OverflowError else Ok (inject_Z z)
  | VBool b => Ok (inject_Z (Z.b2z b))
  | _ => Raise TypeError
  end.

(** [x += o] for a number [x]: two integers add exactly, a float on either
    side makes the sum a float. *)
Definition iadd (x o : value) : result value :=
  match as_int x, as_int o with
  | Some a, Some b => Ok (VInt (a + b))
  | _, _ => a ← as_float x; b ← as_float o; Ok (VFloat (a + b)%Q)
  end.

(** [abs(x)] and [max(a, b)]; [max] keeps its first argument unless the
    second is greater. *)
Definition abs_ (x : Q) : Q :=
  match (x ?= 0)%Q with
  | Lt => (- x)%Q
  | _ => x
  end.

Definition max_ (a b : Q) : Q :=
  match (a ?= b)%Q with
  | Lt => b
  | _ => a
  end.

(** The accuracy of one prediction, in percent, from the values of the
    two durations. *)
Definition percentage_accuracy (actual predicted : Q) : result Q :=
  let diff := abs_ (actual - predicted) in
  let max_val := max_ actual predicted in
  if Qeq_bool max_val 0 then Raise ZeroDivisionError
  else Ok ((1 - diff / max_val) * 100)%Q.

(** What the walk prints, line by line; the figures are kept as numbers. *)
Inductive output : Type :=
| PrintData (data : value)
| PrintPrediction (predicted : Q) (actual : value) (percentage : Q)
| PrintCalculationTime
| PrintJobTime (seconds : value)
| PrintAccuracy (avg_perc : Q).

Section Walk.
Context (hl : HordeLib) (str_to_float : string → option Q).
(** The forward pass of the network [load_model] returns. *)
Context (model : list Q → result (list Q)).

(** The loop over the records; the clock readings are left out.
    [total_job_time] starts as the integer 0.  [actual] is an integer or a
    float; it meets the float [predicted] in the subtraction, where an
    integer is converted. *)
Fixpoint test_loop (dataset : list value) (perc : list Q) (total_job_time : value)
    (out : list output) : result (list Q * value * list output) :=
  match dataset with
  | [] => Ok (perc, total_job_time, out)
  | data :: dataset =>
      predicted ← payload_to_time hl str_to_float model data;
      t ← getitem data "time";
      actual ← round_ t;
      t ← getitem data "time";
      total_job_time ← iadd total_job_time t;
      a ← as_float actual;
      percentage ← percentage_accuracy a predicted;
      let perc := perc ++ [ percentage ] in
      let out :=
        out ++ (match (percentage ?= 60)%Q with
                | Lt => [ PrintData data ]
                | _ => []
                end)
            ++ [ PrintPrediction predicted actual (round1 percentage) ] in
      test_loop dataset perc total_job_time out
  end.

(** [test_one_by_one] on the records read from the validation file, one
    per line.  The result is what a run that ends without exception has
    printed. *)
Definition test_one_by_one (dataset : list value) : result (list output) :=
  '(perc, total_job_time, out) ← test_loop dataset [] (VInt 0) [];
  let len := Z.of_nat (length perc) in
  avg_perc ←
    (if Nat.eqb (length perc) 0 then Raise ZeroDivisionError
     else Ok (round1 (foldl Qplus 0 perc / inject_Z len))%Q);
  mean ← truediv len total_job_time;
  seconds ← round_ mean;
  Ok (out ++ [ PrintCalculationTime; PrintJobTime seconds; PrintAccuracy avg_perc ]).

End Walk.

(** The time of a record of the validation file, a float under the key
    [time]. *)
Definition job_time (data : value) : option Q :=
  match data with
  | VDict m =>
      match m !! "time" with
      | Some (VFloat q) => Some q
      | _ => None
      end
  | _ => None
  end.

(** The prediction lines of a print-out: predicted, actual, percentage. *)
Definition predictions (out : list output) : list (Q * value * Q) :=
  omap (fun o => match o with
                 | PrintPrediction p a c => Some (p, a, c)
                 | _ => None
                 end) out.

(** A record the walk can score: the encoder accepts it and its time is a
    float above half a hundredth. *)
Definition scorable (hl : HordeLib) (str_to_float : string → option Q)
    (data : value) : Prop :=
  encodable hl str_to_float data = true
  ∧ ∃ t, job_time data = Some t ∧ (1 # 200 < t)%Q.

(** The running total is the integer 0 before the first record and a
    float from then on. *)
Definition float_total (total : value) : Prop :=
  total = VInt 0 ∨ ∃ q, total = VFloat q.

(** ** The batch sizes offered to a trial *)

Definition MIN_DATA_BATCH_SIZE : Z := 32.
Definition MAX_DATA_BATCH_SIZE : Z := 512.

Section BatchSizes.
(** [math.log2] on a positive integer, with the rounding of the float it
    returns. *)
Context (log2 : Z → Q).

(** [math.log2(x)]: [ValueError] outside the positive numbers. *)
Definition math_log2 (x : Z) : result Q :=
  if (0 <? x)%Z then Ok (log2 x) else Raise ValueError.

(** The list comprehension over [range(batch_start, batch_end + 1)]; the
    exponents are not negative, as the bounds are integers from 1 on. *)
Definition batch_sizes (lo hi : Z) : result (list Z) :=
  l ← math_log2 lo;
  let batch_start := Qceiling l in
  l ← math_log2 hi;
  let batch_end := Qfloor l in
  Ok ((fun i => 2 ^ i)%Z <$> seqZ batch_start (batch_end + 1 - batch_start)).

End BatchSizes.

(** ** Concrete tables and records *)

Module Examples.

(** A cut of the tables of [HordeLib]. *)
Definition hordelib : HordeLib := {|
  SAMPLERS_MAP := [ "k_euler"; "k_euler_a"; "k_heun"; "k_dpm_2"; "k_lms";
                    "k_dpmpp_2m"; "ddim"; "lcm" ];
  CONTROLNET_IMAGE_PREPROCESSOR_MAP := [ "canny"; "hed"; "depth"; "normal";
                                         "openpose"; "scribble" ];
  SOURCE_IMAGE_PROCESSING_OPTIONS := [ "img2img"; "inpainting"; "outpainting"; "remix" ]
|}.

(** [float] on strings, cut down to plain integer literals. *)
Definition str_to_float (s : string) : option Q :=
  match NilZero.int_of_string s with
  | Some i => Some (inject_Z (Z.of_int i))
  | None => None
  end.

(** A request record from the fields of its job-info object and of its
    payload object. *)
Definition request (info p : list (string * value)) : value :=
  VDict (list_to_map
    [ ("sdk_api_job_info",
       VDict (list_to_map (("payload", VDict (list_to_map p)) :: info))) ]).

(** The fields the encoder reads by subscript, and nothing else. *)
Definition required_fields : list (string * value) :=
  [ ("height", VInt 512); ("width", VInt 768); ("ddim_steps", VInt 30);
    ("cfg_scale", VFloat (75 # 10)); ("sampler_name", VStr "k_euler_a");
    ("scheduler", VStr "karras") ].

Definition minimal_record : value :=
  request [ ("model_baseline", VStr "stable_diffusion_xl") ] required_fields.

Definition record_without_height : value :=
  request [ ("model_baseline", VStr "stable_diffusion_xl") ]
    [ ("width", VInt 768); ("ddim_steps", VInt 30);
      ("cfg_scale", VFloat (75 # 10)); ("sampler_name", VStr "k_euler_a");
      ("scheduler", VStr "karras") ].

(** Records that carry one categorical value outside its vocabulary. *)
Definition record_with (info p : list (string * value)) : value :=
  request (info ++ [ ("model_baseline", VStr "stable_diffusion_xl") ])
          (p ++ required_fields).

Definition unknown_scheduler : value :=
  record_with [] [ ("scheduler", VStr "exponential") ].
Definition unknown_control_type : value :=
  record_with [] [ ("control_type", VStr "lineart") ].
Definition unknown_source_processing : value :=
  record_with [ ("source_processing", VStr "upscale") ] [].
Definition unknown_sampler : value :=
  record_with [] [ ("sampler_name", VStr "uni_pc") ].
Definition unknown_baseline : value :=
  record_with [ ("model_baseline", VStr "stable_diffusion_3") ] [].
Definition fallback_sampler : value :=
  record_with [] [ ("sampler_name", VStr "k_euler") ].

(** A record with explicit flags and a repeated post-processor. *)
Definition flagged_record : value :=
  record_with []
    [ ("hires_fix", VBool true); ("hires_fix_denoising_strength", VFloat (65 # 100));
      ("tiling", VBool false); ("transparent", VNone);
      ("post_processing", VList [ VStr "GFPGAN"; VStr "GFPGAN" ]) ].

Definition zero_strength_record : value :=
  record_with [] [ ("hires_fix_denoising_strength", VFloat 0) ].

(** Records of a data file: the label sits beside the job-info object. *)
Definition with_label (t : list (string * value)) (payload : value) : value :=
  match payload with
  | VDict m => VDict (list_to_map t ∪ m)
  | _ => payload
  end.

Definition labelled_record : value :=
  with_label [ ("time_to_generate", VFloat (445 # 100)) ] minimal_record.
Definition null_label_record : value :=
  with_label [ ("time_to_generate", VNone) ] flagged_record.

(** The encoding of [PAYLOAD_EXAMPLE] under the tables above. *)
Definition example_features : tensor2 :=
  Eval vm_compute in
    match payload_to_tensor hordelib str_to_float PAYLOAD_EXAMPLE with
    | Ok t => t
    | Raise _ => []
    end.

(** The encoding of [flagged_record] and of [zero_strength_record]. *)
Definition flagged_features : tensor2 :=
  Eval vm_compute in
    match payload_to_tensor hordelib str_to_float flagged_record with
    | Ok t => t
    | Raise _ => []
    end.

Definition zero_strength_features : tensor2 :=
  Eval vm_compute in
    match payload_to_tensor hordelib str_to_float zero_strength_record with
    | Ok t => t
    | Raise _ => []
    end.

(** A network that predicts a negative duration. *)
Definition negative_model (inputs : list Q) : result (list Q) :=
  Ok [ (foldl Qplus 0 (take 4 inputs) - 5)%Q ].

Definition negative_output : Q :=
  Eval vm_compute in
    match negative_model (squeeze example_features) with
    | Ok [ y ] => y
    | _ => 0%Q
    end.

(** A trial that answers every dropout request with 0.1. *)
Definition trial : Trial := {| suggest_float := λ _ _ _, 1 # 10 |}.

(** A run whose validation loss grows by one each epoch: the state counts
    the epochs trained, the single batch loss is that count. *)
Definition rising_train (st : nat) : nat := S st.
Definition rising_validate (st : nat) : list Q * nat :=
  ([ inject_Z (Z.of_nat st) ], st).

End Examples.

(** ** More concrete records, tables and networks *)

Module Samples.

(** The minimal record again, with its two objects named. *)
Definition minimal_payload : gmap string value :=
  list_to_map Examples.required_fields.
Definition minimal_info : gmap string value :=
  list_to_map [ ("payload", VDict minimal_payload);
                ("model_baseline", VStr "stable_diffusion_xl") ].

(** The same request with fields the encoder does not read, and with
    nulls in nullable fields. *)
Definition noisy_payload : gmap string value :=
  list_to_map ([ ("prompt", VStr "a lighthouse at dusk"); ("seed", VInt 42);
                 ("n_iter", VInt 4); ("denoising_strength", VNone);
                 ("control_type", VNone) ] ++ Examples.required_fields).
Definition noisy_info : gmap string value :=
  list_to_map [ ("payload", VDict noisy_payload);
                ("model_baseline", VStr "stable_diffusion_xl");
                ("worker_id", VStr "w-17") ].
Definition noisy_record : value :=
  VDict (list_to_map [ ("sdk_api_job_info", VDict noisy_info); ("state", VStr "ok") ]).

(** A record that holds a label and nothing else. *)
Definition bare_record : value :=
  VDict (list_to_map [ ("time_to_generate", VFloat (445 # 100)) ]).

(** The tables of [Examples.hordelib] with their entries in another order. *)
Definition shuffled_hordelib : HordeLib := {|
  SAMPLERS_MAP := [ "lcm"; "k_lms"; "k_euler"; "ddim"; "k_heun"; "k_dpm_2";
                    "k_euler_a"; "k_dpmpp_2m" ];
  CONTROLNET_IMAGE_PREPROCESSOR_MAP := [ "scribble"; "canny"; "openpose"; "hed";
                                         "normal"; "depth" ];
  SOURCE_IMAGE_PROCESSING_OPTIONS := rev (SOURCE_IMAGE_PROCESSING_OPTIONS Examples.hordelib)
|}.

(** A data file of two records, the first with a null label, and what the
    loader makes of it. *)
Definition data_file : list value :=
  [ Examples.null_label_record; Examples.labelled_record ].

Definition loaded : KudosDataset :=
  Eval vm_compute in
    match KudosDataset_init Examples.hordelib Examples.str_to_float (VList data_file) with
    | Ok self => self
    | Raise _ => {| data := []; labels := Scalar 0; mixed_data := [] |}
    end.

(** A trial that takes the upper bound of every integer range. *)
Definition widest (name : string) (low high : nat) : nat := high.

(** A validation loader that runs dry once three epochs are trained. *)
Definition drained_validate (st : nat) : list Q * nat :=
  (if (st <? 3)%nat then [ inject_Z (Z.of_nat st) ] else [], st).

(** A network that predicts five seconds for every request, and one that
    refuses every vector that has not the length of the feature vectors. *)
Definition steady_model (inputs : list Q) : result (list Q) := Ok [ 5%Q ].

Definition guarded_model (inputs : list Q) : result (list Q) :=
  if (length inputs =? feature_length Examples.hordelib)%nat
  then Examples.negative_model inputs
  else Raise RuntimeError.

(** A line of the validation file read by [test_one_by_one]: the time sits
    beside the job-info object. *)
Definition timed_record : value :=
  Examples.with_label [ ("time", VFloat (445 # 100)) ] Examples.minimal_record.

(** A request whose height is an integer beyond the float range, as a
    line of the validation file. *)
Definition towering_payload : gmap string value :=
  list_to_map (("height", VInt (10 ^ 400)) :: Examples.required_fields).
Definition towering_info : gmap string value :=
  list_to_map [ ("payload", VDict towering_payload);
                ("model_baseline", VStr "stable_diffusion_xl") ].
Definition towering_record : value :=
  VDict (list_to_map [ ("sdk_api_job_info", VDict towering_info);
                       ("time", VFloat (445 # 100)) ]).

(** A request without [width]. *)
Definition narrow_payload : gmap string value :=
  list_to_map [ ("height", VInt 512); ("ddim_steps", VInt 30);
                ("cfg_scale", VFloat (75 # 10)); ("sampler_name", VStr "k_euler_a");
                ("scheduler", VStr "karras") ].
Definition narrow_info : gmap string value :=
  list_to_map [ ("payload", VDict narrow_payload);
                ("model_baseline", VStr "stable_diffusion_xl") ].
Definition narrow_record : value :=
  VDict (list_to_map [ ("sdk_api_job_info", VDict narrow_info) ]).

(** The logarithm to the base two where it is whole. *)
Definition whole_log2 (x : Z) : Q := inject_Z (Z.log2 x).

(** The fields of [Examples.labelled_record], a record of a training file. *)
Definition labelled_fields : gmap string value :=
  match Examples.labelled_record with
  | VDict m => m
  | _ => ∅
  end.

End Samples.

(** * Proofs *)

(** ** The exception monad *)

Lemma bind_Ok {A B} (m : result A) (f : A → result B) (b : B) :
  m ≫= f = Ok b → ∃ a, m = Ok a ∧ f a = Ok b.
Proof. destruct m as [a|e]; simpl; [eauto | discriminate]. Qed.

Lemma bind_Ok_intro {A B} (m : result A) (f : A → result B) (a : A) :
  m = Ok a → m ≫= f = f a.
Proof. by intros ->. Qed.

Lemma fmap_Ok {A B} (g : A → B) (m : result A) (b : B) :
  g <$> m = Ok b → ∃ a, m = Ok a ∧ b = g a.
Proof. destruct m as [a|e]; simpl; [| discriminate]. intros [= <-]. eauto. Qed.

Ltac inv_bind H :=
  let x := fresh "x" in
  let Hx := fresh "H" x in
  apply bind_Ok in H as (x & Hx & H).

Lemma sequence_Ok {A} (cs : list (result A)) (xs : list A) :
  sequence cs = Ok xs ↔ Forall2 (λ c x, c = Ok x) cs xs.
Proof.
  revert xs. induction cs as [|c cs IH]; intros xs; simpl.
  - split.
    + intros [= <-]. constructor.
    + intros H. by inversion H.
  - split.
    + intros H. inv_bind H. inv_bind H. injection H as <-.
      constructor; [done | by apply IH].
    + intros H. inversion H as [|? x ? xs' Hc Hcs]; subst.
      apply IH in Hcs. by rewrite Hcs.
Qed.

Lemma sequence_length {A} (cs : list (result A)) (xs : list A) :
  sequence cs = Ok xs → length xs = length cs.
Proof. intros H%sequence_Ok. symmetry. by eapply Forall2_length. Qed.

(** ** Membership and position in a vocabulary *)

Lemma eq_str_spec (o : value) (s : string) : eq_str o s = true ↔ o = VStr s.
Proof.
  destruct o; simpl; try (split; [discriminate | by intros [=]]).
  rewrite String.eqb_eq. split; [by intros -> | by intros [= ->]].
Qed.

Lemma in_list_spec (o : value) (l : list string) :
  in_list o l = true ↔ ∃ s, o = VStr s ∧ s ∈ l.
Proof.
  unfold in_list. rewrite existsb_exists. split.
  - intros (s & Hin & Heq). exists s. apply eq_str_spec in Heq.
    split; [done | by apply list_elem_of_In].
  - intros (s & -> & Hin). exists s. split; [by apply list_elem_of_In |].
    by apply eq_str_spec.
Qed.

Lemma index_Ok (o : value) (l : list string) (j : nat) :
  index o l = Ok j → ∃ s, o = VStr s ∧ l !! j = Some s ∧ (j < length l)%nat.
Proof.
  revert j. induction l as [|s l IH]; intros j; simpl; [discriminate |].
  destruct (eq_str o s) eqn:E.
  - intros [= <-]. apply eq_str_spec in E. exists s. simpl. split_and!; [done..| lia].
  - intros H. apply fmap_Ok in H as (j' & Hj' & ->).
    destruct (IH _ Hj') as (s' & -> & Hl & Hlt). exists s'. simpl.
    split_and!; [done..| lia].
Qed.

Lemma index_total (o : value) (l : list string) :
  in_list o l = true → ∃ j, index o l = Ok j.
Proof.
  unfold in_list. induction l as [|s l IH]; simpl; [discriminate |].
  destruct (eq_str o s); simpl; [eauto |].
  intros H. destruct (IH H) as [j ->]. simpl. eauto.
Qed.

Lemma index_not_in (o : value) (l : list string) :
  in_list o l = false → index o l = Raise ValueError.
Proof.
  unfold in_list. induction l as [|s l IH]; simpl; [done |].
  destruct (eq_str o s); simpl; [discriminate |].
  intros H. by rewrite IH.
Qed.

Lemma sorted_elem (l : list string) (s : string) : s ∈ sorted l ↔ s ∈ l.
Proof. unfold sorted. by rewrite merge_sort_Permutation. Qed.

Lemma sorted_length (l : list string) : length (sorted l) = length l.
Proof. unfold sorted. by rewrite merge_sort_Permutation. Qed.

(** ** One-hot and multi-hot blocks *)

Lemma set_item_app (done : tensor2) (z : list Q) (rest : tensor2) (j : nat) (x : Q) :
  set_item (done ++ z :: rest) (length done) j x = done ++ <[j := x]> z :: rest.
Proof.
  unfold set_item.
  replace (length done) with (length done + 0)%nat by lia.
  by rewrite alter_app_r.
Qed.

Lemma one_hot_loop_Ok (strings : list value) (u : list string) (c : nat)
    (done : tensor2) (t : tensor2) :
  one_hot_loop (length done) strings u
    (done ++ replicate (length strings) (replicate c 0%Q)) = Ok t
  ↔ ∃ js, Forall2 (λ s j, index s u = Ok j) strings js
          ∧ t = done ++ ((λ j, one_hot_row j c) <$> js).
Proof.
  revert done t. induction strings as [|s strings IH]; intros done t; simpl.
  - split.
    + intros [= <-]. exists []. split; [constructor | done].
    + intros (js & HF & ->). inversion HF; subst. done.
  - split.
    + intros H. inv_bind H. rewrite set_item_app in H.
      specialize (IH (done ++ [<[x := 1%Q]> (replicate c 0%Q)]) t).
      rewrite length_app in IH. simpl in IH.
      replace (length done + 1)%nat with (S (length done)) in IH by lia.
      rewrite <- app_assoc in IH. simpl in IH.
      apply IH in H as (js & HF & ->).
      exists (x :: js). split; [by constructor |].
      by rewrite <- app_assoc.
    + intros (js & HF & ->). inversion HF as [|? j ? js' Hj HF']; subst.
      rewrite Hj. simpl. rewrite set_item_app.
      specialize (IH (done ++ [<[j := 1%Q]> (replicate c 0%Q)])
                     (done ++ ((λ j, one_hot_row j c) <$> j :: js'))).
      rewrite length_app in IH. simpl in IH.
      replace (length done + 1)%nat with (S (length done)) in IH by lia.
      rewrite <- app_assoc in IH. simpl in IH.
      apply IH. exists js'. split; [done |]. by rewrite <- app_assoc.
Qed.

Lemma one_hot_encode_Ok (strings : list value) (u : list string) (t : tensor2) :
  one_hot_encode strings u = Ok t
  ↔ ∃ js, Forall2 (λ s j, index s u = Ok j) strings js
          ∧ t = (λ j, one_hot_row j (length u)) <$> js.
Proof. unfold one_hot_encode, zeros. apply (one_hot_loop_Ok strings u (length u) []). Qed.

Lemma one_hot_encode_single (o : value) (u : list string) (t : tensor2) :
  one_hot_encode [o] u = Ok t
  ↔ ∃ j, index o u = Ok j ∧ t = [one_hot_row j (length u)].
Proof.
  rewrite one_hot_encode_Ok. split.
  - intros (js & HF & ->). inversion HF as [|? j ? ? Hj HF']; subst.
    inversion HF'; subst. eauto.
  - intros (j & Hj & ->). exists [j]. split; [| done].
    constructor; [done | constructor].
Qed.

Lemma one_hot_row_length (j n : nat) : length (one_hot_row j n) = n.
Proof. unfold one_hot_row. by rewrite length_insert, length_replicate. Qed.

Lemma one_hot_row_lookup (j n k : nat) :
  (k < n)%nat → one_hot_row j n !! k = Some (if decide (j = k) then 1%Q else 0%Q).
Proof.
  intros Hk. unfold one_hot_row.
  destruct (decide (j = k)) as [->|Hne].
  - apply list_lookup_insert_eq. by rewrite length_replicate.
  - rewrite list_lookup_insert_ne by done. by apply lookup_replicate_2.
Qed.

Lemma Qplus_inject_Z (a b : Z) : Qplus (inject_Z a) (inject_Z b) = inject_Z (a + b).
Proof. unfold Qplus, inject_Z. simpl. f_equal. lia. Qed.

Lemma sum_rows_length (rows : tensor2) (acc : list Q) (n : nat) :
  length acc = n → Forall (λ r, length r = n) rows →
  length (foldl (zip_with Qplus) acc rows) = n.
Proof.
  revert acc. induction rows as [|r rows IH]; intros acc Hacc HF; simpl; [done |].
  inversion HF; subst. apply IH; [| done].
  rewrite length_zip_with. lia.
Qed.

Lemma sum_one_hot_lookup (js : list nat) (n k : nat) (acc : list Q) (a : Z) :
  (k < n)%nat → acc !! k = Some (inject_Z a) →
  foldl (zip_with Qplus) acc ((λ j, one_hot_row j n) <$> js) !! k
  = Some (inject_Z (a + Z.of_nat (occurrences k js))).
Proof.
  intros Hk. revert acc a. induction js as [|j js IH]; intros acc a Hacc.
  - simpl. rewrite Hacc. do 2 f_equal. unfold occurrences. simpl. lia.
  - rewrite fmap_cons. cbn [foldl].
    assert (zip_with Qplus acc (one_hot_row j n) !! k
            = Some (inject_Z (a + (if decide (j = k) then 1 else 0)))) as Hstep.
    { rewrite lookup_zip_with, Hacc. simpl.
      rewrite one_hot_row_lookup by done. simpl. f_equal.
      destruct (decide (j = k)).
      - change 1%Q with (inject_Z 1). apply Qplus_inject_Z.
      - change 0%Q with (inject_Z 0). apply Qplus_inject_Z. }
    rewrite (IH _ _ Hstep). do 2 f_equal.
    unfold occurrences. rewrite filter_cons.
    destruct (decide (j = k)); simpl; lia.
Qed.

Lemma one_hot_encode_combined_Ok (strings : list value) (u : list string) (t : tensor2) :
  one_hot_encode_combined strings u = Ok t
  ↔ ∃ js, Forall2 (λ s j, index s u = Ok j) strings js
          ∧ t = sum_dim0 (length u) ((λ j, one_hot_row j (length u)) <$> js).
Proof.
  unfold one_hot_encode_combined. split.
  - intros H. inv_bind H. injection H as <-.
    apply (one_hot_loop_Ok strings u (length u) []) in Hx as (js & HF & ->). eauto.
  - intros (js & HF & ->).
    assert (one_hot_loop 0 strings u (zeros (length strings) (length u))
            = Ok ((λ j, one_hot_row j (length u)) <$> js)) as ->; [| done].
    apply (one_hot_loop_Ok strings u (length u) []). eauto.
Qed.

Lemma sum_dim0_one_hot (js : list nat) (n : nat) :
  ∃ row, sum_dim0 n ((λ j, one_hot_row j n) <$> js) = [row]
         ∧ length row = n
         ∧ ∀ k, (k < n)%nat → row !! k = Some (inject_Z (Z.of_nat (occurrences k js))).
Proof.
  eexists. split; [reflexivity |]. split.
  - apply sum_rows_length; [by rewrite length_replicate |].
    apply Forall_fmap, Forall_forall. intros j _. simpl. apply one_hot_row_length.
  - intros k Hk.
    rewrite (sum_one_hot_lookup js n k _ 0) by (by try apply lookup_replicate_2).
    done.
Qed.

(** ** Concatenation of the blocks *)

Lemma cat_dim1_rows (r : list Q) (rs : list (list Q)) :
  cat_dim1 ([r] :: ((λ x, [x]) <$> rs)) = Ok [r ++ concat rs].
Proof.
  unfold cat_dim1.
  assert (forallb (λ u : tensor2, Nat.eqb (length u) (length [r])) ((λ x, [x]) <$> rs) = true) as ->.
  { apply forallb_forall. intros u Hin. apply list_elem_of_In, list_elem_of_fmap in Hin as (x & -> & _). done. }
  f_equal. revert r. induction rs as [|x rs IH]; intros r; simpl.
  - by rewrite app_nil_r.
  - rewrite IH. by rewrite <- app_assoc.
Qed.

(** ** Inversion of a successful encoding *)

Lemma getitem_Ok (o : value) (k : string) (v : value) :
  getitem o k = Ok v ↔ ∃ m, o = VDict m ∧ m !! k = Some v.
Proof.
  split.
  - destruct o; simpl; try discriminate.
    destruct (m !! k) eqn:E; [| discriminate]. intros [= ->]. eauto.
  - intros (m & -> & H). simpl. by rewrite H.
Qed.

Lemma torch_tensor_float_row (row : list value) (t : tensor2) :
  torch_tensor_float [row] = Ok t
  ↔ ∃ qs, Forall2 (λ v q, to_float v = Ok q) row qs ∧ t = [qs].
Proof.
  unfold torch_tensor_float. simpl. split.
  - intros H. inv_bind H. injection H as <-.
    apply sequence_Ok, Forall2_fmap_l in Hx. eauto.
  - intros (qs & HF & ->).
    assert (sequence (to_float <$> row) = Ok qs) as ->; [| done].
    by apply sequence_Ok, Forall2_fmap_l.
Qed.

Lemma Ok_inj {A} (a b : A) : Ok a = Ok b → a = b.
Proof. by intros [=]. Qed.

Lemma cat_dim1_blocks (r a b c d e f : list Q) :
  cat_dim1 [ [r]; [a]; [b]; [c]; [d]; [e]; [f] ]
  = Ok [ r ++ a ++ b ++ c ++ d ++ e ++ f ].
Proof.
  rewrite <- (app_nil_r f) at 2.
  exact (cat_dim1_rows r [a; b; c; d; e; f]).
Qed.

Lemma payload_to_tensor_Ok hl f payload t :
  payload_to_tensor hl f payload = Ok t ↔ encoding hl f payload t.
Proof.
  split.
  - unfold payload_to_tensor. intros H.
    apply bind_Ok in H as (vi & Hvi & H).
    apply bind_Ok in H as (vp & Hvp & H).
    apply bind_Ok in H as (row & Hrow & H).
    apply getitem_Ok in Hvi as (m & -> & Hm).
    apply getitem_Ok in Hvp as (info & -> & Hinfo).
    destruct vp as [| | | | | |p];
      try (unfold numeric_row in Hrow; simpl in Hrow; discriminate).
    apply bind_Ok in H as (c & Hc & H).
    apply getitem_Ok in Hc as (? & [= <-] & Hc).
    apply bind_Ok in H as (b & Hb & H).
    assert (b = if in_list c KNOWN_MODEL_BASELINES then c
                else VStr "stable_diffusion_xl") as ->.
    { destruct (in_list c KNOWN_MODEL_BASELINES); [| by injection Hb].
      simpl in Hb. rewrite Hc in Hb. by injection Hb. }
    clear Hb.
    apply bind_Ok in H as (sch & Hsch & H).
    apply getitem_Ok in Hsch as (? & [= <-] & Hsch).
    apply bind_Ok in H as (sam & Hsam & H).
    apply getitem_Ok in Hsam as (? & [= <-] & Hsam).
    apply bind_Ok in H as (s & Hs & H).
    assert (s = if in_list sam (KNOWN_SAMPLERS hl) then sam else VStr "k_euler") as ->.
    { destruct (in_list sam (KNOWN_SAMPLERS hl)); [| by injection Hs].
      simpl in Hs. rewrite Hsam in Hs. by injection Hs. }
    clear Hs.
    apply bind_Ok in H as (ct & [= <-] & H).
    apply bind_Ok in H as (ct' & Hct & H).
    assert (ct' = if negb (is_None (default (VStr "None") (p !! "control_type")))
                  then default (VStr "None") (p !! "control_type")
                  else VStr "None") as ->.
    { destruct (negb _); simpl in Hct; by injection Hct. }
    clear Hct.
    apply bind_Ok in H as (sp & [= <-] & H).
    apply bind_Ok in H as (l & [= <-] & H).
    apply bind_Ok in H as (pps & Hpps & H).
    apply bind_Ok in H as (fl & Hfl & H).
    apply torch_tensor_float_row in Hfl as (qs & Hqs & ->).
    apply bind_Ok in H as (t1 & Ht1 & H).
    apply one_hot_encode_single in Ht1 as (jb & Hjb & ->).
    apply bind_Ok in H as (t2 & Ht2 & H).
    apply one_hot_encode_single in Ht2 as (js & Hjs & ->).
    apply bind_Ok in H as (t3 & Ht3 & H).
    apply one_hot_encode_single in Ht3 as (jsch & Hjsch & ->).
    apply bind_Ok in H as (t4 & Ht4 & H).
    apply one_hot_encode_single in Ht4 as (jct & Hjct & ->).
    apply bind_Ok in H as (t5 & Ht5 & H).
    apply one_hot_encode_single in Ht5 as (jsp & Hjsp & ->).
    apply bind_Ok in H as (t6 & Ht6 & H).
    apply one_hot_encode_combined_Ok in Ht6 as (jpp & Hjpp & ->).
    unfold sum_dim0 in H. rewrite cat_dim1_blocks in H.
    apply Ok_inj in H. subst t.
    eapply (eq_ind _ (encoding hl f (VDict m)));
      [ eapply (encoding_intro hl f _ info p row qs c sch sam pps
                  jb js jsch jct jsp jpp); try done | ].
    + unfold job_info. by rewrite Hm.
    + unfold job_payload, job_info. rewrite Hm. simpl. by rewrite Hinfo.
    + unfold sum_dim0. cbn [concat]. by rewrite app_nil_r.
  - intros [info p row qs c sch sam pps jb js jsch jct jsp jpp
             Hinfo Hp Hrow Hqs Hc Hjb Hsch Hjsch Hsam Hjs Hjct Hjsp Hpps Hjpp].
    unfold job_payload in Hp. rewrite Hinfo in Hp. simpl in Hp.
    unfold job_info in Hinfo.
    destruct payload as [| | | | | |m]; try discriminate.
    destruct (m !! "sdk_api_job_info") as [[| | | | | |info']|] eqn:Hm; try discriminate.
    injection Hinfo as ->.
    destruct (info !! "payload") as [[| | | | | |p']|] eqn:Hip; try discriminate.
    injection Hp as ->.
    unfold payload_to_tensor. cbn [getitem]. rewrite Hm. cbn [mbind result_bind getitem dict_get].
    rewrite Hip. cbn [mbind result_bind getitem dict_get].
    rewrite Hrow. cbn [mbind result_bind getitem dict_get].
    rewrite Hc. cbn [mbind result_bind getitem dict_get].
    assert ((if in_list c KNOWN_MODEL_BASELINES then Ok c
             else Ok (VStr "stable_diffusion_xl"))
            = Ok (if in_list c KNOWN_MODEL_BASELINES then c
                  else VStr "stable_diffusion_xl")) as ->
      by (destruct (in_list c KNOWN_MODEL_BASELINES); reflexivity).
    cbn [mbind result_bind getitem dict_get]. rewrite Hsch, Hsam. cbn [mbind result_bind getitem dict_get].
    assert ((if in_list sam (KNOWN_SAMPLERS hl) then Ok sam else Ok (VStr "k_euler"))
            = Ok (if in_list sam (KNOWN_SAMPLERS hl) then sam
                  else VStr "k_euler")) as ->
      by (destruct (in_list sam (KNOWN_SAMPLERS hl)); reflexivity).
    cbn [mbind result_bind getitem dict_get].
    assert ((if negb (is_None (default (VStr "None") (p !! "control_type")))
             then Ok (default (VStr "None") (p !! "control_type"))
             else Ok (VStr "None"))
            = Ok (if negb (is_None (default (VStr "None") (p !! "control_type")))
                  then default (VStr "None") (p !! "control_type")
                  else VStr "None")) as ->
      by (destruct (negb (is_None (default (VStr "None") (p !! "control_type"))));
          reflexivity).
    cbn [mbind result_bind getitem dict_get]. rewrite Hpps. cbn [mbind result_bind getitem dict_get].
    assert (torch_tensor_float [row] = Ok [qs]) as ->
      by (apply torch_tensor_float_row; eauto).
    cbn [mbind result_bind getitem dict_get].
    rewrite (proj2 (one_hot_encode_single _ _ _) (ex_intro _ jb (conj Hjb eq_refl))).
    cbn [mbind result_bind getitem dict_get].
    rewrite (proj2 (one_hot_encode_single _ _ _) (ex_intro _ js (conj Hjs eq_refl))).
    cbn [mbind result_bind getitem dict_get].
    rewrite (proj2 (one_hot_encode_single _ _ _) (ex_intro _ jsch (conj Hjsch eq_refl))).
    cbn [mbind result_bind getitem dict_get].
    rewrite (proj2 (one_hot_encode_single _ _ _) (ex_intro _ jct (conj Hjct eq_refl))).
    cbn [mbind result_bind getitem dict_get].
    rewrite (proj2 (one_hot_encode_single _ _ _) (ex_intro _ jsp (conj Hjsp eq_refl))).
    cbn [mbind result_bind getitem dict_get].
    rewrite (proj2 (one_hot_encode_combined_Ok _ _ _) (ex_intro _ jpp (conj Hjpp eq_refl))).
    cbn [mbind result_bind getitem dict_get]. unfold sum_dim0.
    rewrite cat_dim1_blocks. cbn [concat]. by rewrite app_nil_r.
Qed.

(** ** Shape of an encoding *)

Lemma multi_hot_length (jpp : list nat) (n : nat) :
  length (concat (sum_dim0 n ((λ j, one_hot_row j n) <$> jpp))) = n.
Proof.
  destruct (sum_dim0_one_hot jpp n) as (row & -> & Hlen & _).
  simpl. by rewrite app_nil_r.
Qed.

Lemma numeric_row_length f p row :
  numeric_row f p = Ok row → length row = NUMERIC_FIELDS.
Proof. intros H%sequence_length. by rewrite H. Qed.

Lemma encoding_length hl f payload t :
  encoding hl f payload t →
  ∃ row, t = [row] ∧ length row = feature_length hl.
Proof.
  intros [info p row qs c sch sam pps jb js jsch jct jsp jpp
            _ _ Hrow Hqs _ _ _ _ _ _ _ _ _ _].
  eexists. split; [reflexivity |].
  rewrite !length_app, !one_hot_row_length, multi_hot_length.
  apply Forall2_length in Hqs. apply numeric_row_length in Hrow.
  unfold feature_length. lia.
Qed.

(** Entry [i] of the numeric block is the tensor element of entry [i] of
    the list display. *)
Lemma encoding_numeric hl f payload t :
  encoding hl f payload t →
  ∃ p row, job_payload payload = Some p ∧ t = [row] ∧
    ∀ i c, numeric_entries f (VDict p) !! i = Some c →
           ∃ x q, c = Ok x ∧ to_float x = Ok q ∧ row !! i = Some q.
Proof.
  intros [info p row qs c sch sam pps jb js jsch jct jsp jpp
            _ Hp Hrow Hqs _ _ _ _ _ _ _ _ _ _].
  exists p. eexists. split; [done |]. split; [reflexivity |].
  intros i e Hi. apply sequence_Ok in Hrow.
  destruct (Forall2_lookup_l _ _ _ _ _ Hrow Hi) as (x & Hx & ->).
  destruct (Forall2_lookup_l _ _ _ _ _ Hqs Hx) as (q & Hq & Hxq).
  exists x, q. split_and!; [done..|].
  rewrite lookup_app_l; [done |]. by eapply lookup_lt_Some.
Qed.

Lemma flag_Ok (p : gmap string value) (k : string) :
  flag (VDict p) k = Ok (VFloat (flag_value (p !! k))).
Proof. unfold flag, flag_value. simpl. by destruct (p !! k). Qed.

Lemma flag_entry f (P : value) (i : nat) (k : string) :
  BOOLEAN_FLAGS !! i = Some k → numeric_entries f P !! (14 + i)%nat = Some (flag P k).
Proof.
  do 8 (destruct i as [|i]; [by intros [= <-] |]). discriminate.
Qed.

Lemma encoding_flags hl f payload t :
  encoding hl f payload t →
  ∃ p row, job_payload payload = Some p ∧ t = [row] ∧
    ∀ i k, BOOLEAN_FLAGS !! i = Some k →
           row !! (14 + i)%nat = Some (flag_value (p !! k)).
Proof.
  intros (p & row & Hp & -> & Hnum)%encoding_numeric.
  exists p, row. split_and!; [done..|]. intros i k Hik.
  destruct (Hnum _ _ (flag_entry f (VDict p) i k Hik)) as (x & q & Hx & Hq & Hrow).
  rewrite flag_Ok in Hx. injection Hx as <-. simpl in Hq. injection Hq as <-. done.
Qed.

(** ** Totality of the encoder on well-formed records *)

Lemma sequence_total {A} (P : A → Prop) (cs : list (result A)) :
  Forall (λ c, ∃ x, c = Ok x ∧ P x) cs →
  ∃ xs, sequence cs = Ok xs ∧ Forall P xs.
Proof.
  induction 1 as [|c cs (x & -> & Hx) _ (xs & IH & HP)]; simpl.
  - exists []. by split.
  - rewrite IH. simpl. exists (x :: xs). split; [done | by constructor].
Qed.

Lemma overflows_false (q : Q) :
  overflows q = false
  ↔ (- inject_Z FLOAT_LIMIT < q ∧ q < inject_Z FLOAT_LIMIT)%Q.
Proof.
  unfold overflows. generalize (inject_Z FLOAT_LIMIT) as L. intros L.
  rewrite orb_false_iff. split.
  - intros [H1 H2]. split; apply Qnot_le_lt; intros H%Qle_bool_iff; congruence.
  - intros [H1 H2]. split; apply not_true_is_false; intros H%Qle_bool_iff; lra.
Qed.

Lemma overflows_div (z d : Z) :
  (1 ≤ d)%Z → overflows (inject_Z z) = false →
  overflows (inject_Z z / inject_Z d) = false.
Proof.
  intros Hd [H1 H2]%overflows_false. apply overflows_false.
  revert H1 H2. generalize (inject_Z FLOAT_LIMIT) as L, (inject_Z z) as q.
  intros L q H1 H2.
  assert (1 <= inject_Z d)%Q as Hd' by (change 1%Q with (inject_Z 1); by rewrite <- Zle_Qle).
  assert (0 <= L * (inject_Z d - 1))%Q as Hnn by (apply Qmult_le_0_compat; lra).
  split.
  - apply Qlt_shift_div_l; lra.
  - apply Qlt_shift_div_r; lra.
Qed.

Lemma is_number_int (z : Z) : is_number (VInt z) = true → overflows (inject_Z z) = false.
Proof. by intros H%negb_true_iff. Qed.

Lemma scaled_total (p : gmap string value) (k : string) (d : Z) :
  (1 ≤ d)%Z →
  number_field (p !! k) = true →
  ∃ x, scaled (VDict p) k d = Ok x ∧ is_number x = true.
Proof.
  intros Hd. unfold scaled, number_field. simpl.
  destruct (p !! k) as [[| |z| | | |]|]; simpl; try discriminate; eauto.
  intros H%is_number_int. rewrite (overflows_div _ _ Hd H). eauto.
Qed.

Lemma strength_total (p : gmap string value) (k : string) :
  opt_strength_field (p !! k) = true →
  ∃ x, strength (VDict p) k = Ok x ∧ is_number x = true.
Proof.
  unfold strength, opt_strength_field. simpl.
  destruct (p !! k) as [[]|]; simpl; try discriminate; eauto.
Qed.

Lemma count_total f (p : gmap string value) (k : string) (d : Q) :
  opt_number_field (p !! k) = true →
  ∃ x, count f (VDict p) k d = Ok x ∧ is_number x = true.
Proof.
  unfold count, opt_number_field. simpl.
  destruct (p !! k) as [[| |z| | | |]|]; simpl; try discriminate; eauto.
  intros H%is_number_int. rewrite H. eauto.
Qed.

Lemma flag_total (p : gmap string value) (k : string) :
  ∃ x, flag (VDict p) k = Ok x ∧ is_number x = true.
Proof. rewrite flag_Ok. eauto. Qed.

Lemma order_flag_total (p : gmap string value) :
  ∃ x, order_flag (VDict p) = Ok x ∧ is_number x = true.
Proof. unfold order_flag. simpl. eauto. Qed.

Lemma to_float_total (row : list value) :
  Forall (λ x, is_number x = true) row →
  ∃ qs, Forall2 (λ v q, to_float v = Ok q) row qs.
Proof.
  induction 1 as [|x row Hx _ [qs IH]].
  - exists []. constructor.
  - destruct x as [| |z| | | |]; try discriminate; eexists (_ :: qs);
      (constructor; [| done]); try reflexivity.
    cbn [to_float]. by rewrite (is_number_int z Hx).
Qed.

Lemma index_all_total (l : list value) (u : list string) :
  forallb (λ v, in_list v u) l = true →
  ∃ js, Forall2 (λ s j, index s u = Ok j) l js.
Proof.
  induction l as [|v l IH]; simpl.
  - exists []. constructor.
  - intros [Hv Hl]%andb_prop. destruct (IH Hl) as [js Hjs].
    destruct (index_total _ _ Hv) as [j Hj]. exists (j :: js). by constructor.
Qed.

Lemma in_list_str (s : string) (u : list string) :
  s ∈ u → in_list (VStr s) u = true.
Proof. intros H. apply in_list_spec. eauto. Qed.

Lemma k_euler_known hl :
  "k_euler" ∈ SAMPLERS_MAP hl → in_list (VStr "k_euler") (KNOWN_SAMPLERS hl) = true.
Proof.
  intros H. apply in_list_str. unfold KNOWN_SAMPLERS.
  by rewrite sorted_elem, elem_of_remove_dups.
Qed.

Lemma None_known hl : in_list (VStr "None") (KNOWN_CONTROL_TYPES hl) = true.
Proof.
  apply in_list_str. unfold KNOWN_CONTROL_TYPES.
  rewrite sorted_elem, elem_of_app. right. by apply list_elem_of_singleton.
Qed.

Lemma txt2img_known hl : in_list (VStr "txt2img") (KNOWN_SOURCE_PROCESSING hl) = true.
Proof.
  apply in_list_str. unfold KNOWN_SOURCE_PROCESSING.
  rewrite sorted_elem, elem_of_app. right. by apply list_elem_of_singleton.
Qed.

Lemma payload_to_tensor_total hl f payload :
  "k_euler" ∈ SAMPLERS_MAP hl →
  well_formed hl payload = true →
  ∃ t, payload_to_tensor hl f payload = Ok t.
Proof.
  intros Hk Hwf. unfold well_formed in Hwf.
  destruct (job_info payload) as [info|] eqn:Hinfo; [| discriminate].
  destruct (job_payload payload) as [p|] eqn:Hp; [| discriminate].
  repeat (apply andb_prop in Hwf as [Hwf ?]).
  (* the numeric block *)
  destruct (sequence_total (λ x, is_number x = true) (numeric_entries f (VDict p)))
    as (row & Hrow & Hnum).
  { unfold numeric_entries.
    repeat (apply Forall_cons; split;
            [ first [ by apply scaled_total; [lia |] | by apply strength_total
                    | by apply count_total | apply flag_total
                    | apply order_flag_total ] | ]).
    constructor. }
  destruct (to_float_total row Hnum) as [qs Hqs].
  (* the categorical blocks *)
  destruct (info !! "model_baseline") as [c|] eqn:Hc;
    [| by match goal with H : bool_decide _ = true |- _ =>
            apply bool_decide_eq_true in H; destruct H as [? [=]] end ].
  destruct (p !! "scheduler") as [sch|] eqn:Hsch; [| discriminate].
  destruct (p !! "sampler_name") as [sam|] eqn:Hsam; cycle 1.
  { match goal with H : bool_decide (is_Some None) = true |- _ =>
      apply bool_decide_eq_true in H; destruct H as [? [=]] end. }
  destruct (index_total
    (if in_list c KNOWN_MODEL_BASELINES then c else VStr "stable_diffusion_xl")
    KNOWN_MODEL_BASELINES) as [jb Hjb].
  { destruct (in_list c KNOWN_MODEL_BASELINES) eqn:E; [done | reflexivity]. }
  destruct (index_total sch KNOWN_SCHEDULERS) as [jsch Hjsch]; [done |].
  destruct (index_total
    (if in_list sam (KNOWN_SAMPLERS hl) then sam else VStr "k_euler")
    (KNOWN_SAMPLERS hl)) as [js Hjs].
  { destruct (in_list sam (KNOWN_SAMPLERS hl)) eqn:E; [done | by apply k_euler_known]. }
  destruct (index_total
    (if negb (is_None (default (VStr "None") (p !! "control_type")))
     then default (VStr "None") (p !! "control_type") else VStr "None")
    (KNOWN_CONTROL_TYPES hl)) as [jct Hjct].
  { destruct (p !! "control_type") as [[]|]; simpl; try done; apply None_known. }
  destruct (index_total (default (VStr "txt2img") (info !! "source_processing"))
    (KNOWN_SOURCE_PROCESSING hl)) as [jsp Hjsp].
  { destruct (info !! "source_processing"); simpl; [done | apply txt2img_known]. }
  assert (∃ pps jpp,
    slice_all (default (VList []) (p !! "post_processing")) = Ok pps
    ∧ Forall2 (λ s j, index s KNOWN_POST_PROCESSORS = Ok j) pps jpp)
    as (pps & jpp & Hpps & Hjpp).
  { destruct (p !! "post_processing") as [[]|]; simpl; try discriminate.
    - match goal with H : forallb _ _ = true |- _ =>
        destruct (index_all_total _ _ H) as [jpp Hjpp] end. eauto.
    - exists [], []. split; [done | constructor]. }
  eexists. apply payload_to_tensor_Ok.
  by eapply (encoding_intro hl f payload info p row qs c sch sam pps
               jb js jsch jct jsp jpp).
Qed.

(** ** The dataset loader *)

Lemma label_getitem (payload t : value) :
  label payload = Some t → getitem payload "time_to_generate" = Ok t.
Proof.
  destruct payload; simpl; try discriminate. by intros ->.
Qed.

Lemma labelled_label (payload : value) :
  labelled payload = true →
  ∃ t, label payload = Some t ∧ is_None t = false.
Proof.
  unfold labelled. destruct (label payload) as [t|]; [| discriminate].
  intros H%negb_true_iff. eauto.
Qed.

Section Loader.
Context (hl : HordeLib) (f : string → option Q).

Lemma load_loop_Ok (ps : list value) (d : list (list Q)) (l : list value) :
  Forall (λ payload, is_Some (label payload)) ps →
  Forall (λ payload, ∃ t, payload_to_tensor hl f payload = Ok t) (kept ps) →
  ∃ rows,
    Forall2 (λ payload r, payload_to_tensor hl f payload = Ok [r]) (kept ps) rows
    ∧ load_loop hl f ps d l = Ok (d ++ rows, l ++ omap label (kept ps)).
Proof.
  revert d l. induction ps as [|payload ps IH]; intros d l Hlab Henc.
  - exists []. split; [constructor |]. simpl. by rewrite !app_nil_r.
  - apply Forall_cons in Hlab as [[t Ht] Hlab].
    unfold kept in *. cbn [List.filter] in *.
    cbn [load_loop]. rewrite (label_getitem _ _ Ht). cbn [mbind result_bind].
    unfold labelled in *. rewrite Ht in *.
    destruct (is_None t) eqn:Hnone; cbn [negb] in *.
    + by apply IH.
    + apply Forall_cons in Henc as [[x Hx] Henc].
      destruct (encoding_length hl f payload x) as (r & -> & Hr);
        [by apply payload_to_tensor_Ok |].
      rewrite Hx. cbn [mbind result_bind row0].
      destruct (IH (d ++ [r]) (l ++ [t]) Hlab Henc) as (rows & Hrows & ->).
      exists (r :: rows). split; [by constructor |].
      cbn [omap list_omap]. rewrite Ht. by rewrite <- !app_assoc.
Qed.

Lemma kept_rows_length (ps : list value) (rows : list (list Q)) :
  Forall2 (λ payload r, payload_to_tensor hl f payload = Ok [r]) ps rows →
  Forall (λ r, length r = feature_length hl) rows.
Proof.
  induction 1 as [|payload r ps rows Hr _ IH]; constructor; [| done].
  apply payload_to_tensor_Ok, encoding_length in Hr as (r' & [= <-] & Hlen). done.
Qed.

End Loader.




(** ** The architecture builder *)

Section Builder.
Context (trial : Trial).

Lemma builder_loop (layer_sizes : list nat) (idxs : list nat) (acc : list layer) :
  foldl
    (fun layers i =>
       let layers :=
         layers ++ [ Linear (nth i layer_sizes O) (nth (i + 1) layer_sizes O) true ] in
       if (i <? length layer_sizes - 2)%nat then
         let layers := layers ++ [ ReLU ] in
         if (0 <? i)%nat then
           let drop := suggest_float trial ("dropout_l" +:+ pretty i) (5 # 100) (2 # 10) in
           layers ++ [ Dropout drop ]
         else layers
       else layers)
    acc idxs
  = acc ++ concat (block trial layer_sizes <$> idxs).
Proof.
  revert acc. induction idxs as [|i idxs IH]; intros acc; simpl.
  - by rewrite app_nil_r.
  - rewrite IH. unfold block.
    destruct (i <? length layer_sizes - 2)%nat, (0 <? i)%nat; simpl;
      by rewrite <- ?app_assoc.
Qed.

Lemma blocks_feed_forward (rest : list nat) (pre : list nat) (w out : nat) :
  concat (block trial (pre ++ w :: rest ++ [out]) <$> seq (length pre) (length rest + 1))
  = feed_forward trial (length pre) w rest out.
Proof.
  revert pre w. induction rest as [|h rest IH]; intros pre w.
  - cbn [length Nat.add seq fmap list_fmap concat feed_forward app].
    rewrite app_nil_r. unfold block.
    destruct (Nat.ltb_spec (length pre) (length (pre ++ [w; out]) - 2))
      as [Hlt|_].
    { rewrite length_app in Hlt. cbn [length] in Hlt. lia. }
    rewrite app_nth2 by lia. rewrite app_nth2 by lia.
    replace (length pre - length pre)%nat with 0%nat by lia.
    replace (length pre + 1 - length pre)%nat with 1%nat by lia. done.
  - cbn [length Nat.add seq fmap list_fmap concat feed_forward app].
    specialize (IH (pre ++ [w]) h).
    rewrite <- app_assoc in IH. cbn [app] in IH.
    rewrite length_app in IH. cbn [length] in IH.
    replace (length pre + 1)%nat with (S (length pre)) in IH by lia.
    rewrite IH. unfold block at 1.
    destruct (Nat.ltb_spec (length pre) (length (pre ++ w :: h :: rest ++ [out]) - 2))
      as [_|Hge]; cycle 1.
    { rewrite length_app in Hge. cbn [length] in Hge.
      rewrite length_app in Hge. cbn [length] in Hge. lia. }
    rewrite app_nth2 by lia. rewrite app_nth2 by lia.
    replace (length pre - length pre)%nat with 0%nat by lia.
    replace (length pre + 1 - length pre)%nat with 1%nat by lia.
    cbn [nth]. by destruct (0 <? length pre)%nat.
Qed.

Lemma create_sequential_model_feed_forward (hidden : list nat) (input_size output_size : nat) :
  create_sequential_model trial hidden input_size output_size
  = feed_forward trial 0 input_size hidden output_size.
Proof.
  unfold create_sequential_model. rewrite builder_loop. cbn [app].
  cbn [length]. rewrite length_app. cbn [length].
  replace (S (length hidden + 1) - 1)%nat with (length hidden + 1)%nat by lia.
  apply (blocks_feed_forward hidden [] input_size output_size).
Qed.

Lemma feed_forward_linear (hidden : list nat) (i w out : nat) :
  List.filter is_linear (feed_forward trial i w hidden out)
  = (λ ab, Linear ab.1 ab.2 true) <$> width_pairs (w :: hidden ++ [out]).
Proof.
  revert i w. induction hidden as [|h hidden IH]; intros i w; [done |].
  cbn [feed_forward]. destruct (0 <? i)%nat; cbn [app List.filter is_linear];
    rewrite IH; done.
Qed.

Lemma feed_forward_relu (hidden : list nat) (i w out : nat) :
  length (List.filter is_relu (feed_forward trial i w hidden out)) = length hidden.
Proof.
  revert i w. induction hidden as [|h hidden IH]; intros i w; [done |].
  cbn [feed_forward]. destruct (0 <? i)%nat; cbn [app List.filter is_relu is_linear length];
    by rewrite IH.
Qed.

Lemma feed_forward_dropout (hidden : list nat) (i w out : nat) :
  length (List.filter is_dropout (feed_forward trial i w hidden out))
  = if (0 <? i)%nat then length hidden else (length hidden - 1)%nat.
Proof.
  revert i w. induction hidden as [|h hidden IH]; intros i w.
  - by destruct (0 <? i)%nat.
  - cbn [feed_forward]. destruct i as [|i]; cbn [Nat.ltb Nat.leb app List.filter is_dropout length];
      rewrite IH; cbn [Nat.ltb Nat.leb]; lia.
Qed.

Lemma feed_forward_last (hidden : list nat) (i w out : nat) :
  ∃ a, last (feed_forward trial i w hidden out) = Some (Linear a out true).
Proof.
  revert i w. induction hidden as [|h hidden IH]; intros i w; [by exists w |].
  destruct (IH (S i) h) as [a Ha]. exists a.
  cbn [feed_forward]. rewrite !last_cons.
  destruct (0 <? i)%nat; cbn [app]; rewrite ?last_cons, Ha; done.
Qed.

End Builder.

(** ** Rounding to two decimals *)

Lemma round_half_even_near (q : Q) :
  (inject_Z (round_half_even q) - (1 # 2) <= q
   ∧ q <= inject_Z (round_half_even q) + (1 # 2))%Q.
Proof.
  unfold round_half_even.
  pose proof (Qfloor_le q) as Hlo. pose proof (Qlt_floor q) as Hhi.
  rewrite inject_Z_plus in Hhi. change (inject_Z 1) with 1%Q in Hhi.
  destruct (q - inject_Z (Qfloor q) ?= 1 # 2)%Q eqn:E.
  - apply Qeq_alt in E.
    destruct (Z.even (Qfloor q)); [| rewrite inject_Z_plus; change (inject_Z 1) with 1%Q];
      split; lra.
  - apply Qlt_alt in E. split; lra.
  - apply Qgt_alt in E. rewrite inject_Z_plus. change (inject_Z 1) with 1%Q. split; lra.
Qed.

Lemma round_half_even_negative (q : Q) :
  (q < -(1 # 2))%Q → (round_half_even q < 0)%Z.
Proof.
  intros Hq. destruct (round_half_even_near q) as [Hlo _].
  assert (inject_Z (round_half_even q) < inject_Z 0)%Q as H.
  { change (inject_Z 0) with 0%Q. lra. }
  by rewrite <- Zlt_Qlt in H.
Qed.

Lemma Qmake_100 (k : Z) : (k # 100 == inject_Z k * (1 # 100))%Q.
Proof. unfold Qeq, Qmult, inject_Z. simpl. lia. Qed.

Lemma round2_near (y : Q) :
  (y - (1 # 200) <= round2 y ∧ round2 y <= y + (1 # 200))%Q.
Proof.
  unfold round2. rewrite Qmake_100.
  destruct (round_half_even_near (y * 100)) as [Hlo Hhi]. split; lra.
Qed.

Lemma round2_negative (y : Q) :
  (y < -(1 # 200))%Q → (round2 y < 0)%Q.
Proof.
  intros Hy. unfold round2.
  assert (round_half_even (y * 100) < 0)%Z as H by (apply round_half_even_negative; lra).
  unfold Qlt. simpl. lia.
Qed.

(** ** The epoch loop *)

Section Epochs.
Context {State : Type} (train_epoch : State → State)
  (validate_epoch : State → list Q * State).

Lemma epoch_loop_step (n : nat) (st st' : State) (total_loss : option Q)
    (losses : list Q) :
  validate_epoch (train_epoch st) = (losses, st') → losses ≠ [] →
  epoch_loop train_epoch validate_epoch (S n) st total_loss
  = epoch_loop train_epoch validate_epoch n st' (Some (round2 (mean_loss losses))).
Proof.
  intros E Hne. cbn [epoch_loop]. rewrite E.
  destruct losses as [|l losses]; [done |]. reflexivity.
Qed.

Lemma epoch_loop_last (n : nat) (st : State) (total_loss : option Q) :
  (∀ s, (validate_epoch s).1 ≠ []) →
  epoch_loop train_epoch validate_epoch (S n) st total_loss
  = Ok (Some (round2 (mean_loss
          (validate_epoch (train_epoch (after_epochs train_epoch validate_epoch n st))).1)),
        after_epochs train_epoch validate_epoch (S n) st).
Proof.
  intros Hne. revert st total_loss. induction n as [|n IH]; intros st total_loss.
  - pose proof (Hne (train_epoch st)) as Hst.
    destruct (validate_epoch (train_epoch st)) as [losses st'] eqn:E.
    rewrite (epoch_loop_step _ _ _ _ _ E Hst).
    unfold after_epochs. cbn [Nat.iter nat_rect epoch_loop]. by rewrite E.
  - pose proof (Hne (train_epoch st)) as Hst.
    destruct (validate_epoch (train_epoch st)) as [losses st'] eqn:E.
    rewrite (epoch_loop_step _ _ _ _ _ E Hst), IH.
    unfold after_epochs.
    rewrite !Nat.iter_succ_r. cbv beta. by rewrite E.
Qed.

End Epochs.

(** ** Defaults of the absent optional fields *)

Lemma default_entry f (p : gmap string value) (i : nat) (k : string) (d : Q) :
  (i, k, d) ∈ OPTIONAL_DEFAULTS → p !! k = None →
  numeric_entries f (VDict p) !! i = Some (Ok (VFloat d)).
Proof.
  unfold OPTIONAL_DEFAULTS. intros Hin Hk.
  repeat (apply elem_of_cons in Hin as [[= -> -> ->]|Hin];
          [ cbn [numeric_entries lookup list_lookup];
            unfold strength, count, flag, order_flag; cbn [dict_get];
            rewrite Hk; reflexivity | ]).
  by apply elem_of_nil in Hin.
Qed.

(** The blocks of a successful encoding and what stands in them for the
    optional fields that are absent. *)
Lemma encoding_blocks hl f payload t :
  encoding hl f payload t →
  ∃ (info p : gmap string value)
    (numeric baseline sampler scheduler control source post : list Q),
    job_info payload = Some info ∧ job_payload payload = Some p
    ∧ t = [ numeric ++ baseline ++ sampler ++ scheduler ++ control ++ source ++ post ]
    ∧ (length numeric = NUMERIC_FIELDS
       ∧ length baseline = length KNOWN_MODEL_BASELINES
       ∧ length sampler = length (KNOWN_SAMPLERS hl)
       ∧ length scheduler = length KNOWN_SCHEDULERS
       ∧ length control = length (KNOWN_CONTROL_TYPES hl)
       ∧ length source = length (KNOWN_SOURCE_PROCESSING hl)
       ∧ length post = length KNOWN_POST_PROCESSORS)
    ∧ (∀ i k d, (i, k, d) ∈ OPTIONAL_DEFAULTS → p !! k = None →
                numeric !! i = Some d)
    ∧ (p !! "control_type" = None →
       ∃ j, KNOWN_CONTROL_TYPES hl !! j = Some "None"
            ∧ control = one_hot_row j (length (KNOWN_CONTROL_TYPES hl)))
    ∧ (info !! "source_processing" = None →
       ∃ j, KNOWN_SOURCE_PROCESSING hl !! j = Some "txt2img"
            ∧ source = one_hot_row j (length (KNOWN_SOURCE_PROCESSING hl)))
    ∧ (p !! "post_processing" = None →
       post = replicate (length KNOWN_POST_PROCESSORS) 0%Q).
Proof.
  intros [info p row qs c sch sam pps jb js jsch jct jsp jpp
            Hinfo Hp Hrow Hqs _ _ _ _ _ _ Hjct Hjsp Hpps Hjpp].
  exists info, p. do 7 eexists. split_and!; [done | done | reflexivity | ..];
    try apply one_hot_row_length; try apply multi_hot_length.
  - apply Forall2_length in Hqs. apply numeric_row_length in Hrow. lia.
  - intros i k d Hin Hk. apply sequence_Ok in Hrow.
    destruct (Forall2_lookup_l _ _ _ _ _ Hrow (default_entry f p i k d Hin Hk))
      as (x & Hx & [= <-]).
    destruct (Forall2_lookup_l _ _ _ _ _ Hqs Hx) as (q & Hq & [= <-]). done.
  - intros Hk. rewrite Hk in Hjct. cbn in Hjct.
    apply index_Ok in Hjct as (s & [= <-] & Hs & _). eauto.
  - intros Hk. rewrite Hk in Hjsp. cbn in Hjsp.
    apply index_Ok in Hjsp as (s & [= <-] & Hs & _). eauto.
  - intros Hk. rewrite Hk in Hpps. cbn in Hpps. injection Hpps as <-.
    inversion Hjpp; subst. reflexivity.
Qed.

(** ** The claims *)

(** C1 (as amended).  On every well-formed request record -- the job-info
    and payload objects, [height], [width], [ddim_steps] and [cfg_scale]
    holding numbers (a boolean, a float, or an integer within the float
    range), [model_baseline], [sampler_name] and an in-vocabulary
    [scheduler] present, every optional numeric field absent (or null, for
    the three strengths) or holding such a number, and [control_type],
    [source_processing] and the post-processors absent or in vocabulary --
    the encoder returns one row of the fixed length [feature_length], made
    of the numeric block and one block per vocabulary, in order; each
    absent optional field is encoded by its default: the value listed in
    [OPTIONAL_DEFAULTS], the category "None" for the control type,
    "txt2img" for the source processing, no post-processor.  The table of
    samplers is assumed to hold the fallback sampler "k_euler". *)
Theorem payload_to_tensor_total_on_well_formed hl f payload :
  "k_euler" ∈ SAMPLERS_MAP hl →
  well_formed hl payload = true →
  ∃ (info p : gmap string value)
    (numeric baseline sampler scheduler control source post : list Q),
    job_info payload = Some info ∧ job_payload payload = Some p
    ∧ payload_to_tensor hl f payload
      = Ok [ numeric ++ baseline ++ sampler ++ scheduler ++ control ++ source ++ post ]
    ∧ length (numeric ++ baseline ++ sampler ++ scheduler ++ control ++ source ++ post)
      = feature_length hl
    ∧ (length numeric = NUMERIC_FIELDS
       ∧ length baseline = length KNOWN_MODEL_BASELINES
       ∧ length sampler = length (KNOWN_SAMPLERS hl)
       ∧ length scheduler = length KNOWN_SCHEDULERS
       ∧ length control = length (KNOWN_CONTROL_TYPES hl)
       ∧ length source = length (KNOWN_SOURCE_PROCESSING hl)
       ∧ length post = length KNOWN_POST_PROCESSORS)
    ∧ (∀ i k d, (i, k, d) ∈ OPTIONAL_DEFAULTS → p !! k = None →
                numeric !! i = Some d)
    ∧ (p !! "control_type" = None →
       ∃ j, KNOWN_CONTROL_TYPES hl !! j = Some "None"
            ∧ control = one_hot_row j (length (KNOWN_CONTROL_TYPES hl)))
    ∧ (info !! "source_processing" = None →
       ∃ j, KNOWN_SOURCE_PROCESSING hl !! j = Some "txt2img"
            ∧ source = one_hot_row j (length (KNOWN_SOURCE_PROCESSING hl)))
    ∧ (p !! "post_processing" = None →
       post = replicate (length KNOWN_POST_PROCESSORS) 0%Q).
Proof.
  intros Hk Hwf.
  destruct (payload_to_tensor_total hl f payload Hk Hwf) as [t Ht].
  pose proof Ht as Henc. apply payload_to_tensor_Ok in Henc.
  destruct (encoding_length _ _ _ _ Henc) as (row & Hrow & Hlen).
  destruct (encoding_blocks _ _ _ _ Henc)
    as (info & p & numeric & baseline & sampler & scheduler & control & source
        & post & Hinfo & Hp & -> & Hlens & Hdef & Hct & Hsp & Hpp).
  injection Hrow as <-. destruct Hlens as (? & ? & ? & ? & ? & ? & ?).
  exists info, p, numeric, baseline, sampler, scheduler, control, source, post.
  split_and!; done.
Qed.

Lemma payload_to_tensor_total_on_well_formed_witness :
  well_formed Examples.hordelib Examples.minimal_record = true
  ∧ ∃ row, payload_to_tensor Examples.hordelib Examples.str_to_float
             Examples.minimal_record = Ok [ row ]
           ∧ length row = feature_length Examples.hordelib.
Proof.
  split; [vm_compute; reflexivity |].
  destruct (payload_to_tensor_total_on_well_formed Examples.hordelib
              Examples.str_to_float Examples.minimal_record)
    as (info & p & numeric & baseline & sampler & scheduler & control & source
        & post & _ & _ & Ht & Hlen & _).
  - apply list_elem_of_here.
  - vm_compute; reflexivity.
  - eauto.
Defined.

(** C1 (counterexample).  A record whose payload has no [height] makes
    the encoder raise [KeyError]. *)
Lemma payload_to_tensor_missing_height_raises :
  payload_to_tensor Examples.hordelib Examples.str_to_float
    Examples.record_without_height = Raise (KeyError "height").
Proof. vm_compute. reflexivity. Qed.

(** C2.  The encoder at records that carry one out-of-vocabulary
    categorical value: an unknown model baseline and an unknown sampler
    are encoded as their fallback category; an unknown scheduler, control
    type or source-processing mode raises [ValueError]. *)
Theorem payload_to_tensor_unknown_category :
  payload_to_tensor Examples.hordelib Examples.str_to_float Examples.unknown_baseline
  = payload_to_tensor Examples.hordelib Examples.str_to_float Examples.minimal_record
  ∧ payload_to_tensor Examples.hordelib Examples.str_to_float Examples.unknown_sampler
    = payload_to_tensor Examples.hordelib Examples.str_to_float Examples.fallback_sampler
  ∧ (∃ t, payload_to_tensor Examples.hordelib Examples.str_to_float
            Examples.fallback_sampler = Ok t)
  ∧ payload_to_tensor Examples.hordelib Examples.str_to_float Examples.unknown_scheduler
    = Raise ValueError
  ∧ payload_to_tensor Examples.hordelib Examples.str_to_float Examples.unknown_control_type
    = Raise ValueError
  ∧ payload_to_tensor Examples.hordelib Examples.str_to_float
      Examples.unknown_source_processing
    = Raise ValueError.
Proof.
  split_and!; try (vm_compute; reflexivity).
  eexists. vm_compute. reflexivity.
Qed.

Lemma PAYLOAD_EXAMPLE_well_formed hl :
  "img2img" ∈ SOURCE_IMAGE_PROCESSING_OPTIONS hl →
  well_formed hl PAYLOAD_EXAMPLE = true.
Proof.
  intros Hi. unfold well_formed.
  change (job_info PAYLOAD_EXAMPLE) with (Some PAYLOAD_EXAMPLE_job_info).
  change (job_payload PAYLOAD_EXAMPLE) with (Some PAYLOAD_EXAMPLE_payload).
  repeat (apply andb_true_intro; split); try (vm_compute; reflexivity).
  change (PAYLOAD_EXAMPLE_job_info !! "source_processing")
    with (Some (VStr "img2img")).
  apply in_list_str. unfold KNOWN_SOURCE_PROCESSING.
    rewrite sorted_elem, elem_of_app. by left.
Qed.




(** C4.  In every vector the encoder returns, the entry of each flag of
    [BOOLEAN_FLAGS] (positions 14 to 21) is 1.0 when the flag is absent
    from the payload, and otherwise 1.0 or 0.0 by the truth value of what
    the payload holds. *)
Theorem flags_default_to_true hl f payload t :
  payload_to_tensor hl f payload = Ok t →
  ∃ p row, job_payload payload = Some p ∧ t = [ row ]
    ∧ ∀ i k, BOOLEAN_FLAGS !! i = Some k →
        row !! (14 + i)%nat
        = Some (match p !! k with
                | None => 1%Q
                | Some v => if truth v then 1%Q else 0%Q
                end).
Proof.
  intros H%payload_to_tensor_Ok. exact (encoding_flags hl f payload t H).
Qed.

Lemma flags_default_to_true_witness :
  payload_to_tensor Examples.hordelib Examples.str_to_float Examples.flagged_record
  = Ok Examples.flagged_features
  ∧ ∃ p row, job_payload Examples.flagged_record = Some p
      ∧ Examples.flagged_features = [ row ]
      ∧ ∀ i k, BOOLEAN_FLAGS !! i = Some k →
          row !! (14 + i)%nat
          = Some (match p !! k with
                  | None => 1%Q
                  | Some v => if truth v then 1%Q else 0%Q
                  end).
Proof.
  split; [vm_compute; reflexivity |].
  apply (flags_default_to_true Examples.hordelib Examples.str_to_float
           Examples.flagged_record).
  vm_compute. reflexivity.
Defined.

(** C5.  The multi-hot block is the sum of one one-hot row per list
    entry: position [k] holds the number of entries whose vocabulary index
    is [k]; the list ["GFPGAN"; "GFPGAN"] gives 2.0 at the GFPGAN position
    and 0.0 elsewhere. *)
Theorem one_hot_encode_combined_counts (strings : list value)
    (unique_strings : list string) (t : tensor2) :
  one_hot_encode_combined strings unique_strings = Ok t →
  (∃ js row,
     Forall2 (λ s j, index s unique_strings = Ok j) strings js
     ∧ one_hot_encode strings unique_strings
       = Ok ((λ j, one_hot_row j (length unique_strings)) <$> js)
     ∧ t = sum_dim0 (length unique_strings)
             ((λ j, one_hot_row j (length unique_strings)) <$> js)
     ∧ t = [ row ] ∧ length row = length unique_strings
     ∧ ∀ k, (k < length unique_strings)%nat →
            row !! k = Some (inject_Z (Z.of_nat (occurrences k js))))
  ∧ one_hot_encode_combined [ VStr "GFPGAN"; VStr "GFPGAN" ] KNOWN_POST_PROCESSORS
    = Ok [ [ 0; 0; 0; 0; 0; 0; 2; 0 ]%Q ].
Proof.
  intros H. split; [| vm_compute; reflexivity].
  apply one_hot_encode_combined_Ok in H as (js & Hjs & ->).
  destruct (sum_dim0_one_hot js (length unique_strings)) as (row & Hrow & Hlen & Hk).
  exists js, row. split_and!; try done.
  apply one_hot_encode_Ok. eauto.
Qed.

Lemma one_hot_encode_combined_counts_witness :
  ∃ js row,
    Forall2 (λ s j, index s KNOWN_POST_PROCESSORS = Ok j)
      [ VStr "GFPGAN"; VStr "CodeFormers"; VStr "GFPGAN" ] js
    ∧ [ [ 0; 0; 0; 0; 0; 0; 2; 1 ]%Q ] = [ row ]
    ∧ ∀ k, (k < 8)%nat → row !! k = Some (inject_Z (Z.of_nat (occurrences k js))).
Proof.
  destruct (one_hot_encode_combined_counts
              [ VStr "GFPGAN"; VStr "CodeFormers"; VStr "GFPGAN" ]
              KNOWN_POST_PROCESSORS [ [ 0; 0; 0; 0; 0; 0; 2; 1 ]%Q ])
    as [(js & row & Hjs & _ & _ & Hrow & _ & Hk) _].
  - vm_compute. reflexivity.
  - exists js, row. split_and!; [exact Hjs | exact Hrow | exact Hk].
Defined.

(** C8.  Every vector the encoder returns has the same length,
    [feature_length]: the 23 numeric entries plus the sizes of the six
    vocabularies; the input width the objective computes from
    [PAYLOAD_EXAMPLE] is that length, given that the tables of [HordeLib]
    hold the sampler "k_euler" and the source processing "img2img" of the
    example. *)
Theorem feature_length_invariant hl f :
  "k_euler" ∈ SAMPLERS_MAP hl →
  "img2img" ∈ SOURCE_IMAGE_PROCESSING_OPTIONS hl →
  (∀ payload t, payload_to_tensor hl f payload = Ok t →
     ∃ row, t = [ row ] ∧ length row = feature_length hl)
  ∧ feature_length hl
    = (23 + length KNOWN_MODEL_BASELINES + length (KNOWN_SAMPLERS hl)
       + length KNOWN_SCHEDULERS + length (KNOWN_CONTROL_TYPES hl)
       + length (KNOWN_SOURCE_PROCESSING hl) + length KNOWN_POST_PROCESSORS)%nat
  ∧ objective_input_size hl f = Ok (feature_length hl).
Proof.
  intros Hk Hi. split_and!.
  - intros payload t H%payload_to_tensor_Ok. by eapply encoding_length.
  - reflexivity.
  - unfold objective_input_size.
    destruct (payload_to_tensor_total hl f PAYLOAD_EXAMPLE Hk) as [t Ht].
    { by apply PAYLOAD_EXAMPLE_well_formed. }
    rewrite Ht. apply payload_to_tensor_Ok, encoding_length in Ht as (row & -> & Hlen).
    simpl. by rewrite Hlen.
Qed.

Lemma feature_length_invariant_witness :
  objective_input_size Examples.hordelib Examples.str_to_float = Ok 58%nat.
Proof.
  refine (proj2 (proj2 (feature_length_invariant Examples.hordelib
                          Examples.str_to_float _ _))).
  - apply list_elem_of_here.
  - apply list_elem_of_here.
Defined.

(** C10.  The entry of [hires_fix_denoising_strength] (position 15) is a
    truth value, not a magnitude: 1.0 when the field is absent, 0.0 when
    it holds null or a zero, 1.0 for every other number. *)
Theorem hires_fix_denoising_strength_truthiness hl f payload t :
  payload_to_tensor hl f payload = Ok t →
  ∃ p row, job_payload payload = Some p ∧ t = [ row ]
    ∧ (p !! "hires_fix_denoising_strength" = None → row !! 15%nat = Some 1%Q)
    ∧ (p !! "hires_fix_denoising_strength" = Some VNone → row !! 15%nat = Some 0%Q)
    ∧ (∀ q, p !! "hires_fix_denoising_strength" = Some (VFloat q) →
            row !! 15%nat = Some (if Qeq_bool q 0 then 0%Q else 1%Q))
    ∧ (∀ z, p !! "hires_fix_denoising_strength" = Some (VInt z) →
            row !! 15%nat = Some (if (z =? 0)%Z then 0%Q else 1%Q)).
Proof.
  intros H%payload_to_tensor_Ok.
  destruct (encoding_flags hl f payload t H) as (p & row & Hp & -> & Hflags).
  pose proof (Hflags 1%nat "hires_fix_denoising_strength" eq_refl) as H15.
  change (14 + 1)%nat with 15%nat in H15.
  exists p, row. split_and!; try done.
  - intros Hk. by rewrite H15, Hk.
  - intros Hk. by rewrite H15, Hk.
  - intros q Hk. rewrite H15, Hk.
    cbn [flag_value truth]. unfold Qeq_bool. cbn [Qnum Qden].
    rewrite Z.mul_1_r, Z.mul_0_l. by destruct (Qnum q =? 0)%Z.
  - intros z Hk. rewrite H15, Hk.
    cbn [flag_value truth]. by destruct (z =? 0)%Z.
Qed.

Lemma hires_fix_denoising_strength_truthiness_witness :
  payload_to_tensor Examples.hordelib Examples.str_to_float
    Examples.zero_strength_record = Ok Examples.zero_strength_features
  ∧ ∃ p row, job_payload Examples.zero_strength_record = Some p
      ∧ Examples.zero_strength_features = [ row ]
      ∧ (p !! "hires_fix_denoising_strength" = None → row !! 15%nat = Some 1%Q)
      ∧ (p !! "hires_fix_denoising_strength" = Some VNone → row !! 15%nat = Some 0%Q)
      ∧ (∀ q, p !! "hires_fix_denoising_strength" = Some (VFloat q) →
              row !! 15%nat = Some (if Qeq_bool q 0 then 0%Q else 1%Q))
      ∧ (∀ z, p !! "hires_fix_denoising_strength" = Some (VInt z) →
              row !! 15%nat = Some (if (z =? 0)%Z then 0%Q else 1%Q)).
Proof.
  split; [vm_compute; reflexivity |].
  apply (hires_fix_denoising_strength_truthiness Examples.hordelib
           Examples.str_to_float Examples.zero_strength_record).
  vm_compute. reflexivity.
Defined.

(** C6 (as amended).  The builder returns the feed-forward network of the
    hidden widths: one linear layer per consecutive pair of widths, each
    with the default bias term, a ReLU after every hidden layer and none
    after the output layer, a dropout after every hidden layer but the
    first, and a last layer that is the linear layer into the output
    width; with no hidden width it is the single linear layer from the
    input width to the output width. *)
Theorem create_sequential_model_layers (trial : Trial) (hidden : list nat)
    (input_size output_size : nat) :
  let model := create_sequential_model trial hidden input_size output_size in
  model = feed_forward trial 0 input_size hidden output_size
  ∧ List.filter is_linear model
    = (λ ab, Linear ab.1 ab.2 true)
      <$> width_pairs (input_size :: hidden ++ [ output_size ])
  ∧ length (List.filter is_relu model) = length hidden
  ∧ length (List.filter is_dropout model) = (length hidden - 1)%nat
  ∧ (∃ a, last model = Some (Linear a output_size true))
  ∧ create_sequential_model trial [] input_size output_size
    = [ Linear input_size output_size true ].
Proof.
  cbn zeta. rewrite create_sequential_model_feed_forward. split_and!.
  - reflexivity.
  - apply feed_forward_linear.
  - apply feed_forward_relu.
  - apply (feed_forward_dropout trial hidden 0).
  - apply feed_forward_last.
  - reflexivity.
Qed.

(** C6 (counterexample).  The final layer is built with a bias term. *)
Lemma create_sequential_model_final_layer_has_bias :
  last (create_sequential_model Examples.trial [ 8; 4 ]%nat 58 1)
  = Some (Linear 4 1 true)
  ∧ create_sequential_model Examples.trial [] 58 1 = [ Linear 58 1 true ].
Proof. split; vm_compute; reflexivity. Qed.

(** C7.  With a validation loader that is not empty, the value the
    objective returns after [n + 1] epochs is the rounded mean of the batch
    losses of the last validation pass, whatever the earlier passes gave;
    on a run whose loss rises by one each epoch it is 3.0 after three
    epochs, not the 1.0 of the first. *)
Theorem objective_score_is_last_epoch {State : Type} (train_epoch : State → State)
    (validate_epoch : State → list Q * State) (n : nat) (st : State) :
  (∀ s, (validate_epoch s).1 ≠ []) →
  objective_score train_epoch validate_epoch (S n) st
  = Ok (Some (round2 (mean_loss
          (validate_epoch
             (train_epoch (after_epochs train_epoch validate_epoch n st))).1)))
  ∧ objective_score Examples.rising_train Examples.rising_validate 1 0%nat
    = Ok (Some (100 # 100))
  ∧ objective_score Examples.rising_train Examples.rising_validate 3 0%nat
    = Ok (Some (300 # 100)).
Proof.
  intros Hne. split_and!; [| vm_compute; reflexivity..].
  unfold objective_score. by rewrite epoch_loop_last.
Qed.

Lemma objective_score_is_last_epoch_witness :
  objective_score Examples.rising_train Examples.rising_validate 3 0%nat
  = Ok (Some (round2 (mean_loss
          (Examples.rising_validate
             (Examples.rising_train
                (after_epochs Examples.rising_train Examples.rising_validate 2 0%nat))).1))).
Proof.
  refine (proj1 (objective_score_is_last_epoch Examples.rising_train
                   Examples.rising_validate 2 0%nat _)).
  intros s. vm_compute. discriminate.
Defined.

(** C9.  When the encoder returns a tensor and the network a single
    output [y] on it, the helper returns [y] rounded to two decimals -- a
    multiple of 1/100 within 1/200 of [y] -- with no clamping: the result
    is negative whenever [y] is below -1/200. *)
Theorem payload_to_time_rounds hl f (model : list Q → result (list Q))
    (payload : value) (t : tensor2) (y : Q) :
  payload_to_tensor hl f payload = Ok t →
  model (squeeze t) = Ok [ y ] →
  payload_to_time hl f model payload = Ok (round2 y)
  ∧ (∃ k : Z, round2 y = k # 100)
  ∧ (y - (1 # 200) <= round2 y)%Q ∧ (round2 y <= y + (1 # 200))%Q
  ∧ ((y < - (1 # 200))%Q → (round2 y < 0)%Q).
Proof.
  intros Ht Hy. split_and!.
  - unfold payload_to_time. rewrite Ht. cbn [mbind result_bind]. by rewrite Hy.
  - by eexists.
  - apply round2_near.
  - apply round2_near.
  - apply round2_negative.
Qed.

Lemma payload_to_time_rounds_witness :
  payload_to_time Examples.hordelib Examples.str_to_float Examples.negative_model
    PAYLOAD_EXAMPLE = Ok (- 205 # 100)
  ∧ (round2 Examples.negative_output < 0)%Q.
Proof.
  destruct (payload_to_time_rounds Examples.hordelib Examples.str_to_float
              Examples.negative_model PAYLOAD_EXAMPLE Examples.example_features
              Examples.negative_output)
    as (Htime & _ & _ & _ & Hneg).
  - vm_compute. reflexivity.
  - vm_compute. reflexivity.
  - split; [exact Htime |]. apply Hneg. vm_compute. reflexivity.
Defined.

(** * Further properties of the code *)

(** ** What the encoder reads of a record *)

Lemma job_payload_lookup (payload : value) (info p : gmap string value) :
  job_info payload = Some info → job_payload payload = Some p →
  ∃ m, payload = VDict m ∧ m !! "sdk_api_job_info" = Some (VDict info)
       ∧ info !! "payload" = Some (VDict p).
Proof.
  intros Hinfo Hp. unfold job_payload in Hp. rewrite Hinfo in Hp. cbn in Hp.
  unfold job_info in Hinfo.
  destruct payload as [| | | | | |m]; try discriminate.
  destruct (m !! "sdk_api_job_info") as [[| | | | | |info']|] eqn:Hm; try discriminate.
  injection Hinfo as ->.
  destruct (info !! "payload") as [[| | | | | |p']|] eqn:Hip; try discriminate.
  injection Hp as ->. eauto.
Qed.

Lemma scaled_ext (p p' : gmap string value) (k : string) (d : Z) :
  p !! k = p' !! k → scaled (VDict p) k d = scaled (VDict p') k d.
Proof. unfold scaled. cbn. by intros ->. Qed.

Lemma count_ext f (p p' : gmap string value) (k : string) (d : Q) :
  p !! k = p' !! k → count f (VDict p) k d = count f (VDict p') k d.
Proof. unfold count. cbn. by intros ->. Qed.

Lemma flag_ext (p p' : gmap string value) (k : string) :
  p !! k = p' !! k → flag (VDict p) k = flag (VDict p') k.
Proof. unfold flag. cbn. by intros ->. Qed.

Lemma order_flag_ext (p p' : gmap string value) :
  p !! "post_processing_order" = p' !! "post_processing_order" →
  order_flag (VDict p) = order_flag (VDict p').
Proof. unfold order_flag. cbn. by intros ->. Qed.

Lemma strength_ext (p p' : gmap string value) (k : string) :
  null_view (p !! k) = null_view (p' !! k) →
  strength (VDict p) k = strength (VDict p') k.
Proof.
  unfold strength. cbn.
  destruct (p !! k) as [[]|], (p' !! k) as [[]|]; cbn; intros [=]; subst; reflexivity.
Qed.

Ltac in_keys := solve [ repeat constructor ].

Lemma numeric_row_ext f (p p' : gmap string value) :
  (∀ k, k ∈ PAYLOAD_KEYS → field_view k (p !! k) = field_view k (p' !! k)) →
  numeric_row f (VDict p) = numeric_row f (VDict p').
Proof.
  intros H. unfold numeric_row, numeric_entries.
  rewrite (scaled_ext p p' "height") by exact (H "height" ltac:(in_keys)).
  rewrite (scaled_ext p p' "width") by exact (H "width" ltac:(in_keys)).
  rewrite (scaled_ext p p' "ddim_steps") by exact (H "ddim_steps" ltac:(in_keys)).
  rewrite (scaled_ext p p' "cfg_scale") by exact (H "cfg_scale" ltac:(in_keys)).
  rewrite (strength_ext p p' "denoising_strength")
    by exact (H "denoising_strength" ltac:(in_keys)).
  rewrite (strength_ext p p' "control_strength")
    by exact (H "control_strength" ltac:(in_keys)).
  rewrite (strength_ext p p' "facefixer_strength")
    by exact (H "facefixer_strength" ltac:(in_keys)).
  rewrite (count_ext f p p' "clip_skip") by exact (H "clip_skip" ltac:(in_keys)).
  rewrite (count_ext f p p' "lora_count") by exact (H "lora_count" ltac:(in_keys)).
  rewrite (count_ext f p p' "ti_count") by exact (H "ti_count" ltac:(in_keys)).
  rewrite (count_ext f p p' "extra_source_images_count")
    by exact (H "extra_source_images_count" ltac:(in_keys)).
  rewrite (count_ext f p p' "extra_source_images_combined_size")
    by exact (H "extra_source_images_combined_size" ltac:(in_keys)).
  rewrite (count_ext f p p' "source_image_size")
    by exact (H "source_image_size" ltac:(in_keys)).
  rewrite (count_ext f p p' "source_mask_size")
    by exact (H "source_mask_size" ltac:(in_keys)).
  rewrite (flag_ext p p' "hires_fix") by exact (H "hires_fix" ltac:(in_keys)).
  rewrite (flag_ext p p' "hires_fix_denoising_strength")
    by exact (H "hires_fix_denoising_strength" ltac:(in_keys)).
  rewrite (flag_ext p p' "image_is_control")
    by exact (H "image_is_control" ltac:(in_keys)).
  rewrite (flag_ext p p' "return_control_map")
    by exact (H "return_control_map" ltac:(in_keys)).
  rewrite (flag_ext p p' "transparent") by exact (H "transparent" ltac:(in_keys)).
  rewrite (flag_ext p p' "source_image") by exact (H "source_image" ltac:(in_keys)).
  rewrite (flag_ext p p' "source_mask") by exact (H "source_mask" ltac:(in_keys)).
  rewrite (flag_ext p p' "tiling") by exact (H "tiling" ltac:(in_keys)).
  rewrite (order_flag_ext p p')
    by exact (H "post_processing_order" ltac:(in_keys)).
  reflexivity.
Qed.

(** X1.  The encoder reads a record only through the keys of [INFO_KEYS]
    and [PAYLOAD_KEYS], and reads a null in a nullable field like the
    absence of the field: two records that agree on these encode alike,
    to the same vector or the same exception. *)
Theorem payload_to_tensor_reads_only hl f (payload payload' : value)
    (info info' p p' : gmap string value) :
  job_info payload = Some info → job_payload payload = Some p →
  job_info payload' = Some info' → job_payload payload' = Some p' →
  (∀ k, k ∈ INFO_KEYS → info !! k = info' !! k) →
  (∀ k, k ∈ PAYLOAD_KEYS → field_view k (p !! k) = field_view k (p' !! k)) →
  payload_to_tensor hl f payload = payload_to_tensor hl f payload'.
Proof.
  intros Hinfo Hp Hinfo' Hp' Hi Hk.
  destruct (job_payload_lookup _ _ _ Hinfo Hp) as (m & -> & Hm & Hip).
  destruct (job_payload_lookup _ _ _ Hinfo' Hp') as (m' & -> & Hm' & Hip').
  unfold payload_to_tensor. cbn [getitem]. rewrite Hm, Hm'.
  cbn [mbind result_bind getitem]. rewrite Hip, Hip'.
  cbn [mbind result_bind getitem dict_get].
  rewrite (numeric_row_ext f p p' Hk).
  rewrite (Hi "model_baseline" ltac:(in_keys)).
  rewrite (Hi "source_processing" ltac:(in_keys)).
  pose proof (Hk "scheduler" ltac:(in_keys)) as Hsch. cbn in Hsch. rewrite Hsch.
  pose proof (Hk "sampler_name" ltac:(in_keys)) as Hsam. cbn in Hsam. rewrite Hsam.
  pose proof (Hk "post_processing" ltac:(in_keys)) as Hpp. cbn in Hpp. rewrite Hpp.
  pose proof (Hk "control_type" ltac:(in_keys)) as Hct. cbn in Hct.
  assert ((if negb (is_None (default (VStr "None") (p !! "control_type")))
           then Ok (default (VStr "None") (p !! "control_type"))
           else Ok (VStr "None"))
          = (if negb (is_None (default (VStr "None") (p' !! "control_type")))
             then Ok (default (VStr "None") (p' !! "control_type"))
             else Ok (VStr "None")) :> result value) as ->; [| reflexivity].
  destruct (p !! "control_type") as [[]|], (p' !! "control_type") as [[]|];
    cbn in *; try discriminate; try reflexivity; by injection Hct as <-.
Qed.

Lemma payload_to_tensor_reads_only_witness :
  payload_to_tensor Examples.hordelib Examples.str_to_float Samples.noisy_record
  = payload_to_tensor Examples.hordelib Examples.str_to_float Examples.minimal_record.
Proof.
  apply (payload_to_tensor_reads_only Examples.hordelib Examples.str_to_float
           Samples.noisy_record Examples.minimal_record
           Samples.noisy_info Samples.minimal_info
           Samples.noisy_payload Samples.minimal_payload).
  - reflexivity.
  - reflexivity.
  - reflexivity.
  - reflexivity.
  - intros k Hk.
    repeat (apply elem_of_cons in Hk as [->|Hk]; [vm_compute; reflexivity |]).
    by apply elem_of_nil in Hk.
  - intros k Hk.
    repeat (apply elem_of_cons in Hk as [->|Hk]; [vm_compute; reflexivity |]).
    by apply elem_of_nil in Hk.
Defined.

(** ** The records the encoder accepts *)

Lemma scaled_Ok (p : gmap string value) (k : string) (d : Z) (x : value) :
  scaled (VDict p) k d = Ok x → scaled_field d (p !! k) = true.
Proof.
  unfold scaled, scaled_field. cbn.
  destruct (p !! k) as [[| |z| | | |]|]; cbn; try discriminate; try done.
  by destruct (overflows _).
Qed.

Lemma scaled_total_field (p : gmap string value) (k : string) (d : Z) :
  scaled_field d (p !! k) = true →
  ∃ x, scaled (VDict p) k d = Ok x ∧ is_number x = true.
Proof.
  unfold scaled, scaled_field. cbn.
  destruct (p !! k) as [[| |z| | | |]|]; cbn; try discriminate; eauto.
  intros ->%negb_true_iff. eauto.
Qed.

Lemma strength_Ok (p : gmap string value) (k : string) (x : value) :
  strength (VDict p) k = Ok x →
  x = match null_view (p !! k) with
      | None => VFloat 1
      | Some v => v
      end.
Proof.
  unfold strength. cbn. destruct (p !! k) as [[]|]; cbn; by intros [= <-].
Qed.

Lemma count_Ok f (p : gmap string value) (k : string) (d : Q) (x : value) :
  count f (VDict p) k d = Ok x →
  count_field f (p !! k) = true
  ∧ ∃ q, x = VFloat q
         ∧ match p !! k with
           | None => q = d
           | Some v => float_ f v = Ok (VFloat q)
           end.
Proof.
  unfold count. cbn. destruct (p !! k) as [[| |z| |s| |]|]; cbn; try discriminate;
    try (intros [= <-]; by eauto).
  - destruct (overflows (inject_Z z)) eqn:E; [discriminate |]. intros [= <-].
    split; [by apply negb_true_iff |]. eexists. split; [done |]. cbn. by rewrite ?E.
  - destruct (f s); [| discriminate]. intros [= <-]. eauto.
Qed.

Lemma count_total_field f (p : gmap string value) (k : string) (d : Q) :
  count_field f (p !! k) = true →
  ∃ x, count f (VDict p) k d = Ok x ∧ is_number x = true.
Proof.
  unfold count, count_field. cbn.
  destruct (p !! k) as [[| |z| |s| |]|]; cbn; try discriminate; eauto.
  - intros ->%negb_true_iff. eauto.
  - destruct (f s); [eauto | discriminate].
Qed.

Lemma to_float_is_number (x : value) (q : Q) : to_float x = Ok q → is_number x = true.
Proof. destruct x; try done. cbn. by destruct (overflows _). Qed.

Lemma strength_field_Ok (p : gmap string value) (k : string) (x : value) (q : Q) :
  strength (VDict p) k = Ok x → to_float x = Ok q →
  opt_strength_field (p !! k) = true.
Proof.
  intros ->%strength_Ok Hq. unfold opt_strength_field.
  destruct (p !! k) as [[]|]; try done; by eapply to_float_is_number.
Qed.

Lemma index_in_list (o : value) (l : list string) (j : nat) :
  index o l = Ok j → in_list o l = true.
Proof.
  intros (s & -> & Hs & _)%index_Ok. apply in_list_str.
  by eapply list_elem_of_lookup_2.
Qed.

Lemma index_all_in_list (l : list value) (u : list string) (js : list nat) :
  Forall2 (λ s j, index s u = Ok j) l js →
  forallb (λ v, in_list v u) l = true.
Proof.
  induction 1 as [|s j l js Hs _ IH]; [done |]. cbn.
  by rewrite (index_in_list _ _ _ Hs), IH.
Qed.

Lemma numeric_entries_Ok f (p : gmap string value) (row : list value) (qs : list Q) :
  numeric_row f (VDict p) = Ok row →
  Forall2 (λ v q, to_float v = Ok q) row qs →
  ∀ i c, numeric_entries f (VDict p) !! i = Some c →
         ∃ x q, c = Ok x ∧ to_float x = Ok q ∧ qs !! i = Some q.
Proof.
  intros Hrow Hqs i c Hi. apply sequence_Ok in Hrow.
  destruct (Forall2_lookup_l _ _ _ _ _ Hrow Hi) as (x & Hx & ->).
  destruct (Forall2_lookup_l _ _ _ _ _ Hqs Hx) as (q & Hq & Hxq). eauto.
Qed.

Lemma encodable_Ok hl f payload t :
  payload_to_tensor hl f payload = Ok t → encodable hl f payload = true.
Proof.
  intros [info p row qs c sch sam pps jb js jsch jct jsp jpp
            Hinfo Hp Hrow Hqs Hc Hjb Hsch Hjsch Hsam Hjs Hjct Hjsp Hpps Hjpp]
         %payload_to_tensor_Ok.
  unfold encodable. rewrite Hinfo, Hp.
  pose proof (numeric_entries_Ok f p row qs Hrow Hqs) as Hnum.
  repeat (apply andb_true_intro; split).
  - by destruct (Hnum 0%nat _ eq_refl) as (x & q & ?%scaled_Ok & _).
  - by destruct (Hnum 1%nat _ eq_refl) as (x & q & ?%scaled_Ok & _).
  - by destruct (Hnum 2%nat _ eq_refl) as (x & q & ?%scaled_Ok & _).
  - by destruct (Hnum 3%nat _ eq_refl) as (x & q & ?%scaled_Ok & _).
  - destruct (Hnum 4%nat _ eq_refl) as (x & q & Hx & Hq & _).
    by eapply strength_field_Ok.
  - destruct (Hnum 5%nat _ eq_refl) as (x & q & [? _]%count_Ok & _). done.
  - destruct (Hnum 6%nat _ eq_refl) as (x & q & Hx & Hq & _).
    by eapply strength_field_Ok.
  - destruct (Hnum 7%nat _ eq_refl) as (x & q & Hx & Hq & _).
    by eapply strength_field_Ok.
  - destruct (Hnum 8%nat _ eq_refl) as (x & q & [? _]%count_Ok & _). done.
  - destruct (Hnum 9%nat _ eq_refl) as (x & q & [? _]%count_Ok & _). done.
  - destruct (Hnum 10%nat _ eq_refl) as (x & q & [? _]%count_Ok & _). done.
  - destruct (Hnum 11%nat _ eq_refl) as (x & q & [? _]%count_Ok & _). done.
  - destruct (Hnum 12%nat _ eq_refl) as (x & q & [? _]%count_Ok & _). done.
  - destruct (Hnum 13%nat _ eq_refl) as (x & q & [? _]%count_Ok & _). done.
  - rewrite Hc. by apply bool_decide_eq_true.
  - rewrite Hsch. by eapply index_in_list.
  - rewrite Hsam. apply index_in_list in Hjs.
    destruct (in_list sam (KNOWN_SAMPLERS hl)); [done |]. by rewrite Hjs.
  - apply index_in_list in Hjct.
    destruct (p !! "control_type") as [[]|]; done.
  - apply index_in_list in Hjsp.
    destruct (info !! "source_processing"); done.
  - rewrite Hpps. by eapply index_all_in_list.
Qed.

Lemma encodable_total hl f payload :
  encodable hl f payload = true → ∃ t, payload_to_tensor hl f payload = Ok t.
Proof.
  intros Hwf. unfold encodable in Hwf.
  destruct (job_info payload) as [info|] eqn:Hinfo; [| discriminate].
  destruct (job_payload payload) as [p|] eqn:Hp; [| discriminate].
  repeat (apply andb_prop in Hwf as [Hwf ?]).
  destruct (sequence_total (λ x, is_number x = true) (numeric_entries f (VDict p)))
    as (row & Hrow & Hnum).
  { unfold numeric_entries.
    repeat (apply Forall_cons; split;
            [ first [ by apply scaled_total_field | by apply strength_total
                    | by apply count_total_field | apply flag_total
                    | apply order_flag_total ] | ]).
    constructor. }
  destruct (to_float_total row Hnum) as [qs Hqs].
  destruct (info !! "model_baseline") as [c|] eqn:Hc;
    [| by match goal with H : bool_decide _ = true |- _ =>
            apply bool_decide_eq_true in H; destruct H as [? [=]] end ].
  destruct (p !! "scheduler") as [sch|] eqn:Hsch; [| discriminate].
  destruct (p !! "sampler_name") as [sam|] eqn:Hsam; [| discriminate].
  destruct (index_total
    (if in_list c KNOWN_MODEL_BASELINES then c else VStr "stable_diffusion_xl")
    KNOWN_MODEL_BASELINES) as [jb Hjb].
  { destruct (in_list c KNOWN_MODEL_BASELINES) eqn:E; [done | reflexivity]. }
  destruct (index_total sch KNOWN_SCHEDULERS) as [jsch Hjsch]; [done |].
  destruct (index_total
    (if in_list sam (KNOWN_SAMPLERS hl) then sam else VStr "k_euler")
    (KNOWN_SAMPLERS hl)) as [js Hjs].
  { destruct (in_list sam (KNOWN_SAMPLERS hl)) eqn:E; [done | done]. }
  destruct (index_total
    (if negb (is_None (default (VStr "None") (p !! "control_type")))
     then default (VStr "None") (p !! "control_type") else VStr "None")
    (KNOWN_CONTROL_TYPES hl)) as [jct Hjct].
  { destruct (p !! "control_type") as [[]|]; simpl; try done; apply None_known. }
  destruct (index_total (default (VStr "txt2img") (info !! "source_processing"))
    (KNOWN_SOURCE_PROCESSING hl)) as [jsp Hjsp].
  { destruct (info !! "source_processing"); simpl; [done | apply txt2img_known]. }
  destruct (slice_all (default (VList []) (p !! "post_processing")))
    as [pps|] eqn:Hpps; [| discriminate].
  match goal with H : forallb _ pps = true |- _ =>
    destruct (index_all_total _ _ H) as [jpp Hjpp] end.
  eexists. apply payload_to_tensor_Ok.
  by eapply (encoding_intro hl f payload info p row qs c sch sam pps
               jb js jsch jct jsp jpp).
Qed.

(** X2.  The encoder returns a vector exactly on the [encodable] records:
    the two nested objects, in each of the four scaled fields a number
    whose quotient is within the float range, in each strength a number
    within the float range (or null or nothing), in each count a number
    within the float range, a parsable string or nothing,
    [model_baseline] and [sampler_name] present (an unknown sampler needs
    "k_euler" in the table), the scheduler in vocabulary, control type and
    source processing in vocabulary or defaulted, and every post-processor
    in vocabulary; on every other record it raises. *)
Theorem payload_to_tensor_domain hl f payload :
  (∃ t, payload_to_tensor hl f payload = Ok t) ↔ encodable hl f payload = true.
Proof.
  split; [intros [t Ht]; by eapply encodable_Ok | apply encodable_total].
Qed.

(** ** The layout of a feature vector *)

Lemma index_first (o : value) (l : list string) (j : nat) :
  index o l = Ok j →
  ∃ s, o = VStr s ∧ l !! j = Some s ∧ ∀ j', (j' < j)%nat → l !! j' ≠ Some s.
Proof.
  revert j. induction l as [|s l IH]; intros j; cbn; [discriminate |].
  destruct (eq_str o s) eqn:E.
  - intros [= <-]. apply eq_str_spec in E. exists s. split_and!; [done..|]. lia.
  - intros (j0 & Hj0 & ->)%fmap_Ok.
    destruct (IH _ Hj0) as (s' & -> & Hl & Hmin). exists s'. split_and!; [done..|].
    intros [|j'] Hlt; cbn.
    + intros [= ->]. cbn in E. by rewrite String.eqb_refl in E.
    + apply Hmin. lia.
Qed.

Lemma one_hot_of_index (vocab : list string) (o : value) (j : nat) :
  index o vocab = Ok j → one_hot_of vocab (Some o) (one_hot_row j (length vocab)).
Proof.
  intros H. destruct (index_first _ _ _ H) as (s & -> & Hs & Hmin).
  exists j, s. split_and!; try done.
  - apply one_hot_row_length.
  - intros k Hk. by apply one_hot_row_lookup.
Qed.

(** X3.  In every vector the encoder returns, the blocks of model
    baseline, sampler, scheduler, control type and source processing
    follow the numeric block in this order, and each is one-hot: 1.0 at
    the first vocabulary position of the field's category, 0.0 elsewhere.
    The category is the field's value, "stable_diffusion_xl" for a model
    baseline outside the vocabulary, "k_euler" for a sampler outside it,
    "None" for an absent or null control type, "txt2img" for an absent
    source processing. *)
Theorem categorical_blocks_one_hot hl f payload t :
  payload_to_tensor hl f payload = Ok t →
  ∃ (info p : gmap string value)
    (numeric baseline sampler scheduler control source post : list Q),
    job_info payload = Some info ∧ job_payload payload = Some p
    ∧ t = [ numeric ++ baseline ++ sampler ++ scheduler ++ control ++ source ++ post ]
    ∧ length numeric = NUMERIC_FIELDS
    ∧ one_hot_of KNOWN_MODEL_BASELINES (baseline_category info) baseline
    ∧ one_hot_of (KNOWN_SAMPLERS hl) (sampler_category hl p) sampler
    ∧ one_hot_of KNOWN_SCHEDULERS (p !! "scheduler") scheduler
    ∧ one_hot_of (KNOWN_CONTROL_TYPES hl) (Some (control_category p)) control
    ∧ one_hot_of (KNOWN_SOURCE_PROCESSING hl) (Some (source_category info)) source
    ∧ length post = length KNOWN_POST_PROCESSORS.
Proof.
  intros [info p row qs c sch sam pps jb js jsch jct jsp jpp
            Hinfo Hp Hrow Hqs Hc Hjb Hsch Hjsch Hsam Hjs Hjct Hjsp Hpps Hjpp]
         %payload_to_tensor_Ok.
  exists info, p. do 7 eexists. split_and!; [done | done | reflexivity | ..].
  - apply Forall2_length in Hqs. apply numeric_row_length in Hrow. lia.
  - unfold baseline_category. rewrite Hc. cbn. by apply one_hot_of_index.
  - unfold sampler_category. rewrite Hsam. cbn. by apply one_hot_of_index.
  - rewrite Hsch. by apply one_hot_of_index.
  - apply one_hot_of_index.
    replace (control_category p)
      with (if negb (is_None (default (VStr "None") (p !! "control_type")))
            then default (VStr "None") (p !! "control_type") else VStr "None"); [done |].
    unfold control_category. by destruct (p !! "control_type") as [[]|].
  - by apply one_hot_of_index.
  - apply multi_hot_length.
Qed.

Lemma categorical_blocks_one_hot_witness :
  ∃ (info p : gmap string value)
    (numeric baseline sampler scheduler control source post : list Q),
    job_info Examples.flagged_record = Some info
    ∧ job_payload Examples.flagged_record = Some p
    ∧ Examples.flagged_features
      = [ numeric ++ baseline ++ sampler ++ scheduler ++ control ++ source ++ post ]
    ∧ length numeric = NUMERIC_FIELDS
    ∧ one_hot_of KNOWN_MODEL_BASELINES (baseline_category info) baseline
    ∧ one_hot_of (KNOWN_SAMPLERS Examples.hordelib)
        (sampler_category Examples.hordelib p) sampler
    ∧ one_hot_of KNOWN_SCHEDULERS (p !! "scheduler") scheduler
    ∧ one_hot_of (KNOWN_CONTROL_TYPES Examples.hordelib)
        (Some (control_category p)) control
    ∧ one_hot_of (KNOWN_SOURCE_PROCESSING Examples.hordelib)
        (Some (source_category info)) source
    ∧ length post = length KNOWN_POST_PROCESSORS.
Proof.
  apply (categorical_blocks_one_hot Examples.hordelib Examples.str_to_float
           Examples.flagged_record).
  vm_compute. reflexivity.
Defined.

(** ** Missing keys *)

Lemma scaled_number (p : gmap string value) (k : string) (d : Z) :
  scaled_field d (p !! k) = true → ∃ x, scaled (VDict p) k d = Ok x.
Proof. intros (x & Hx & _)%scaled_total_field. eauto. Qed.

Lemma scaled_missing (p : gmap string value) (k : string) (d : Z) :
  p !! k = None → scaled (VDict p) k d = Raise (KeyError k).
Proof. unfold scaled. cbn. by intros ->. Qed.

Lemma scaled_overflow (p : gmap string value) (k : string) (d z : Z) :
  p !! k = Some (VInt z) → overflows (inject_Z z / inject_Z d) = true →
  scaled (VDict p) k d = Raise OverflowError.
Proof. unfold scaled. cbn. intros -> H. cbn. by rewrite H. Qed.

(** The exception of the first scaled field that fails is the exception
    of the encoder. *)
Lemma scaled_raise hl f payload (p : gmap string value) (i : nat) (k : string)
    (d : Z) (e : exn) :
  job_payload payload = Some p → SCALED_FIELDS !! i = Some (k, d) →
  (∀ j k' d', (j < i)%nat → SCALED_FIELDS !! j = Some (k', d') →
              scaled_field d' (p !! k') = true) →
  scaled (VDict p) k d = Raise e →
  payload_to_tensor hl f payload = Raise e.
Proof.
  intros Hp Hi Hbefore Hk.
  destruct (job_info payload) as [info|] eqn:Hinfo;
    [| unfold job_payload in Hp; by rewrite Hinfo in Hp].
  destruct (job_payload_lookup _ _ _ Hinfo Hp) as (m & -> & Hm & Hip).
  unfold payload_to_tensor. cbn [getitem]. rewrite Hm.
  cbn [mbind result_bind getitem]. rewrite Hip. cbn [mbind result_bind].
  assert (numeric_row f (VDict p) = Raise e) as ->; [| done].
  unfold numeric_row, numeric_entries.
  destruct i as [|[|[|[|i]]]]; try discriminate; injection Hi as <- <-.
  - cbn [sequence]. by rewrite Hk.
  - destruct (scaled_number p "height" 1024
                (Hbefore 0%nat _ _ ltac:(lia) eq_refl)) as [x0 H0].
    cbn [sequence]. rewrite H0. cbn [mbind result_bind]. by rewrite Hk.
  - destruct (scaled_number p "height" 1024
                (Hbefore 0%nat _ _ ltac:(lia) eq_refl)) as [x0 H0].
    destruct (scaled_number p "width" 1024
                (Hbefore 1%nat _ _ ltac:(lia) eq_refl)) as [x1 H1].
    cbn [sequence]. rewrite H0, H1. cbn [mbind result_bind]. by rewrite Hk.
  - destruct (scaled_number p "height" 1024
                (Hbefore 0%nat _ _ ltac:(lia) eq_refl)) as [x0 H0].
    destruct (scaled_number p "width" 1024
                (Hbefore 1%nat _ _ ltac:(lia) eq_refl)) as [x1 H1].
    destruct (scaled_number p "ddim_steps" 100
                (Hbefore 2%nat _ _ ltac:(lia) eq_refl)) as [x2 H2].
    cbn [sequence]. rewrite H0, H1, H2. cbn [mbind result_bind]. by rewrite Hk.
Qed.

(** X5.  Which exception a missing key gives.  A record that is not an
    object raises [TypeError]; the keys read by subscript raise [KeyError]
    with their own name when they are the first thing that fails:
    "sdk_api_job_info", then "payload", then the scaled fields in order
    (the fields before the missing one holding numbers their division
    accepts), then, once the numeric entries are built, "model_baseline",
    "scheduler" and "sampler_name". *)
Theorem payload_to_tensor_missing_key hl f payload :
  ((∀ m, payload ≠ VDict m) → payload_to_tensor hl f payload = Raise TypeError)
  ∧ (∀ m, payload = VDict m → m !! "sdk_api_job_info" = None →
       payload_to_tensor hl f payload = Raise (KeyError "sdk_api_job_info"))
  ∧ (∀ info, job_info payload = Some info → info !! "payload" = None →
       payload_to_tensor hl f payload = Raise (KeyError "payload"))
  ∧ (∀ p i k d, job_payload payload = Some p → SCALED_FIELDS !! i = Some (k, d) →
       (∀ j k' d', (j < i)%nat → SCALED_FIELDS !! j = Some (k', d') →
                   scaled_field d' (p !! k') = true) →
       p !! k = None →
       payload_to_tensor hl f payload = Raise (KeyError k))
  ∧ (∀ info p row, job_info payload = Some info → job_payload payload = Some p →
       numeric_row f (VDict p) = Ok row →
       (info !! "model_baseline" = None →
        payload_to_tensor hl f payload = Raise (KeyError "model_baseline"))
       ∧ (is_Some (info !! "model_baseline") → p !! "scheduler" = None →
          payload_to_tensor hl f payload = Raise (KeyError "scheduler"))
       ∧ (is_Some (info !! "model_baseline") → is_Some (p !! "scheduler") →
          p !! "sampler_name" = None →
          payload_to_tensor hl f payload = Raise (KeyError "sampler_name"))).
Proof.
  split_and!.
  - intros Hnd. destruct payload; try reflexivity. by destruct (Hnd m).
  - intros m -> Hm. unfold payload_to_tensor. cbn. by rewrite Hm.
  - intros info Hinfo Hip. unfold job_info in Hinfo.
    destruct payload as [| | | | | |m]; try discriminate.
    destruct (m !! "sdk_api_job_info") as [[| | | | | |info']|] eqn:Hm; try discriminate.
    injection Hinfo as ->. unfold payload_to_tensor. cbn. rewrite Hm. cbn. by rewrite Hip.
  - intros p i k d Hp Hi Hbefore Hk.
    apply (scaled_raise hl f payload p i k d _ Hp Hi Hbefore).
    by apply scaled_missing.
  - intros info p row Hinfo Hp Hrow.
    destruct (job_payload_lookup _ _ _ Hinfo Hp) as (m & -> & Hm & Hip).
    unfold payload_to_tensor. cbn [getitem]. rewrite Hm.
    cbn [mbind result_bind getitem]. rewrite Hip. cbn [mbind result_bind].
    rewrite Hrow. cbn [mbind result_bind getitem]. split_and!.
    + by intros ->.
    + intros [b ->] Hsch. cbn [mbind result_bind].
      destruct (in_list b KNOWN_MODEL_BASELINES); cbn [mbind result_bind];
        by rewrite Hsch.
    + intros [b ->] [s ->] Hsam. cbn [mbind result_bind].
      destruct (in_list b KNOWN_MODEL_BASELINES); cbn [mbind result_bind];
        by rewrite Hsam.
Qed.

Lemma payload_to_tensor_missing_key_witness :
  payload_to_tensor Examples.hordelib Examples.str_to_float Samples.bare_record
  = Raise (KeyError "sdk_api_job_info")
  ∧ payload_to_tensor Examples.hordelib Examples.str_to_float Samples.narrow_record
    = Raise (KeyError "width").
Proof.
  split.
  - refine (proj1 (proj2 (payload_to_tensor_missing_key Examples.hordelib
                            Examples.str_to_float Samples.bare_record)) _ eq_refl _).
    vm_compute. reflexivity.
  - refine (proj1 (proj2 (proj2 (proj2 (payload_to_tensor_missing_key
              Examples.hordelib Examples.str_to_float Samples.narrow_record))))
              Samples.narrow_payload 1%nat "width" 1024%Z eq_refl eq_refl _ _).
    + intros j k' d' Hj Hjk. destruct j as [|j]; [| lia].
      injection Hjk as <- <-. vm_compute. reflexivity.
    + vm_compute. reflexivity.
Defined.

(** X24.  An integer too large for a float stops the encoder.  When a
    scaled field holds an integer whose quotient by its constant reaches
    the float range -- and the scaled fields before it hold numbers their
    division accepts -- the encoder raises [OverflowError], whatever else
    the record holds. *)
Theorem payload_to_tensor_overflow hl f payload (p : gmap string value) (i : nat)
    (k : string) (d z : Z) :
  job_payload payload = Some p → SCALED_FIELDS !! i = Some (k, d) →
  (∀ j k' d', (j < i)%nat → SCALED_FIELDS !! j = Some (k', d') →
              scaled_field d' (p !! k') = true) →
  p !! k = Some (VInt z) → overflows (inject_Z z / inject_Z d) = true →
  payload_to_tensor hl f payload = Raise OverflowError.
Proof.
  intros Hp Hi Hbefore Hk Hz.
  apply (scaled_raise hl f payload p i k d _ Hp Hi Hbefore).
  by apply (scaled_overflow p k d z).
Qed.

Lemma payload_to_tensor_overflow_witness :
  payload_to_tensor Examples.hordelib Examples.str_to_float Samples.towering_record
  = Raise OverflowError.
Proof.
  apply (payload_to_tensor_overflow Examples.hordelib Examples.str_to_float
           Samples.towering_record Samples.towering_payload 0%nat "height"
           1024%Z (10 ^ 400)%Z).
  - reflexivity.
  - reflexivity.
  - intros j k' d' Hj. lia.
  - vm_compute. reflexivity.
  - vm_compute. reflexivity.
Defined.

(** ** One-hot rows without fallback *)

Lemma one_hot_loop_unknown (strings : list value) (u : list string) (i : nat)
    (one_hot : tensor2) :
  forallb (λ v, in_list v u) strings = false →
  one_hot_loop i strings u one_hot = Raise ValueError.
Proof.
  revert i one_hot. induction strings as [|s strings IH]; intros i one_hot; cbn;
    [discriminate |].
  destruct (in_list s u) eqn:E; cbn.
  - intros H. destruct (index_total _ _ E) as [j ->]. cbn. by apply IH.
  - intros _. by rewrite (index_not_in _ _ E).
Qed.

(** X6.  [one_hot_encode] and [one_hot_encode_combined] have no fallback
    of their own.  When every entry is a string of the vocabulary,
    [one_hot_encode] returns one row per entry, one-hot at the first
    position of the entry in the vocabulary, and [one_hot_encode_combined]
    one row of the width of the vocabulary (all zeros for the empty list);
    when some entry is not in the vocabulary both raise [ValueError]. *)
Theorem one_hot_encode_total_or_ValueError (strings : list value)
    (unique_strings : list string) :
  (forallb (λ v, in_list v unique_strings) strings = true →
   (∃ t, one_hot_encode strings unique_strings = Ok t
         ∧ length t = length strings
         ∧ ∀ i s, strings !! i = Some s →
                  ∃ row, t !! i = Some row ∧ one_hot_of unique_strings (Some s) row)
   ∧ (∃ row, one_hot_encode_combined strings unique_strings = Ok [ row ]
             ∧ length row = length unique_strings
             ∧ (strings = [] → row = replicate (length unique_strings) 0%Q)))
  ∧ (forallb (λ v, in_list v unique_strings) strings = false →
     one_hot_encode strings unique_strings = Raise ValueError
     ∧ one_hot_encode_combined strings unique_strings = Raise ValueError).
Proof.
  split.
  - intros Hall. destruct (index_all_total _ _ Hall) as [js Hjs]. split.
    + eexists. split; [apply one_hot_encode_Ok; eauto |].
      split; [rewrite length_fmap; symmetry; by eapply Forall2_length |].
      intros i s Hs. destruct (Forall2_lookup_l _ _ _ _ _ Hjs Hs) as (j & Hj & Hsj).
      eexists. split; [by rewrite list_lookup_fmap, Hj |].
      by apply one_hot_of_index.
    + destruct (sum_dim0_one_hot js (length unique_strings)) as (row & Hrow & Hlen & _).
      exists row. split_and!; [| done |].
      * rewrite <- Hrow. apply one_hot_encode_combined_Ok. eauto.
      * intros ->. inversion Hjs; subst. cbn in Hrow. by injection Hrow as <-.
  - intros Hsome. split.
    + by apply one_hot_loop_unknown.
    + unfold one_hot_encode_combined. by rewrite one_hot_loop_unknown.
Qed.

Lemma one_hot_encode_total_or_ValueError_witness :
  one_hot_encode [ VStr "karras"; VStr "exponential" ] KNOWN_SCHEDULERS
  = Raise ValueError
  ∧ one_hot_encode_combined [ VStr "karras"; VStr "exponential" ] KNOWN_SCHEDULERS
    = Raise ValueError.
Proof.
  apply (one_hot_encode_total_or_ValueError
           [ VStr "karras"; VStr "exponential" ] KNOWN_SCHEDULERS).
  vm_compute. reflexivity.
Defined.

(** ** Every dataset the loader returns *)

Section LoaderFacts.
Context (hl : HordeLib) (f : string → option Q).

Lemma load_loop_inv (ps : list value) (d d' : list (list Q)) (l l' : list value) :
  load_loop hl f ps d l = Ok (d', l') →
  Forall (λ payload, is_Some (label payload)) ps
  ∧ ∃ rows, d' = d ++ rows ∧ l' = l ++ omap label (kept ps)
      ∧ Forall2 (λ payload r, payload_to_tensor hl f payload = Ok [ r ]) (kept ps) rows.
Proof.
  revert d l. induction ps as [|payload ps IH]; intros d l; cbn [load_loop].
  - intros [= <- <-]. split; [constructor |]. exists []. rewrite !app_nil_r.
    split_and!; [done..| constructor].
  - intros H. apply bind_Ok in H as (t & Ht & H).
    apply getitem_Ok in Ht as (m & -> & Ht).
    assert (labelled (VDict m) = negb (is_None t)) as Hl
      by (unfold labelled; cbn; by rewrite Ht).
    unfold kept in *. cbn [List.filter]. rewrite Hl.
    destruct (is_None t) eqn:Hnone; cbn [negb].
    + destruct (IH _ _ H) as (Hlab & rows & -> & -> & Hrows).
      split; [constructor; [by cbn; eauto | done] |].
      exists rows. by split_and!.
    + apply bind_Ok in H as (x & Hx & H). apply bind_Ok in H as (r & Hr & H).
      cbn [getitem] in H. rewrite Ht in H. cbn [mbind result_bind] in H.
      destruct (IH _ _ H) as (Hlab & rows & -> & -> & Hrows).
      pose proof Hx as Hlen. apply payload_to_tensor_Ok, encoding_length in Hlen
        as (r' & -> & _). injection Hr as ->.
      split; [constructor; [by cbn; eauto | done] |].
      exists (r :: rows). cbn [omap list_omap label]. rewrite Ht.
      split_and!; [by rewrite <- app_assoc | by rewrite <- app_assoc | by constructor].
Qed.

End LoaderFacts.

Lemma length_omap_label (ps : list value) :
  length (omap label (kept ps)) = length (kept ps).
Proof.
  unfold kept. induction ps as [|payload ps IH]; [done |]. cbn [List.filter].
  destruct (labelled payload) eqn:E; [| done].
  destruct (labelled_label _ E) as (t & Ht & _).
  cbn [omap list_omap]. rewrite Ht. cbn. by rewrite IH.
Qed.

Lemma torch_tensor_list (l : list value) (t : tensor) :
  torch_tensor (VList l) = Ok t → ∃ ts, t = Tensor ts ∧ length ts = length l.
Proof.
  cbn [torch_tensor]. intros H. apply bind_Ok in H as (ts & Hts & H).
  destruct (same_shape ts); [| discriminate]. injection H as <-.
  exists ts. split; [done |].
  revert ts Hts. induction l as [|x l IH]; intros ts Hts.
  - by injection Hts as <-.
  - apply bind_Ok in Hts as (t0 & _ & Hts). apply bind_Ok in Hts as (ts0 & Hts0 & Hts).
    injection Hts as <-. cbn. f_equal. by apply IH.
Qed.

Lemma torch_stack_inv (rows t : list (list Q)) :
  torch_stack rows = Ok t → t = rows ∧ rows ≠ [].
Proof.
  destruct rows as [|r rows]; [discriminate |]. cbn.
  destruct (forallb _ rows); [| discriminate]. by intros [= <-].
Qed.

(** X7.  Every dataset the loader returns is well-shaped: it holds at
    least one row, [mixed_data] is [data], every row has the length
    [feature_length], there is one label per row, and [__getitem__]
    returns a (row, label) pair exactly at the indices below [__len__]
    and raises [IndexError] from there on. *)
Theorem KudosDataset_init_well_shaped hl f (payload_list : value) (self : KudosDataset) :
  KudosDataset_init hl f payload_list = Ok self →
  (0 < KudosDataset_len self)%nat
  ∧ mixed_data self = data self
  ∧ Forall (λ r, length r = feature_length hl) (data self)
  ∧ (∃ ys, labels self = Tensor ys ∧ length ys = KudosDataset_len self)
  ∧ (∀ idx, (idx < KudosDataset_len self)%nat →
       ∃ r y, KudosDataset_getitem self idx = Ok (r, y)
              ∧ length r = feature_length hl)
  ∧ (∀ idx, (KudosDataset_len self ≤ idx)%nat →
       KudosDataset_getitem self idx = Raise IndexError).
Proof.
  unfold KudosDataset_init. intros H.
  apply bind_Ok in H as (l & _ & H). apply bind_Ok in H as ([d ls] & Hloop & H).
  apply bind_Ok in H as (lab & Hlab & H). apply bind_Ok in H as (md & Hmd & H).
  injection H as <-. unfold KudosDataset_len. cbn [data labels mixed_data].
  apply load_loop_inv in Hloop as (_ & rows & -> & -> & Hrows).
  cbn [app] in *. apply torch_stack_inv in Hmd as [-> Hne].
  apply torch_tensor_list in Hlab as (ys & -> & Hys).
  assert (length ys = length rows) as Hlen.
  { rewrite Hys, length_omap_label. by eapply Forall2_length. }
  pose proof (kept_rows_length hl f _ _ Hrows) as Hwidth.
  split_and!; try done.
  - destruct rows; [done | cbn; lia].
  - eauto.
  - intros idx Hidx. unfold KudosDataset_getitem, tensor_getitem.
    cbn [data labels mixed_data].
    destruct (lookup_lt_is_Some_2 rows idx Hidx) as [r Hr].
    destruct (lookup_lt_is_Some_2 ys idx ltac:(lia)) as [y Hy].
    rewrite Hr, Hy. cbn. exists r, y. split; [done |].
    rewrite Forall_forall in Hwidth. apply Hwidth. by eapply list_elem_of_lookup_2.
  - intros idx Hidx. unfold KudosDataset_getitem. cbn [data labels mixed_data].
    by rewrite (lookup_ge_None_2 rows idx Hidx).
Qed.

Lemma KudosDataset_init_well_shaped_witness :
  KudosDataset_len Samples.loaded = 1%nat
  ∧ (∃ r y, KudosDataset_getitem Samples.loaded 0 = Ok (r, y)
            ∧ length r = feature_length Examples.hordelib)
  ∧ KudosDataset_getitem Samples.loaded 1 = Raise IndexError.
Proof.
  destruct (KudosDataset_init_well_shaped Examples.hordelib Examples.str_to_float
              (VList Samples.data_file) Samples.loaded)
    as (_ & _ & _ & _ & Hget & Hout).
  - vm_compute. reflexivity.
  - split_and!; [reflexivity | apply Hget | apply Hout]; vm_compute; lia.
Defined.

(** ** The order of the post-processors *)

Lemma index_all_fmap (strings : list value) (u : list string) (js : list nat) :
  Forall2 (λ s j, index s u = Ok j) strings js →
  js = (λ s, match index s u with Ok j => j | Raise _ => 0%nat end) <$> strings.
Proof.
  induction 1 as [|s j strings js Hs _ IH]; [done |]. cbn. by rewrite Hs, <- IH.
Qed.

Lemma occurrences_Permutation (k : nat) (js js' : list nat) :
  js ≡ₚ js' → occurrences k js = occurrences k js'.
Proof. intros H. unfold occurrences. by rewrite H. Qed.

Lemma forallb_Permutation {A} (g : A → bool) (l l' : list A) :
  l ≡ₚ l' → forallb g l = forallb g l'.
Proof.
  induction 1 as [|x l l' _ IH|x y l|l l' l'' _ IH1 _ IH2]; cbn.
  - done.
  - by rewrite IH.
  - by destruct (g x), (g y).
  - by rewrite IH1.
Qed.

(** X8.  [one_hot_encode_combined] does not see the order of its entries:
    two lists with the same entries, each as often as in the other, give
    the same row of counts, or both raise [ValueError]. *)
Theorem one_hot_encode_combined_order (strings strings' : list value)
    (unique_strings : list string) :
  strings ≡ₚ strings' →
  one_hot_encode_combined strings unique_strings
  = one_hot_encode_combined strings' unique_strings.
Proof.
  intros Hperm. pose proof (forallb_Permutation (λ v, in_list v unique_strings) _ _ Hperm) as Hall.
  destruct (forallb (λ v, in_list v unique_strings) strings) eqn:E.
  - symmetry in Hall.
    destruct (index_all_total _ _ E) as [js Hjs].
    destruct (index_all_total _ _ Hall) as [js' Hjs'].
    rewrite (proj2 (one_hot_encode_combined_Ok strings unique_strings _)
               (ex_intro _ js (conj Hjs eq_refl))).
    rewrite (proj2 (one_hot_encode_combined_Ok strings' unique_strings _)
               (ex_intro _ js' (conj Hjs' eq_refl))).
    f_equal.
    destruct (sum_dim0_one_hot js (length unique_strings)) as (row & -> & Hlen & Hrow).
    destruct (sum_dim0_one_hot js' (length unique_strings)) as (row' & -> & Hlen' & Hrow').
    f_equal. apply list_eq. intros k.
    destruct (decide (k < length unique_strings)%nat) as [Hk|Hk].
    + rewrite (Hrow k Hk), (Hrow' k Hk). do 3 f_equal.
      apply occurrences_Permutation.
      rewrite (index_all_fmap _ _ _ Hjs), (index_all_fmap _ _ _ Hjs'). by rewrite Hperm.
    + rewrite !lookup_ge_None_2 by lia. done.
  - symmetry in Hall. unfold one_hot_encode_combined.
    by rewrite !one_hot_loop_unknown.
Qed.

Lemma one_hot_encode_combined_order_witness :
  one_hot_encode_combined [ VStr "GFPGAN"; VStr "NMKD_Siax" ] KNOWN_POST_PROCESSORS
  = one_hot_encode_combined [ VStr "NMKD_Siax"; VStr "GFPGAN" ] KNOWN_POST_PROCESSORS.
Proof.
  apply (one_hot_encode_combined_order [ VStr "GFPGAN"; VStr "NMKD_Siax" ]
           [ VStr "NMKD_Siax"; VStr "GFPGAN" ] KNOWN_POST_PROCESSORS).
  apply perm_swap.
Defined.

(** ** The vocabularies *)

(** ** The order of strings *)

Lemma compare_not_Gt_trans (s1 s2 s3 : string) :
  String.compare s1 s2 ≠ Gt → String.compare s2 s3 ≠ Gt → String.compare s1 s3 ≠ Gt.
Proof.
  revert s2 s3. induction s1 as [|a1 s1 IH]; intros [|a2 s2] [|a3 s3]; cbn; try done.
  unfold Ascii.compare.
  destruct (N.compare_spec (N_of_ascii a1) (N_of_ascii a2)),
           (N.compare_spec (N_of_ascii a2) (N_of_ascii a3)),
           (N.compare_spec (N_of_ascii a1) (N_of_ascii a3));
    intros H12 H23; try done; try (exfalso; lia); eauto.
Qed.

Lemma str_le_not_Gt (a b : string) : str_le a b ↔ String.compare a b ≠ Gt.
Proof. unfold str_le, String.leb. by destruct (String.compare a b). Qed.

Lemma str_le_trans : Transitive str_le.
Proof.
  intros a b c. rewrite !str_le_not_Gt. apply compare_not_Gt_trans.
Qed.

Lemma str_le_antisymm : AntiSymm (=) str_le.
Proof.
  intros a b Hab Hba. apply String.leb_antisym; by apply Is_true_true.
Qed.

Lemma str_le_total : Total str_le.
Proof.
  intros a b. destruct (String.leb_total a b) as [H|H]; [left | right];
    by apply Is_true_true.
Qed.

Lemma sorted_Permutation (l l' : list string) : l ≡ₚ l' → sorted l = sorted l'.
Proof.
  intros H. unfold sorted.
  apply (@Sorted_unique _ str_le str_le_trans str_le_antisymm).
  - apply (@Sorted_merge_sort _ str_le _ str_le_total).
  - apply (@Sorted_merge_sort _ str_le _ str_le_total).
  - by rewrite !merge_sort_Permutation.
Qed.

Lemma remove_dups_same (l l' : list string) :
  (∀ x, x ∈ l ↔ x ∈ l') → remove_dups l ≡ₚ remove_dups l'.
Proof.
  intros H. apply NoDup_Permutation; [apply NoDup_remove_dups.. |].
  intros x. by rewrite !elem_of_remove_dups.
Qed.

(** X9.  The vocabularies do not depend on the order in which the tables
    of [HordeLib] list their entries -- for the two maps, whose keys pass
    through a set, not on repetitions either: tables with the same
    entries give the same sorted vocabularies, the same vector length and
    the same encoding of every record. *)
Theorem vocabularies_order_independent (hl hl' : HordeLib) :
  (∀ x, x ∈ SAMPLERS_MAP hl ↔ x ∈ SAMPLERS_MAP hl') →
  (∀ x, x ∈ CONTROLNET_IMAGE_PREPROCESSOR_MAP hl
        ↔ x ∈ CONTROLNET_IMAGE_PREPROCESSOR_MAP hl') →
  SOURCE_IMAGE_PROCESSING_OPTIONS hl ≡ₚ SOURCE_IMAGE_PROCESSING_OPTIONS hl' →
  KNOWN_SAMPLERS hl = KNOWN_SAMPLERS hl'
  ∧ KNOWN_CONTROL_TYPES hl = KNOWN_CONTROL_TYPES hl'
  ∧ KNOWN_SOURCE_PROCESSING hl = KNOWN_SOURCE_PROCESSING hl'
  ∧ feature_length hl = feature_length hl'
  ∧ ∀ f payload, payload_to_tensor hl f payload = payload_to_tensor hl' f payload.
Proof.
  intros Hs Hc Hp.
  assert (KNOWN_SAMPLERS hl = KNOWN_SAMPLERS hl') as Es.
  { unfold KNOWN_SAMPLERS. by apply sorted_Permutation, remove_dups_same. }
  assert (KNOWN_CONTROL_TYPES hl = KNOWN_CONTROL_TYPES hl') as Ec.
  { unfold KNOWN_CONTROL_TYPES. apply sorted_Permutation.
    by rewrite (remove_dups_same _ _ Hc). }
  assert (KNOWN_SOURCE_PROCESSING hl = KNOWN_SOURCE_PROCESSING hl') as Ep.
  { unfold KNOWN_SOURCE_PROCESSING. apply sorted_Permutation. by rewrite Hp. }
  split_and!; try done.
  - unfold feature_length. by rewrite Es, Ec, Ep.
  - intros f payload. unfold payload_to_tensor. by rewrite Es, Ec, Ep.
Qed.

Lemma vocabularies_order_independent_witness :
  KNOWN_SAMPLERS Examples.hordelib = KNOWN_SAMPLERS Samples.shuffled_hordelib
  ∧ payload_to_tensor Examples.hordelib Examples.str_to_float PAYLOAD_EXAMPLE
    = payload_to_tensor Samples.shuffled_hordelib Examples.str_to_float PAYLOAD_EXAMPLE.
Proof.
  destruct (vocabularies_order_independent Examples.hordelib Samples.shuffled_hordelib)
    as (Hs & _ & _ & _ & Henc).
  - intros x. cbn. rewrite !elem_of_cons, !elem_of_nil. tauto.
  - intros x. cbn. rewrite !elem_of_cons, !elem_of_nil. tauto.
  - apply Permutation_rev.
  - split; [exact Hs | apply Henc].
Defined.

(** X10.  What the vocabularies hold.  The samplers are the keys of the
    table, sorted and without repetition; the control types are the keys
    of the table and "None"; the source-processing modes are the options
    and "txt2img", one entry more than the options; every vocabulary is
    sorted. *)
Theorem vocabularies_content (hl : HordeLib) :
  (∀ x, x ∈ KNOWN_SAMPLERS hl ↔ x ∈ SAMPLERS_MAP hl)
  ∧ NoDup (KNOWN_SAMPLERS hl)
  ∧ (∀ x, x ∈ KNOWN_CONTROL_TYPES hl
          ↔ x ∈ CONTROLNET_IMAGE_PREPROCESSOR_MAP hl ∨ x = "None")
  ∧ (∀ x, x ∈ KNOWN_SOURCE_PROCESSING hl
          ↔ x ∈ SOURCE_IMAGE_PROCESSING_OPTIONS hl ∨ x = "txt2img")
  ∧ length (KNOWN_SOURCE_PROCESSING hl)
    = S (length (SOURCE_IMAGE_PROCESSING_OPTIONS hl))
  ∧ StronglySorted str_le (KNOWN_SAMPLERS hl)
  ∧ StronglySorted str_le (KNOWN_CONTROL_TYPES hl)
  ∧ StronglySorted str_le (KNOWN_SOURCE_PROCESSING hl)
  ∧ StronglySorted str_le KNOWN_MODEL_BASELINES
  ∧ StronglySorted str_le KNOWN_SCHEDULERS.
Proof.
  assert (∀ l, StronglySorted str_le (sorted l)) as Hsorted.
  { intros l. apply (@StronglySorted_merge_sort _ str_le _ str_le_trans str_le_total). }
  split_and!; try apply Hsorted.
  - intros x. unfold KNOWN_SAMPLERS. by rewrite sorted_elem, elem_of_remove_dups.
  - unfold KNOWN_SAMPLERS, sorted. rewrite merge_sort_Permutation.
    apply NoDup_remove_dups.
  - intros x. unfold KNOWN_CONTROL_TYPES.
    by rewrite sorted_elem, elem_of_app, elem_of_remove_dups, list_elem_of_singleton.
  - intros x. unfold KNOWN_SOURCE_PROCESSING.
    by rewrite sorted_elem, elem_of_app, list_elem_of_singleton.
  - unfold KNOWN_SOURCE_PROCESSING. rewrite sorted_length, length_app. cbn. lia.
Qed.

(** ** The network of a trial, and what a load tells *)

Lemma foldl_snoc_map {A B} (g : A → B) (l : list A) (acc : list B) :
  foldl (λ ys x, ys ++ [ g x ]) acc l = acc ++ (g <$> l).
Proof.
  revert acc. induction l as [|x l IH]; intros acc; cbn; [by rewrite app_nil_r |].
  by rewrite IH, <- app_assoc.
Qed.

Lemma feed_forward_dims trial (hidden : list nat) (i w out : nat) :
  linear_dims (feed_forward trial i w hidden out) = width_pairs (w :: hidden ++ [ out ]).
Proof.
  revert i w. induction hidden as [|h hidden IH]; intros i w; [done |].
  cbn [feed_forward]. unfold linear_dims in *.
  destruct (0 <? i)%nat; cbn; by rewrite IH.
Qed.

Lemma feed_forward_length trial (hidden : list nat) (i w out : nat) :
  length (feed_forward trial i w hidden out)
  = if (0 <? i)%nat then (3 * length hidden + 1)%nat
    else match hidden with
         | [] => 1%nat
         | _ => (3 * length hidden)%nat
         end.
Proof.
  revert i w. induction hidden as [|h hidden IH]; intros i w.
  - by destruct (0 <? i)%nat.
  - cbn [feed_forward]. destruct i as [|i]; cbn [Nat.ltb Nat.leb app length];
      rewrite IH; cbn [Nat.ltb Nat.leb length]; lia.
Qed.

(** X11.  The network [objective] creates fits the encoder and the search
    bounds.  When [PAYLOAD_EXAMPLE] encodes (its sampler and source
    processing are in the tables) and the trial answers within the bounds
    it is asked for, the network has between 1 and 6 hidden widths, each
    between 4 and 128; its linear layers run from the length of the
    feature vectors through the hidden widths to the single output, each
    layer taking what the one before gives; it has three layers per hidden
    width. *)
Theorem objective_model_shape hl f trial (suggest_int : string → nat → nat → nat) :
  "k_euler" ∈ SAMPLERS_MAP hl →
  "img2img" ∈ SOURCE_IMAGE_PROCESSING_OPTIONS hl →
  (∀ name low high, (low ≤ high)%nat →
     (low ≤ suggest_int name low high ≤ high)%nat) →
  ∃ model widths,
    objective_model hl f trial suggest_int = Ok model
    ∧ widths = objective_layers suggest_int
    ∧ (1 ≤ length widths ≤ MAX_HIDDEN_LAYERS)%nat
    ∧ Forall (λ w, (MIN_NODES_IN_LAYER ≤ w ≤ MAX_NODES_IN_LAYER)%nat) widths
    ∧ linear_dims model = width_pairs (feature_length hl :: widths ++ [ 1%nat ])
    ∧ length model = (3 * length widths)%nat.
Proof.
  intros Hk Hi Hbounds.
  assert (objective_input_size hl f = Ok (feature_length hl)) as Hsize.
  { unfold objective_input_size.
    destruct (payload_to_tensor_total hl f PAYLOAD_EXAMPLE Hk) as [t Ht];
      [by apply PAYLOAD_EXAMPLE_well_formed |].
    rewrite Ht. apply payload_to_tensor_Ok, encoding_length in Ht as (row & -> & Hlen).
    cbn. by rewrite Hlen. }
  unfold objective_model. rewrite Hsize. cbn [mbind result_bind].
  eexists _, _. split; [reflexivity |]. split; [reflexivity |].
  unfold objective_layers. rewrite foldl_snoc_map. cbn [app].
  rewrite length_fmap, length_seq.
  pose proof (Hbounds "hidden_layers" 1%nat MAX_HIDDEN_LAYERS) as Hn.
  unfold MAX_HIDDEN_LAYERS in *.
  split_and!.
  - lia.
  - lia.
  - apply Forall_fmap, Forall_forall. intros i _. cbn.
    apply Hbounds. unfold MIN_NODES_IN_LAYER, MAX_NODES_IN_LAYER. lia.
  - rewrite create_sequential_model_feed_forward. apply feed_forward_dims.
  - rewrite create_sequential_model_feed_forward, feed_forward_length.
    cbn [Nat.ltb Nat.leb]. rewrite length_fmap, length_seq.
    destruct (suggest_int "hidden_layers" 1%nat 6%nat) eqn:E; [lia | done].
Qed.

Lemma objective_model_shape_witness :
  ∃ model, objective_model Examples.hordelib Examples.str_to_float Examples.trial
             Samples.widest = Ok model
           ∧ length model = 18%nat.
Proof.
  destruct (objective_model_shape Examples.hordelib Examples.str_to_float
              Examples.trial Samples.widest)
    as (model & widths & Hmodel & Hw & _ & _ & _ & Hlen).
  - apply list_elem_of_here.
  - apply list_elem_of_here.
  - intros name low high Hle. unfold Samples.widest. lia.
  - exists model. split; [exact Hmodel |]. rewrite Hlen, Hw. reflexivity.
Defined.

(** X12.  A data file without a record to keep cannot be loaded: when every
    record of the list carries the label field and none has a label other
    than null -- the empty list included -- the load raises
    [RuntimeError]. *)
Theorem KudosDataset_init_nothing_kept hl f (payload_list : list value) :
  Forall (λ payload, is_Some (label payload)) payload_list →
  kept payload_list = [] →
  KudosDataset_init hl f (VList payload_list) = Raise RuntimeError.
Proof.
  intros Hlab Hkept.
  destruct (load_loop_Ok hl f payload_list [] [] Hlab) as (rows & Hrows & Hloop).
  { rewrite Hkept. constructor. }
  rewrite Hkept in Hrows, Hloop. inversion Hrows; subst.
  unfold KudosDataset_init. cbn [iter mbind result_bind]. by rewrite Hloop.
Qed.

Lemma KudosDataset_init_nothing_kept_witness :
  KudosDataset_init Examples.hordelib Examples.str_to_float
    (VList [ Examples.null_label_record ]) = Raise RuntimeError.
Proof.
  apply (KudosDataset_init_nothing_kept Examples.hordelib Examples.str_to_float
           [ Examples.null_label_record ]).
  - repeat constructor; vm_compute; eauto.
  - vm_compute. reflexivity.
Defined.

(** X13.  What a successful load tells about the file.  If the load of a
    list of records succeeds, every record carried the label field, at
    least one label was not null, the rows are the encodings of the
    records with a non-null label, in order, and the labels are their
    labels, as one tensor. *)
Theorem KudosDataset_init_exact hl f (payload_list : list value) (self : KudosDataset) :
  KudosDataset_init hl f (VList payload_list) = Ok self →
  Forall (λ payload, is_Some (label payload)) payload_list
  ∧ kept payload_list ≠ []
  ∧ Forall2 (λ payload r, payload_to_tensor hl f payload = Ok [ r ])
      (kept payload_list) (data self)
  ∧ torch_tensor (VList (omap label (kept payload_list))) = Ok (labels self)
  ∧ KudosDataset_len self = length (kept payload_list).
Proof.
  unfold KudosDataset_init. cbn [iter mbind result_bind]. intros H.
  apply bind_Ok in H as ([d ls] & Hloop & H).
  apply bind_Ok in H as (lab & Hlab & H). apply bind_Ok in H as (md & Hmd & H).
  injection H as <-. unfold KudosDataset_len. cbn [data labels mixed_data].
  apply load_loop_inv in Hloop as (Hall & rows & -> & -> & Hrows).
  cbn [app] in *. apply torch_stack_inv in Hmd as [-> Hne].
  split_and!; try done.
  - intros Hk. rewrite Hk in Hrows. by inversion Hrows.
  - symmetry. by eapply Forall2_length.
Qed.

Lemma KudosDataset_init_exact_witness :
  Forall2 (λ payload r,
            payload_to_tensor Examples.hordelib Examples.str_to_float payload = Ok [ r ])
    (kept Samples.data_file) (data Samples.loaded)
  ∧ KudosDataset_len Samples.loaded = length (kept Samples.data_file).
Proof.
  destruct (KudosDataset_init_exact Examples.hordelib Examples.str_to_float
              Samples.data_file Samples.loaded)
    as (_ & _ & Hrows & _ & Hlen).
  - vm_compute. reflexivity.
  - split; [exact Hrows | exact Hlen].
Defined.

(** ** The score of a trial, and the inference helper *)

Lemma round_half_even_bounds (q : Q) (lo hi : Z) :
  (inject_Z lo <= q)%Q → (q <= inject_Z hi)%Q →
  (lo ≤ round_half_even q ≤ hi)%Z.
Proof.
  intros Hlo Hhi. unfold round_half_even.
  pose proof (Qfloor_le q) as Hfl. pose proof (Qlt_floor q) as Hfu.
  assert (lo ≤ Qfloor q)%Z as H1.
  { rewrite <- (Qfloor_Z lo). by apply Qfloor_resp_le. }
  assert (Qfloor q ≤ hi)%Z as H2.
  { rewrite <- (Qfloor_Z hi). by apply Qfloor_resp_le. }
  assert (Qfloor q = hi → (q - inject_Z (Qfloor q) ?= 1 # 2)%Q = Lt) as H3.
  { intros E. apply (proj1 (Qlt_alt _ _)). rewrite E. lra. }
  destruct (Z.eq_dec (Qfloor q) hi) as [E|E].
  - rewrite (H3 E). lia.
  - destruct (q - inject_Z (Qfloor q) ?= 1 # 2)%Q; [destruct (Z.even _) | |]; lia.
Qed.

Lemma sum_bounds (lo hi : Q) (l : list Q) (acc : Q) :
  Forall (λ x, (lo <= x ∧ x <= hi)%Q) l →
  (acc + inject_Z (Z.of_nat (length l)) * lo <= foldl Qplus acc l
   ∧ foldl Qplus acc l <= acc + inject_Z (Z.of_nat (length l)) * hi)%Q.
Proof.
  intros Hl. revert acc. induction Hl as [|x l [Hx1 Hx2] _ IH]; intros acc.
  - cbn [foldl length]. change (inject_Z (Z.of_nat 0)) with 0%Q. split; lra.
  - cbn [foldl length]. destruct (IH (acc + x)%Q) as [IH1 IH2].
    rewrite Nat2Z.inj_succ, <- Z.add_1_r, inject_Z_plus.
    change (inject_Z 1) with 1%Q. split; lra.
Qed.

Lemma mean_bounds (lo hi : Q) (l : list Q) :
  l ≠ [] → Forall (λ x, (lo <= x ∧ x <= hi)%Q) l →
  (lo <= mean_loss l ∧ mean_loss l <= hi)%Q.
Proof.
  intros Hne Hl. destruct (sum_bounds lo hi l 0 Hl) as [H1 H2].
  assert (0 < inject_Z (Z.of_nat (length l)))%Q as Hn.
  { change 0%Q with (inject_Z 0). rewrite <- Zlt_Qlt.
    destruct l; [done | cbn [length]; lia]. }
  unfold mean_loss. split.
  - apply Qle_shift_div_l; [done | lra].
  - apply Qle_shift_div_r; [done | lra].
Qed.

Lemma round2_nonneg (q : Q) : (0 <= q)%Q → ∃ k : Z, (0 ≤ k)%Z ∧ round2 q = k # 100.
Proof.
  intros Hq. exists (round_half_even (q * 100)). split; [| done].
  pose proof (Qfloor_resp_le 0 (q * 100)) as H. change (Qfloor 0) with 0%Z in H.
  unfold round_half_even.
  destruct (q * 100 - inject_Z (Qfloor (q * 100)) ?= 1 # 2)%Q;
    [destruct (Z.even _) | |]; (assert (0 <= q * 100)%Q as H0 by lra; specialize (H H0); lia).
Qed.

(** X14.  The score of a trial is never negative when the criterion is not:
    if every validation pass yields at least one batch and no batch loss
    below zero (as a mean squared error), a trial of at least one epoch
    returns a whole number of hundredths that is zero or more. *)
Theorem objective_score_nonneg {State : Type} (train_epoch : State → State)
    (validate_epoch : State → list Q * State) (n : nat) (st : State) :
  (∀ s, (validate_epoch s).1 ≠ [] ∧ Forall (λ x, (0 <= x)%Q) (validate_epoch s).1) →
  ∃ k : Z, (0 ≤ k)%Z
    ∧ objective_score train_epoch validate_epoch (S n) st = Ok (Some (k # 100)).
Proof.
  intros H. unfold objective_score.
  rewrite epoch_loop_last by (intros s; apply H). cbn.
  set (s := train_epoch (after_epochs train_epoch validate_epoch n st)).
  destruct (H s) as [Hne Hpos].
  assert (0 <= mean_loss (validate_epoch s).1)%Q as Hm.
  { set (l := (validate_epoch s).1) in *.
    assert (0 < inject_Z (Z.of_nat (length l)))%Q as Hn.
    { change 0%Q with (inject_Z 0). rewrite <- Zlt_Qlt.
      destruct l; [done | cbn [length]; lia]. }
    assert (∀ acc, 0 <= acc → 0 <= foldl Qplus acc l)%Q as Hs.
    { clear Hne Hn. induction Hpos as [|x l Hx _ IH]; intros acc Hacc; [done |].
      cbn. apply IH. lra. }
    unfold mean_loss. apply Qle_shift_div_l; [done |]. rewrite Qmult_0_l. by apply Hs. }
  destruct (round2_nonneg _ Hm) as (k & Hk & ->). eauto.
Qed.

Lemma objective_score_nonneg_witness :
  ∃ k : Z, (0 ≤ k)%Z
    ∧ objective_score Examples.rising_train Examples.rising_validate 3 0%nat
      = Ok (Some (k # 100)).
Proof.
  apply (objective_score_nonneg Examples.rising_train Examples.rising_validate 2 0%nat).
  intros s. split; [discriminate |].
  repeat constructor. unfold Qle. simpl. lia.
Defined.

(** X15.  A validation pass without a batch stops the trial: if the passes
    of the first [k] epochs yield batches and the pass of the next epoch
    yields none, a trial of more than [k] epochs raises
    [ZeroDivisionError].  A trial of no epoch returns [None]. *)
Theorem objective_score_empty_validation {State : Type} (train_epoch : State → State)
    (validate_epoch : State → list Q * State) (k n : nat) (st : State) :
  (∀ j, (j < k)%nat →
     (validate_epoch (train_epoch (after_epochs train_epoch validate_epoch j st))).1 ≠ []) →
  (validate_epoch (train_epoch (after_epochs train_epoch validate_epoch k st))).1 = [] →
  objective_score train_epoch validate_epoch (S (k + n)) st = Raise ZeroDivisionError
  ∧ objective_score train_epoch validate_epoch 0 st = Ok None.
Proof.
  intros Hbefore Hk. split; [| done]. unfold objective_score.
  enough (∀ total_loss,
    epoch_loop train_epoch validate_epoch (S (k + n)) st total_loss
    = Raise ZeroDivisionError) as -> by done.
  revert st Hbefore Hk. induction k as [|k IH]; intros st Hbefore Hk total_loss.
  - cbn [Nat.add epoch_loop]. unfold after_epochs in Hk. cbn [Nat.iter nat_rect] in Hk.
    destruct (validate_epoch (train_epoch st)) as [losses st']. cbn in Hk. by subst.
  - pose proof (Hbefore 0%nat ltac:(lia)) as H0.
    unfold after_epochs in H0. cbn [Nat.iter nat_rect] in H0.
    destruct (validate_epoch (train_epoch st)) as [losses st'] eqn:E. cbn [fst] in H0.
    change (S (S k + n)) with (S (S (k + n))).
    rewrite (epoch_loop_step _ _ _ _ _ _ _ E H0).
    apply IH.
    + intros j Hj. specialize (Hbefore (S j) ltac:(lia)).
      unfold after_epochs in *. rewrite Nat.iter_succ_r in Hbefore.
      cbv beta in Hbefore. by rewrite E in Hbefore.
    + unfold after_epochs in *. rewrite Nat.iter_succ_r in Hk. cbv beta in Hk.
      by rewrite E in Hk.
Qed.

Lemma objective_score_empty_validation_witness :
  objective_score Examples.rising_train Samples.drained_validate 3 0%nat
  = Raise ZeroDivisionError.
Proof.
  refine (proj1 (objective_score_empty_validation Examples.rising_train
                   Samples.drained_validate 2 0 0%nat _ _)).
  - intros j Hj. destruct j as [|[|j]]; [vm_compute; discriminate.. | lia].
  - vm_compute. reflexivity.
Defined.

Lemma payload_to_tensor_row hl f payload t :
  payload_to_tensor hl f payload = Ok t →
  ∃ row, t = [ row ] ∧ length row = feature_length hl ∧ squeeze t = row.
Proof.
  intros Ht. apply payload_to_tensor_Ok, encoding_length in Ht as (row & -> & Hlen).
  exists row. split_and!; [done | done |]. unfold squeeze. cbn. by rewrite app_nil_r.
Qed.

(** X16.  [payload_to_time] shows the network one vector per call, of the
    length of the feature vectors: two networks that agree on the vectors
    of that length give the same result, or the same exception, on every
    record. *)
Theorem payload_to_time_model_input hl f (model model' : list Q → result (list Q))
    (payload : value) :
  (∀ inputs, length inputs = feature_length hl → model inputs = model' inputs) →
  payload_to_time hl f model payload = payload_to_time hl f model' payload.
Proof.
  intros Hagree. unfold payload_to_time.
  destruct (payload_to_tensor hl f payload) as [t|e] eqn:Ht; [| done].
  apply payload_to_tensor_row in Ht as (row & -> & Hlen & Hsq).
  cbn [mbind result_bind]. by rewrite Hsq, (Hagree row Hlen).
Qed.

Lemma payload_to_time_model_input_witness :
  payload_to_time Examples.hordelib Examples.str_to_float Examples.negative_model
    PAYLOAD_EXAMPLE
  = payload_to_time Examples.hordelib Examples.str_to_float Samples.guarded_model
      PAYLOAD_EXAMPLE.
Proof.
  apply (payload_to_time_model_input Examples.hordelib Examples.str_to_float
           Examples.negative_model Samples.guarded_model PAYLOAD_EXAMPLE).
  intros inputs Hlen. unfold Samples.guarded_model.
  rewrite Hlen, Nat.eqb_refl. reflexivity.
Defined.

(** X17.  [payload_to_time] answers on every record the encoder accepts:
    with a network that gives one output for each vector of the length of
    the feature vectors, the result is the network's output on the feature
    vector of the record, rounded to two decimals. *)
Theorem payload_to_time_total hl f (model : list Q → result (list Q)) (payload : value) :
  encodable hl f payload = true →
  (∀ inputs, length inputs = feature_length hl → ∃ y, model inputs = Ok [ y ]) →
  ∃ inputs y,
    payload_to_tensor hl f payload = Ok [ inputs ]
    ∧ model inputs = Ok [ y ]
    ∧ payload_to_time hl f model payload = Ok (round2 y).
Proof.
  intros Henc Hmodel. destruct (encodable_total hl f payload Henc) as [t Ht].
  destruct (payload_to_tensor_row _ _ _ _ Ht) as (row & -> & Hlen & Hsq).
  destruct (Hmodel row Hlen) as [y Hy]. exists row, y. split_and!; [done | done |].
  unfold payload_to_time. rewrite Ht. cbn [mbind result_bind]. rewrite Hsq, Hy. done.
Qed.

Lemma payload_to_time_total_witness :
  ∃ inputs y,
    payload_to_tensor Examples.hordelib Examples.str_to_float Examples.flagged_record
    = Ok [ inputs ]
    ∧ Samples.steady_model inputs = Ok [ y ]
    ∧ payload_to_time Examples.hordelib Examples.str_to_float Samples.steady_model
        Examples.flagged_record = Ok (round2 y).
Proof.
  apply (payload_to_time_total Examples.hordelib Examples.str_to_float
           Samples.steady_model Examples.flagged_record).
  - vm_compute. reflexivity.
  - intros inputs _. exists 5%Q. reflexivity.
Defined.

(** ** The accuracy of a prediction *)

Lemma round1_range (q : Q) : (0 <= q)%Q → (q <= 100)%Q → (0 <= round1 q ∧ round1 q <= 100)%Q.
Proof.
  intros H0 H1.
  destruct (round_half_even_bounds (q * 10) 0 1000) as [Hl Hu].
  - change (inject_Z 0) with 0%Q. lra.
  - change (inject_Z 1000) with 1000%Q. lra.
  - unfold round1, Qle. simpl. lia.
Qed.

Lemma round2_nonneg_le (q : Q) : (0 <= q)%Q → (0 <= round2 q)%Q.
Proof.
  intros Hq. destruct (round2_nonneg q Hq) as (k & Hk & ->). unfold Qle. simpl. lia.
Qed.

Lemma percentage_accuracy_value (a p : Q) :
  (0 <= a)%Q → (0 <= p)%Q → (0 < a ∨ 0 < p)%Q →
  ∃ c, percentage_accuracy a p = Ok c
    ∧ (c == (if Qle_bool a p then a / p else p / a) * 100)%Q
    ∧ (0 <= c)%Q ∧ (c <= 100)%Q.
Proof.
  intros Ha Hp Hpos. unfold percentage_accuracy, abs_, max_.
  destruct (Qcompare_spec a p) as [E|E|E].
  - (* equal *)
    assert (0 < a)%Q as Ha' by (destruct Hpos; lra).
    destruct (Qeq_bool a 0) eqn:Ez; [apply Qeq_bool_iff in Ez; lra |].
    destruct (Qcompare_spec (a - p) 0) as [E'|E'|E']; try lra.
    eexists. split; [reflexivity |].
    assert (Qle_bool a p = true) as -> by (apply Qle_bool_iff; lra).
    assert ((a - p) / a == 0)%Q as Hd by (rewrite E; field; lra).
    assert (a / p == 1)%Q as Hr by (rewrite E; field; lra).
    rewrite Hd, Hr. split_and!; lra.
  - (* actual below predicted *)
    assert (0 < p)%Q as Hp' by lra.
    destruct (Qeq_bool p 0) eqn:Ez; [apply Qeq_bool_iff in Ez; lra |].
    destruct (Qcompare_spec (a - p) 0) as [E'|E'|E']; try lra.
    eexists. split; [reflexivity |].
    assert (Qle_bool a p = true) as -> by (apply Qle_bool_iff; lra).
    assert (- (a - p) / p == 1 - a / p)%Q as Hd by (field; lra).
    assert (0 <= a / p)%Q as H0 by (apply Qle_shift_div_l; lra).
    assert (a / p <= 1)%Q as H1 by (apply Qle_shift_div_r; lra).
    rewrite Hd. set (r := (a / p)%Q) in *. split_and!; lra.
  - (* predicted below actual *)
    assert (0 < a)%Q as Ha' by lra.
    destruct (Qeq_bool a 0) eqn:Ez; [apply Qeq_bool_iff in Ez; lra |].
    destruct (Qcompare_spec (a - p) 0) as [E'|E'|E']; try lra.
    eexists. split; [reflexivity |].
    assert (Qle_bool a p = false) as ->.
    { destruct (Qle_bool a p) eqn:El; [apply Qle_bool_iff in El; lra | done]. }
    assert ((a - p) / a == 1 - p / a)%Q as Hd by (field; lra).
    assert (0 <= p / a)%Q as H0 by (apply Qle_shift_div_l; lra).
    assert (p / a <= 1)%Q as H1 by (apply Qle_shift_div_r; lra).
    rewrite Hd. set (r := (p / a)%Q) in *. split_and!; lra.
Qed.

(** X18.  The accuracy of a prediction is the smaller of the two durations
    as a percentage of the larger: for durations that are not negative
    and not both zero it lies between 0 and 100, and it is 100 only when
    the two agree.  Two zero durations raise [ZeroDivisionError]; a
    negative prediction of a positive duration has a negative accuracy. *)
Theorem percentage_accuracy_ratio (actual predicted : Q) :
  (0 <= actual)%Q → (0 <= predicted)%Q →
  (if Qeq_bool actual 0 && Qeq_bool predicted 0
   then percentage_accuracy actual predicted = Raise ZeroDivisionError
   else ∃ c, percentage_accuracy actual predicted = Ok c
     ∧ (c == (if Qle_bool actual predicted
              then actual / predicted else predicted / actual) * 100)%Q
     ∧ (0 <= c)%Q ∧ (c <= 100)%Q
     ∧ (c == 100 ↔ actual == predicted)%Q)
  ∧ ∀ negative, (0 < actual)%Q → (negative < 0)%Q →
      ∃ c, percentage_accuracy actual negative = Ok c ∧ (c < 0)%Q.
Proof.
  intros Ha Hp. split.
  - destruct (Qeq_bool actual 0) eqn:Ea; destruct (Qeq_bool predicted 0) eqn:Ep; cbn [andb].
    + apply Qeq_bool_iff in Ea, Ep. unfold percentage_accuracy, max_.
      destruct (Qcompare_spec actual predicted) as [E|E|E]; try lra.
      by assert (Qeq_bool actual 0 = true) as -> by (apply Qeq_bool_iff; lra).
    + apply Qeq_bool_neq in Ep. apply Qeq_bool_iff in Ea.
      destruct (percentage_accuracy_value actual predicted) as (c & Hc & Hv & H0 & H1);
        [lra | lra | right; lra |].
      exists c. split_and!; try done.
      assert (Qle_bool actual predicted = true) as Hle by (apply Qle_bool_iff; lra).
      rewrite Hle in Hv. rewrite Hv.
      assert (actual / predicted == 0)%Q as -> by (rewrite Ea; field; lra).
      split; lra.
    + apply Qeq_bool_neq in Ea. apply Qeq_bool_iff in Ep.
      destruct (percentage_accuracy_value actual predicted) as (c & Hc & Hv & H0 & H1);
        [lra | lra | left; lra |].
      exists c. split_and!; try done.
      assert (Qle_bool actual predicted = false) as Hle.
      { destruct (Qle_bool actual predicted) eqn:El; [apply Qle_bool_iff in El; lra | done]. }
      rewrite Hle in Hv. rewrite Hv.
      assert (predicted / actual == 0)%Q as -> by (rewrite Ep; field; lra).
      split; lra.
    + apply Qeq_bool_neq in Ea, Ep.
      destruct (percentage_accuracy_value actual predicted) as (c & Hc & Hv & H0 & H1);
        [lra | lra | left; lra |].
      exists c. split_and!; try done. rewrite Hv.
      destruct (Qle_bool actual predicted) eqn:El.
      * apply Qle_bool_iff in El. split.
        -- intros H. assert (actual / predicted == 1)%Q as Hr by lra.
           assert (actual == actual / predicted * predicted)%Q as -> by (field; lra).
           rewrite Hr. lra.
        -- intros ->. assert (predicted / predicted == 1)%Q as -> by (field; lra). lra.
      * assert (predicted < actual)%Q as Hlt.
        { destruct (Qlt_le_dec predicted actual) as [|Hle]; [done |].
          apply Qle_bool_iff in Hle. congruence. }
        split.
        -- intros H. assert (predicted / actual == 1)%Q as Hr by lra.
           assert (predicted == predicted / actual * actual)%Q as Hq by (field; lra).
           rewrite Hr in Hq. lra.
        -- intros E. lra.
  - intros negative Hpos Hneg. unfold percentage_accuracy, abs_, max_.
    destruct (Qcompare_spec actual negative) as [E|E|E]; try lra.
    destruct (Qeq_bool actual 0) eqn:Ez; [apply Qeq_bool_iff in Ez; lra |].
    destruct (Qcompare_spec (actual - negative) 0) as [E'|E'|E']; try lra.
    eexists. split; [reflexivity |].
    assert ((actual - negative) / actual == 1 - negative / actual)%Q as -> by (field; lra).
    assert (negative / actual < 0)%Q as H.
    { assert (0 < - negative / actual)%Q as H by (apply Qlt_shift_div_l; lra).
      assert (- negative / actual == - (negative / actual))%Q as Hq by (field; lra).
      lra. }
    set (r := (negative / actual)%Q) in *. lra.
Qed.

Lemma percentage_accuracy_ratio_witness :
  ∃ c, percentage_accuracy 4 5 = Ok c ∧ (c == 80)%Q.
Proof.
  destruct (percentage_accuracy_ratio 4 5) as [(c & Hc & Hv & _) _].
  - unfold Qle. simpl. lia.
  - unfold Qle. simpl. lia.
  - exists c. split; [exact Hc |]. rewrite Hv. reflexivity.
Defined.

(** ** The walk through the validation data, and the batch sizes *)

Lemma overflows_0 : overflows (inject_Z 0) = false.
Proof. vm_compute. reflexivity. Qed.

Lemma job_time_Ok (data : value) (t : Q) :
  job_time data = Some t → getitem data "time" = Ok (VFloat t).
Proof.
  unfold job_time. destruct data as [| | | | | |m]; try done. cbn [getitem].
  by destruct (m !! "time") as [[|b|z|q| | |]|]; try done; intros [= <-].
Qed.

Lemma iadd_float (total : value) (t : Q) :
  float_total total → ∃ q, iadd total (VFloat t) = Ok (VFloat q).
Proof.
  intros [-> | [q ->]]; unfold iadd; cbn [as_int as_float mbind result_bind].
  - rewrite overflows_0. cbn [mbind result_bind]. eauto.
  - eauto.
Qed.

Lemma predictions_app (out out' : list output) :
  predictions (out ++ out') = predictions out ++ predictions out'.
Proof. apply omap_app. Qed.

Section WalkFacts.
Context (hl : HordeLib) (f : string → option Q) (model : list Q → result (list Q)).
Context (Hmodel : ∀ inputs, length inputs = feature_length hl →
                    ∃ y, model inputs = Ok [ y ] ∧ (0 <= y)%Q).

Lemma predicted_Ok (data : value) :
  encodable hl f data = true →
  ∃ y, payload_to_time hl f model data = Ok (round2 y) ∧ (0 <= y)%Q.
Proof.
  intros Henc. destruct (encodable_total hl f data Henc) as [x Hx].
  destruct (payload_to_tensor_row _ _ _ _ Hx) as (row & -> & Hlen & Hsq).
  destruct (Hmodel row Hlen) as (y & Hy & Hy0). exists y. split; [| done].
  unfold payload_to_time. rewrite Hx. cbn [mbind result_bind]. by rewrite Hsq, Hy.
Qed.

Lemma scorable_step (data : value) :
  scorable hl f data →
  ∃ predicted t c,
    payload_to_time hl f model data = Ok predicted
    ∧ getitem data "time" = Ok (VFloat t)
    ∧ percentage_accuracy (round2 t) predicted = Ok c
    ∧ (0 <= c)%Q ∧ (c <= 100)%Q.
Proof.
  intros (Henc & t & Ht & Hpos).
  destruct (predicted_Ok data Henc) as (y & Hy & Hy0).
  destruct (round2_near t) as [Hlo _].
  destruct (percentage_accuracy_value (round2 t) (round2 y)) as (c & Hc & _ & H0 & H1).
  { lra. } { by apply round2_nonneg_le. } { left. lra. }
  exists (round2 y), t, c. split_and!; try done. by apply job_time_Ok.
Qed.

Lemma test_loop_scorable (dataset : list value) (perc : list Q) (total : value)
    (out : list output) :
  Forall (scorable hl f) dataset → float_total total →
  ∃ perc' total' out',
    test_loop hl f model dataset perc total out = Ok (perc ++ perc', total', out ++ out')
    ∧ float_total total'
    ∧ (dataset ≠ [] → ∃ q, total' = VFloat q)
    ∧ length perc' = length dataset
    ∧ Forall (λ c, (0 <= c ∧ c <= 100)%Q) perc'
    ∧ length (predictions out') = length dataset
    ∧ Forall (λ l, (0 <= l.2 ∧ l.2 <= 100)%Q) (predictions out').
Proof.
  intros Hall. revert perc total out.
  induction Hall as [|data dataset Hd _ IH]; intros perc total out Htotal.
  - exists [], total, []. rewrite !app_nil_r. by split_and!.
  - destruct (scorable_step data Hd) as (p & t & c & Hp & Ht & Hc & H0 & H1).
    destruct (iadd_float total t Htotal) as [q Hq].
    cbn [test_loop]. rewrite Hp. cbn [mbind result_bind].
    rewrite Ht. cbn [mbind result_bind round_]. rewrite Hq.
    cbn [mbind result_bind as_float]. rewrite Hc. cbn [mbind result_bind].
    set (shown := match (c ?= 60)%Q with
                  | Lt => [ PrintData data ]
                  | _ => []
                  end).
    destruct (IH (perc ++ [ c ]) (VFloat q)
                (out ++ shown ++ [ PrintPrediction p (VFloat (round2 t)) (round1 c) ]))
      as (perc' & total' & out' & Hloop & Htotal' & Hfloat & Hlen & Hperc & Hlen' & Hout).
    { right. eauto. }
    exists (c :: perc'), total',
      (shown ++ PrintPrediction p (VFloat (round2 t)) (round1 c) :: out').
    split_and!.
    + rewrite Hloop. by rewrite <- !app_assoc.
    + done.
    + intros _. destruct dataset as [|d dataset]; [| by apply Hfloat].
      cbn [test_loop] in Hloop. injection Hloop as _ <- _. eauto.
    + cbn. by rewrite Hlen.
    + by constructor.
    + rewrite predictions_app, length_app.
      change (predictions (PrintPrediction p (VFloat (round2 t)) (round1 c) :: out'))
        with ((p, VFloat (round2 t), round1 c) :: predictions out').
      cbn [length]. rewrite Hlen'. subst shown. by destruct (c ?= 60)%Q.
    + rewrite predictions_app. apply Forall_app. split.
      * subst shown. destruct (c ?= 60)%Q; constructor.
      * change (predictions (PrintPrediction p (VFloat (round2 t)) (round1 c) :: out'))
          with ((p, VFloat (round2 t), round1 c) :: predictions out').
        constructor; [| done]. by apply round1_range.
Qed.

Lemma test_loop_app (l1 l2 : list value) (perc : list Q) (total : value)
    (out : list output) :
  test_loop hl f model (l1 ++ l2) perc total out
  = '(perc', total', out') ← test_loop hl f model l1 perc total out;
    test_loop hl f model l2 perc' total' out'.
Proof.
  revert perc total out. induction l1 as [|data l1 IH]; intros perc total out; [done |].
  cbn [app test_loop].
  destruct (payload_to_time hl f model data); [| done]. cbn [mbind result_bind].
  destruct (getitem data "time") as [o|]; [| done]. cbn [mbind result_bind].
  destruct (round_ o) as [actual|]; [| done]. cbn [mbind result_bind].
  destruct (iadd total o); [| done]. cbn [mbind result_bind].
  destruct (as_float actual); [| done]. cbn [mbind result_bind].
  destruct (percentage_accuracy _ _); [| done]. cbn [mbind result_bind].
  apply IH.
Qed.

End WalkFacts.

(** X19.  The walk prints a full report on scorable data.  With a network
    that gives one output, not negative, for each feature vector, and a
    data set of at least one record, each accepted by the encoder and with
    a float above half a hundredth as its time, [test_one_by_one] returns:
    it prints one prediction line per record, each with an accuracy
    between 0 and 100, and ends with the calculation time, the average job
    time and an average accuracy between 0 and 100. *)
Theorem test_one_by_one_report hl f (model : list Q → result (list Q))
    (dataset : list value) :
  (∀ inputs, length inputs = feature_length hl →
     ∃ y, model inputs = Ok [ y ] ∧ (0 <= y)%Q) →
  dataset ≠ [] →
  Forall (scorable hl f) dataset →
  ∃ out seconds avg_perc,
    test_one_by_one hl f model dataset
    = Ok (out ++ [ PrintCalculationTime; PrintJobTime seconds; PrintAccuracy avg_perc ])
    ∧ length (predictions out) = length dataset
    ∧ Forall (λ l, (0 <= l.2 ∧ l.2 <= 100)%Q) (predictions out)
    ∧ (0 <= avg_perc ∧ avg_perc <= 100)%Q.
Proof.
  intros Hmodel Hne Hall.
  destruct (test_loop_scorable hl f model Hmodel dataset [] (VInt 0) [] Hall)
    as (perc & total & out & Hloop & _ & Hfloat & Hlen & Hperc & Hlen' & Hout);
    [by left |].
  destruct (Hfloat Hne) as [q ->].
  cbn [app] in Hloop. unfold test_one_by_one. rewrite Hloop. cbn [mbind result_bind].
  assert (perc ≠ []) as Hperc_ne.
  { intros ->. destruct dataset; [done | discriminate Hlen]. }
  destruct (length perc =? 0)%nat eqn:E.
  { apply Nat.eqb_eq in E. by destruct perc. }
  cbn [mbind result_bind truediv round_]. eexists _, _, _. split; [reflexivity |].
  split_and!; try done.
  - apply round1_range; by apply (mean_bounds 0 100 perc).
  - apply round1_range; by apply (mean_bounds 0 100 perc).
Qed.

Lemma test_one_by_one_report_witness :
  ∃ out seconds avg_perc,
    test_one_by_one Examples.hordelib Examples.str_to_float Samples.steady_model
      [ Samples.timed_record ]
    = Ok (out ++ [ PrintCalculationTime; PrintJobTime seconds; PrintAccuracy avg_perc ])
    ∧ length (predictions out) = 1%nat
    ∧ (0 <= avg_perc ∧ avg_perc <= 100)%Q.
Proof.
  destruct (test_one_by_one_report Examples.hordelib Examples.str_to_float
              Samples.steady_model [ Samples.timed_record ])
    as (out & seconds & avg_perc & Hrun & Hlen & _ & Havg).
  - intros inputs _. exists 5%Q. split; [reflexivity |]. unfold Qle. simpl. lia.
  - discriminate.
  - constructor; [| constructor].
    split; [vm_compute; reflexivity |].
    exists (445 # 100). split; vm_compute; reflexivity.
  - exists out, seconds, avg_perc.
    split; [exact Hrun | split; [exact Hlen | exact Havg]].
Defined.

(** X20.  The walk stops at the first record without a time.  With such a
    network, after any number of scorable records, a record the encoder
    accepts that has no key [time] -- a record of the training files, whose
    label is under [time_to_generate], is one -- makes [test_one_by_one]
    raise [KeyError] for [time], whatever follows. *)
Theorem test_one_by_one_missing_time hl f (model : list Q → result (list Q))
    (scored rest : list value) (m : gmap string value) :
  (∀ inputs, length inputs = feature_length hl →
     ∃ y, model inputs = Ok [ y ] ∧ (0 <= y)%Q) →
  Forall (scorable hl f) scored →
  encodable hl f (VDict m) = true →
  m !! "time" = None →
  test_one_by_one hl f model (scored ++ VDict m :: rest) = Raise (KeyError "time").
Proof.
  intros Hmodel Hall Henc Hm.
  destruct (test_loop_scorable hl f model Hmodel scored [] (VInt 0) [] Hall)
    as (perc & total & out & Hloop & _); [by left |].
  unfold test_one_by_one. rewrite test_loop_app, Hloop. cbn [mbind result_bind].
  destruct (predicted_Ok hl f model Hmodel (VDict m) Henc) as (y & Hp & _).
  cbn [test_loop]. rewrite Hp. cbn [mbind result_bind getitem]. by rewrite Hm.
Qed.

Lemma test_one_by_one_missing_time_witness :
  test_one_by_one Examples.hordelib Examples.str_to_float Samples.steady_model
    ([ Samples.timed_record ] ++ [ VDict Samples.labelled_fields; Samples.timed_record ])
  = Raise (KeyError "time").
Proof.
  apply (test_one_by_one_missing_time Examples.hordelib Examples.str_to_float
           Samples.steady_model [ Samples.timed_record ] [ Samples.timed_record ]
           Samples.labelled_fields).
  - intros inputs _. exists 5%Q. split; [reflexivity |]. unfold Qle. simpl. lia.
  - constructor; [| constructor].
    split; [vm_compute; reflexivity |].
    exists (445 # 100). split; vm_compute; reflexivity.
  - vm_compute. reflexivity.
  - vm_compute. reflexivity.
Defined.

(** X21.  The walk reports nothing unless every record is scored.  On an
    empty data set [test_one_by_one] raises [ZeroDivisionError]; and, with
    such a network, after any number of scorable records a record the
    encoder rejects makes it raise the exception of the encoder, whatever
    follows -- [TypeError] for a line that holds a JSON list, the layout of
    the files the data set loader reads, [OverflowError] for a record
    whose height is an integer beyond the float range. *)
Theorem test_one_by_one_aborts hl f (model : list Q → result (list Q))
    (scored rest : list value) (data : value) (e : exn) :
  (∀ inputs, length inputs = feature_length hl →
     ∃ y, model inputs = Ok [ y ] ∧ (0 <= y)%Q) →
  Forall (scorable hl f) scored →
  payload_to_tensor hl f data = Raise e →
  test_one_by_one hl f model (scored ++ data :: rest) = Raise e
  ∧ test_one_by_one hl f model [] = Raise ZeroDivisionError.
Proof.
  intros Hmodel Hall He. split; [| done].
  destruct (test_loop_scorable hl f model Hmodel scored [] (VInt 0) [] Hall)
    as (perc & total & out & Hloop & _); [by left |].
  unfold test_one_by_one. rewrite test_loop_app, Hloop. cbn [mbind result_bind].
  cbn [test_loop]. unfold payload_to_time. by rewrite He.
Qed.

Lemma test_one_by_one_aborts_witness :
  test_one_by_one Examples.hordelib Examples.str_to_float Samples.steady_model
    ([ Samples.timed_record ] ++ [ Samples.towering_record; Samples.timed_record ])
  = Raise OverflowError.
Proof.
  refine (proj1 (test_one_by_one_aborts Examples.hordelib Examples.str_to_float
                   Samples.steady_model [ Samples.timed_record ]
                   [ Samples.timed_record ] Samples.towering_record OverflowError
                   _ _ _)).
  - intros inputs _. exists 5%Q. split; [reflexivity |]. unfold Qle. simpl. lia.
  - constructor; [| constructor].
    split; [vm_compute; reflexivity |].
    exists (445 # 100). split; vm_compute; reflexivity.
  - vm_compute. reflexivity.
Defined.

(** X22.  The batch sizes offered to a trial are the powers of two between
    the bounds, as long as the rounding of [math.log2] does not carry the
    logarithm of a bound across a whole number: for positive bounds at
    which the ceiling, respectively the floor, of [math.log2] is that of
    the exact logarithm, the list holds exactly the numbers [2^i] from the
    lower to the upper bound, in rising order.  A bound that is not
    positive raises [ValueError]. *)
Theorem batch_sizes_powers_of_two (log2 : Z → Q) (lo hi : Z) :
  ((0 < lo)%Z → (0 < hi)%Z →
   Qceiling (log2 lo) = Z.log2_up lo → Qfloor (log2 hi) = Z.log2 hi →
   ∃ sizes, batch_sizes log2 lo hi = Ok sizes
     ∧ (∀ b, b ∈ sizes ↔ (lo ≤ b ≤ hi)%Z ∧ ∃ i, (0 ≤ i)%Z ∧ b = (2 ^ i)%Z)
     ∧ StronglySorted Z.lt sizes)
  ∧ ((lo ≤ 0)%Z ∨ (hi ≤ 0)%Z → batch_sizes log2 lo hi = Raise ValueError).
Proof.
  unfold batch_sizes, math_log2. split.
  - intros Hlo Hhi Hceil Hfloor.
    rewrite (proj2 (Z.ltb_lt 0 lo) Hlo), (proj2 (Z.ltb_lt 0 hi) Hhi).
    cbn [mbind result_bind]. rewrite Hceil, Hfloor.
    eexists. split; [reflexivity |]. split.
    + intros b. rewrite list_elem_of_fmap. split.
      * intros (i & -> & Hi). apply elem_of_seqZ in Hi.
        pose proof (Z.log2_up_nonneg lo). split.
        -- split.
           ++ apply Z.log2_up_le_pow2; lia.
           ++ apply Z.log2_le_pow2; lia.
        -- exists i. split; [lia | done].
      * intros ([Hl Hu] & i & Hi & ->). exists i. split; [done |].
        apply elem_of_seqZ.
        apply Z.log2_up_le_pow2 in Hl; [| lia]. apply Z.log2_le_pow2 in Hu; [| lia]. lia.
    + pose proof (Z.log2_up_nonneg lo) as Hs. clear Hceil Hfloor.
      set (s := Z.log2_up lo) in *. set (n := (Z.log2 hi + 1 - s)%Z). clearbody s n.
      destruct (Z.le_gt_cases n 0) as [Hn|Hn].
      { unfold seqZ. replace (Z.to_nat n) with 0%nat by lia. constructor. }
      rewrite <- (Z2Nat.id n) by lia. generalize (Z.to_nat n) as k. clear n Hn.
      intros k. revert s Hs. induction k as [|k IH]; intros s Hs.
      { constructor. }
      rewrite Nat2Z.inj_succ, seqZ_cons by lia. cbn [fmap list_fmap].
      constructor.
      * replace (Z.pred (Z.succ (Z.of_nat k))) with (Z.of_nat k) by lia. apply IH. lia.
      * apply Forall_fmap, Forall_forall. intros i Hi. apply elem_of_seqZ in Hi.
        cbn. apply Z.pow_lt_mono_r; lia.
  - intros [Hlo | Hhi].
    + by rewrite (proj2 (Z.ltb_ge 0 lo) Hlo).
    + rewrite (proj2 (Z.ltb_ge 0 hi) Hhi). by destruct (0 <? lo)%Z.
Qed.

Lemma batch_sizes_powers_of_two_witness :
  ∃ sizes, batch_sizes Samples.whole_log2 MIN_DATA_BATCH_SIZE MAX_DATA_BATCH_SIZE
           = Ok sizes
    ∧ sizes = [ 32; 64; 128; 256; 512 ]%Z
    ∧ StronglySorted Z.lt sizes.
Proof.
  destruct (proj1 (batch_sizes_powers_of_two Samples.whole_log2
                     MIN_DATA_BATCH_SIZE MAX_DATA_BATCH_SIZE))
    as (sizes & Hrun & _ & Hsorted).
  - reflexivity.
  - reflexivity.
  - reflexivity.
  - reflexivity.
  - exists sizes. split; [exact Hrun |]. split; [| exact Hsorted].
    apply (Ok_inj _ _ (eq_trans (eq_sym Hrun) eq_refl)).
Defined.

(** ** The dropout parameters of a network *)

Lemma feed_forward_dropouts trial (hidden : list nat) (i w out : nat) :
  List.filter is_dropout (feed_forward trial i w hidden out)
  = dropout_layer trial
    <$> (if (0 <? i)%nat then seq i (length hidden) else seq 1 (length hidden - 1)).
Proof.
  revert i w. induction hidden as [|h hidden IH]; intros i w.
  - by destruct (0 <? i)%nat.
  - cbn [feed_forward]. destruct i as [|i];
      cbn [Nat.ltb Nat.leb app List.filter is_dropout length]; rewrite IH;
      cbn [Nat.ltb Nat.leb Nat.sub]; [| done].
    by rewrite ?Nat.sub_0_r.
Qed.

Lemma dropout_name_inj : Inj (=) (=) dropout_name.
Proof.
  intros i j H. unfold dropout_name in H.
  apply (inj (String.app "dropout_l")) in H. by apply (inj pretty) in H.
Qed.

(** X23.  One dropout parameter per hidden layer after the first.  The
    dropout layers of the network are, in order, the trial's answers for
    the parameters [dropout_l1] to [dropout_l(n-1)], where [n] is the
    number of hidden widths; no two of these names are the same; and when
    the trial answers within the bounds 0.05 and 0.2 it is asked for,
    every dropout probability of the network lies within them. *)
Theorem create_sequential_model_dropouts (trial : Trial) (layer_sizes : list nat)
    (input_size output_size : nat) :
  (∀ name, (5 # 100 <= suggest_float trial name (5 # 100) (2 # 10)
            ∧ suggest_float trial name (5 # 100) (2 # 10) <= 2 # 10)%Q) →
  let model := create_sequential_model trial layer_sizes input_size output_size in
  List.filter is_dropout model
  = dropout_layer trial <$> seq 1 (length layer_sizes - 1)
  ∧ NoDup (dropout_name <$> seq 1 (length layer_sizes - 1))
  ∧ ∀ p, Dropout p ∈ model → (5 # 100 <= p ∧ p <= 2 # 10)%Q.
Proof.
  intros Hbounds model.
  assert (List.filter is_dropout model
          = dropout_layer trial <$> seq 1 (length layer_sizes - 1)) as Hd.
  { subst model. rewrite create_sequential_model_feed_forward.
    apply feed_forward_dropouts. }
  split_and!; [done | |].
  - apply (NoDup_fmap_2 _), NoDup_seq. 
  - intros p Hp.
    assert (Dropout p ∈ List.filter is_dropout model) as Hin.
    { apply list_elem_of_In, filter_In. split; [by apply list_elem_of_In | done]. }
    rewrite Hd in Hin. apply list_elem_of_fmap in Hin as (i & [= ->] & _).
    apply Hbounds.
Qed.

Lemma create_sequential_model_dropouts_witness :
  List.filter is_dropout
    (create_sequential_model Examples.trial [ 64; 32; 16 ]%nat 31 1)
  = [ Dropout (1 # 10); Dropout (1 # 10) ].
Proof.
  refine (proj1 (create_sequential_model_dropouts Examples.trial [ 64; 32; 16 ]%nat
                   31 1 _)).
  intros name. split; vm_compute; discriminate.
Defined.
